(** * VCT fantasy league: scoring, aggregation, standings and roster rules

    A shallow embedding of the scrape-and-score core of the repository
    ([points.py], the aggregator and row parser of [scraper.py], and the
    standings, roster, trade and draft functions of [database.py]),
    together with the properties its specification states about them.
    Further modules embed the match tables, the recalculation, the
    manual adjustments, the followed teams and three forms of [app.py],
    with properties that the code itself shows.

    Numbers.  Python's [float] values are embedded as exact rationals
    ([Q]); [int] values as [Z].  Every arithmetic operator is the exact
    one, and [round(x, n)] is rounding of the exact value to [n] decimals,
    ties to the even neighbour.  Statements about numeric results use the
    rational equality [==].

    Exceptions.  Code that can raise returns a [result]: [Ok v] for a
    normal return, [Raise e] for an exception that leaves the function. *)

From Stdlib Require Import ZArith QArith Qround Qabs Lia Lqa Permutation Sorted.
From stdpp Require Import gmap strings list.

Open Scope Q_scope.

(* ===================================================================== *)
(** * Python values and operators                                        *)
(* ===================================================================== *)

Module Py.

(** The exceptions that the embedded functions can meet. *)
Inductive exn : Type :=
| ZeroDivisionError
| IndexError
| IntegrityError.

Inductive result (A : Type) : Type :=
| Ok (a : A)
| Raise (e : exn).
Arguments Ok {A} a.
Arguments Raise {A} e.

#[global] Instance result_ret : MRet result := fun A a => Ok a.
#[global] Instance result_bind : MBind result := fun A B f m =>
  match m with
  | Ok a => f a
  | Raise e => Raise e
  end.

(** [x > 0], [x < y] on floats. *)
Definition Qltb (x y : Q) : bool := negb (Qle_bool y x).

(** [x / y] with a denominator that is a variable of the program:
    a zero denominator raises. *)
Definition div (x y : Q) : result Q :=
  if Qeq_bool y 0 then Raise ZeroDivisionError else Ok (x / y).

(** Truth value of an [int] ([if r.get("stats_incomplete", 0):]). *)
Definition truthy (z : Z) : bool := negb (z =? 0)%Z.

(** Truth value of a [str] ([role or ...], [if phase:]). *)
Definition str_truthy (s : string) : bool :=
  match s with
  | EmptyString => false
  | _ => true
  end.

(** Nearest integer, ties to even. *)
Definition round_half_even (x : Q) : Z :=
  let f := Qfloor x in
  match Qcompare (x - inject_Z f) 0.5 with
  | Lt => f
  | Gt => (f + 1)%Z
  | Eq => if Z.even f then f else (f + 1)%Z
  end.

Definition pow10 (ndigits : nat) : Q := inject_Z (10 ^ Z.of_nat ndigits).

(** [round(x, ndigits)]. *)
Definition round (x : Q) (ndigits : nat) : Q :=
  inject_Z (round_half_even (x * pow10 ndigits)) / pow10 ndigits.

(** [sum(...)] of floats and of ints: left to right from 0. *)
Definition sum (l : list Q) : Q := fold_left Qplus l 0.
Definition sumZ (l : list Z) : Z := fold_left Z.add l 0%Z.

End Py.

Import Py.

(* ===================================================================== *)
(** * points.py                                                          *)
(* ===================================================================== *)

Module Points.

(** The statistics dictionary [p] read by [calculate_player_points]:
    each numeric field is [float(p.get(key, 0))], so an absent key is the
    value 0; [role] is [None] when the dictionary has no ["role"] key. *)
Record stats : Type := {
  role         : option string;
  kills        : Q;
  deaths       : Q;
  assists      : Q;
  acs          : Q;
  kast         : Q;
  adr          : Q;
  first_kills  : Q;
  first_deaths : Q;
  rating       : Q
}.

(** [r = role or p.get("role", "flex")]. *)
Definition effective_role (p : stats) (role_arg : option string) : string :=
  match role_arg with
  | Some s => if str_truthy s then s else default "flex"%string (role p)
  | None => default "flex"%string (role p)
  end.

(** [deaths = float(p.get("deaths", 0)) or 1.0]. *)
Definition deaths_or_1 (p : stats) : Q :=
  if Qeq_bool (deaths p) 0 then 1 else deaths p.

(** [kast_dec = kast / 100 if kast > 0 else 0.0]. *)
Definition kast_dec (p : stats) : Q :=
  if Qltb 0 (kast p) then kast p / 100 else 0.

(** The unrounded sum of the seven base components. *)
Definition base_raw (p : stats) : Q :=
  let kill_pts  := kills p * 4 in
  let death_pts := deaths_or_1 p * -6 in
  let ast_pts   := assists p * 1 in
  let acs_kast  := acs p * (kast_dec p / 5) in
  let fk_pts    := first_kills p * 2 in
  let fd_pts    := first_deaths p * -4 in
  let adr_pts   := adr p * 0.2 in
  kill_pts + death_pts + ast_pts + acs_kast + fk_pts + fd_pts + adr_pts.

Definition _duelist (p : stats) : Q :=
  acs p / 10 + (first_kills p + first_deaths p) - first_deaths p * 0.9.

Definition safe_kad (ka_d : Q) : Q := if Qltb 0 ka_d then ka_d else 0.001.
Definition safe_kast (p : stats) : Q :=
  if Qltb 0 (kast_dec p) then kast_dec p else 0.01.

Definition _initiator (p : stats) (ka_d : Q) : result Q :=
  q ← div (assists p) (safe_kad ka_d);
  q' ← div q (safe_kast p);
  mret (assists p + q').

Definition _controller (p : stats) (ka_d : Q) : Q :=
  assists p * 0.75 + (kast p / 10) * ka_d.

Definition _sentinel (p : stats) : Q :=
  acs p / 10 + (adr p / 100) / 1.5.

(** [calculate_player_points(p, role)]: [(base, role_bonus, total)]. *)
Definition calculate_player_points (p : stats) (role_arg : option string)
  : result (Q * Q * Q) :=
  let r := effective_role p role_arg in
  ka_d ← div (kills p + assists p) (deaths_or_1 p);
  let base := round (base_raw p) 4 in
  '(role_bonus, total) ←
    (if String.eqb r "duelist" then
       let role_bonus := _duelist p in
       mret (role_bonus, base + role_bonus)
     else if String.eqb r "initiator" then
       role_bonus ← _initiator p ka_d;
       mret (role_bonus, base + role_bonus)
     else if String.eqb r "controller" then
       let role_bonus := _controller p ka_d in
       mret (role_bonus, base + role_bonus)
     else if String.eqb r "sentinel" then
       let role_bonus := _sentinel p in
       mret (role_bonus, base + role_bonus)
     else if String.eqb r "flex" then
       let d_bonus := _duelist p in
       i_bonus ← _initiator p ka_d;
       let c_bonus := _controller p ka_d in
       let s_bonus := _sentinel p in
       let all_bonuses := d_bonus + i_bonus + c_bonus + s_bonus in
       let rating_bonus := rating p * 10 * (kast_dec p - 0.7) in
       let total := base + all_bonuses / 4 + rating_bonus in
       mret (total - base, total)
     else
       mret (0, base));
  mret (base, round role_bonus 4, round total 2).

End Points.


(* ===================================================================== *)
(** * scraper.py: row parser and aggregator                              *)
(* ===================================================================== *)

Module Scraper.

(** One per-player-per-match row, the dictionary returned by
    [_parse_row_by_class] and stored in [match_player_stats]. *)
Record match_row : Type := {
  mr_player_id        : string;
  mr_tournament_id    : Z;
  mr_match_id         : string;
  mr_match_url        : string;
  mr_ign              : string;
  mr_team             : string;
  mr_team_abbr        : string;
  mr_region           : string;
  mr_role             : string;
  mr_agent            : string;
  mr_rating           : Q;
  mr_acs              : Q;
  mr_kills            : Z;
  mr_deaths           : Z;
  mr_assists          : Z;
  mr_kd_diff          : Z;
  mr_kast             : Q;
  mr_adr              : Q;
  mr_headshot_pct     : Q;
  mr_first_kills      : Z;
  mr_first_deaths     : Z;
  mr_fk_diff          : Z;
  mr_vlr_url          : string;
  mr_match_team       : string;
  mr_stats_incomplete : Z;
  mr_missing_fields   : string
}.

(** What the CSS selectors of [_parse_row_by_class] find in one [<tr>]:
    texts are already stripped, numbers already went through [_safe_float]
    or [_safe_int] (0 for an absent or unreadable cell).  [c_deaths] is
    [None] when the deaths cell is absent; [c_kast] is [None] when the
    KAST cell is absent and otherwise its text with its [_safe_float]. *)
Record row_cells : Type := {
  c_ign          : string;
  c_team_abbr    : string;
  c_player_id    : string;
  c_vlr_url      : string;
  c_agent        : string;
  c_region       : string;
  c_rating       : Q;
  c_acs          : Q;
  c_kills        : Z;
  c_deaths       : option Z;
  c_assists      : Z;
  c_kd_diff      : Z;
  c_kast         : option (string * Q);
  c_adr          : Q;
  c_first_kills  : Z;
  c_first_deaths : Z;
  c_fk_diff      : Z;
  c_headshot_pct : Q
}.

(** [kast = kast_raw * 100 if 0 < kast_raw <= 1.5 else kast_raw]. *)
Definition normalise_kast (kast_raw : Q) : Q :=
  if Qltb 0 kast_raw && Qle_bool kast_raw 1.5 then kast_raw * 100 else kast_raw.

(** [",".join(missing)]. *)
Definition join_comma (l : list string) : string := String.concat "," l.

(** [_parse_row_by_class(row, match_id, match_url, tournament_id, _)];
    [None] is Python's [None] (row skipped). *)
Definition _parse_row_by_class (row : row_cells) (match_id match_url : string)
    (tournament_id : Z) : option match_row :=
  let ign := c_ign row in
  if negb (str_truthy ign) then None else
  let deaths := default 1%Z (c_deaths row) in
  let kast_raw := from_option snd 0 (c_kast row) in
  let kast := normalise_kast kast_raw in
  let kast_missing :=
    match c_kast row with
    | None => true
    | Some (txt, _) => String.eqb txt "" || String.eqb txt "-" || String.eqb txt "—"
    end in
  if (c_kills row =? 0)%Z && (deaths =? 0)%Z && Qeq_bool (c_acs row) 0
     && Qeq_bool (c_rating row) 0
  then None else
  let missing :=
    (if kast_missing || Qeq_bool kast 0 then ["kast"%string] else [])
    ++ (if Qeq_bool (c_adr row) 0 then ["adr"%string] else []) in
  let stats_incomplete := match missing with [] => 0%Z | _ => 1%Z end in
  Some {|
    mr_player_id        := c_player_id row;
    mr_tournament_id    := tournament_id;
    mr_match_id         := match_id;
    mr_match_url        := match_url;
    mr_ign              := ign;
    mr_team             := c_team_abbr row;
    mr_team_abbr        := c_team_abbr row;
    mr_region           := c_region row;
    mr_role             := "flex";
    mr_agent            := c_agent row;
    mr_rating           := c_rating row;
    mr_acs              := c_acs row;
    mr_kills            := c_kills row;
    mr_deaths           := Z.max deaths 1;
    mr_assists          := c_assists row;
    mr_kd_diff          := c_kd_diff row;
    mr_kast             := kast;
    mr_adr              := c_adr row;
    mr_headshot_pct     := c_headshot_pct row;
    mr_first_kills      := c_first_kills row;
    mr_first_deaths     := c_first_deaths row;
    mr_fk_diff          := c_fk_diff row;
    mr_vlr_url          := c_vlr_url row;
    mr_match_team       := "";
    mr_stats_incomplete := stats_incomplete;
    mr_missing_fields   := join_comma missing
  |}.

(** The leaderboard dictionary: what [aggregate_player_stats] and
    [_make_player_stub] build and [upsert_player] stores. *)
Record player_dict : Type := {
  pd_player_id      : string;
  pd_tournament_id  : Z;
  pd_ign            : string;
  pd_real_name      : string;
  pd_team           : string;
  pd_team_abbr      : string;
  pd_country        : string;
  pd_region         : string;
  pd_role           : string;
  pd_agent          : string;
  pd_rounds_played  : Z;
  pd_matches_played : Z;
  pd_rating         : Q;
  pd_acs            : Q;
  pd_kills          : Z;
  pd_deaths         : Z;
  pd_assists        : Z;
  pd_kd_ratio       : Q;
  pd_kast           : Q;
  pd_adr            : Q;
  pd_headshot_pct   : Q;
  pd_first_kills    : Z;
  pd_first_deaths   : Z;
  pd_fk_fd_ratio    : Q;
  pd_base_points    : Q;
  pd_role_points    : Q;
  pd_fantasy_points : Q;
  pd_vlr_url        : string
}.

(** An aggregator output row: the leaderboard dictionary and the extra
    key [has_incomplete_matches], which is not a column of the store. *)
Record aggregate : Type := {
  agg_player                 : player_dict;
  agg_has_incomplete_matches : bool
}.

(** [buckets[row["player_id"]].append(row)] on an insertion-ordered
    [defaultdict(list)]. *)
Fixpoint bucket_append (pid : string) (row : match_row)
    (buckets : list (string * list match_row)) : list (string * list match_row) :=
  match buckets with
  | [] => [(pid, [row])]
  | (k, rows) :: rest =>
      if String.eqb k pid then (k, rows ++ [row]) :: rest
      else (k, rows) :: bucket_append pid row rest
  end.

Definition group_rows (match_player_rows : list match_row)
  : list (string * list match_row) :=
  fold_left (fun buckets row => bucket_append (mr_player_id row) row buckets)
            match_player_rows [].

(** [Counter(...)]: counts in first-seen order. *)
Fixpoint counter_add (s : string) (c : list (string * Z)) : list (string * Z) :=
  match c with
  | [] => [(s, 1%Z)]
  | (k, n) :: rest =>
      if String.eqb k s then (k, (n + 1)%Z) :: rest else (k, n) :: counter_add s rest
  end.

(** [most_common(1)]: the first entry, in first-seen order, whose count is
    maximal. *)
Definition most_common_1 (c : list (string * Z)) : option (string * Z) :=
  fold_left (fun best kv =>
               match best with
               | None => Some kv
               | Some b => if (snd b <? snd kv)%Z then Some kv else Some b
               end) c None.

Definition most_common_agent (rows : list match_row) : string :=
  let agent_counter :=
    fold_left (fun c r => counter_add (mr_agent r) c)
              (List.filter (fun r => str_truthy (mr_agent r)) rows) [] in
  from_option fst ""%string (most_common_1 agent_counter).

(** The [pdata] dictionary handed to the points engine for one match. *)
Definition pdata (role : string) (r : match_row) : Points.stats := {|
  Points.role         := Some role;
  Points.kills        := inject_Z (mr_kills r);
  Points.deaths       := inject_Z (mr_deaths r);
  Points.assists      := inject_Z (mr_assists r);
  Points.acs          := mr_acs r;
  Points.kast         := mr_kast r;
  Points.adr          := mr_adr r;
  Points.first_kills  := inject_Z (mr_first_kills r);
  Points.first_deaths := inject_Z (mr_first_deaths r);
  Points.rating       := mr_rating r
|}.

(** The loop [for r in rows:] that accumulates
    [(total_base, total_role, total_pts)], skipping incomplete rows. *)
Fixpoint points_loop (role : string) (rows : list match_row) (acc : Q * Q * Q)
  : result (Q * Q * Q) :=
  match rows with
  | [] => mret acc
  | r :: rest =>
      if truthy (mr_stats_incomplete r) then points_loop role rest acc
      else
        let '(total_base, total_role, total_pts) := acc in
        '(bp, rp, tp) ← Points.calculate_player_points (pdata role r) None;
        points_loop role rest (total_base + bp, total_role + rp, total_pts + tp)
  end.

(** The body of [for pid, rows in buckets.items():]. *)
Definition aggregate_bucket (pid : string) (rows : list match_row) : result aggregate :=
  let n := Z.of_nat (length rows) in
  match rows with
  | [] => Raise IndexError
  | base :: _ =>
      let kills        := sumZ (map mr_kills rows) in
      let deaths       := sumZ (map mr_deaths rows) in
      let assists      := sumZ (map mr_assists rows) in
      let first_kills  := sumZ (map mr_first_kills rows) in
      let first_deaths := sumZ (map mr_first_deaths rows) in
      rating       ← div (sum (map mr_rating rows)) (inject_Z n);
      acs          ← div (sum (map mr_acs rows)) (inject_Z n);
      kast         ← div (sum (map mr_kast rows)) (inject_Z n);
      adr          ← div (sum (map mr_adr rows)) (inject_Z n);
      headshot_pct ← div (sum (map mr_headshot_pct rows)) (inject_Z n);
      kd ← div (inject_Z kills) (inject_Z (Z.max deaths 1));
      let kd_ratio := round kd 3 in
      fkfd ← div (inject_Z first_kills) (inject_Z (Z.max first_deaths 1));
      let fk_fd_ratio := round fkfd 3 in
      let agent := most_common_agent rows in
      let role := mr_role base in
      let has_incomplete := existsb (fun r => truthy (mr_stats_incomplete r)) rows in
      '(total_base, total_role, total_pts) ← points_loop role rows (0, 0, 0);
      mret {|
        agg_player := {|
          pd_player_id      := pid;
          pd_tournament_id  := mr_tournament_id base;
          pd_ign            := mr_ign base;
          pd_real_name      := "";
          pd_team           := mr_team base;
          pd_team_abbr      := mr_team_abbr base;
          pd_country        := "";
          pd_region         := mr_region base;
          pd_role           := role;
          pd_agent          := agent;
          pd_rounds_played  := n;
          pd_matches_played := n;
          pd_rating         := round rating 3;
          pd_acs            := round acs 2;
          pd_kills          := kills;
          pd_deaths         := deaths;
          pd_assists        := assists;
          pd_kd_ratio       := kd_ratio;
          pd_kast           := round kast 2;
          pd_adr            := round adr 2;
          pd_headshot_pct   := round headshot_pct 2;
          pd_first_kills    := first_kills;
          pd_first_deaths   := first_deaths;
          pd_fk_fd_ratio    := fk_fd_ratio;
          pd_base_points    := round total_base 4;
          pd_role_points    := round total_role 4;
          pd_fantasy_points := round total_pts 2;
          pd_vlr_url        := mr_vlr_url base
        |};
        agg_has_incomplete_matches := has_incomplete
      |}
  end.

(** [for pid, rows in buckets.items(): ... players.append(...)]. *)
Fixpoint aggregate_buckets (buckets : list (string * list match_row))
  : result (list aggregate) :=
  match buckets with
  | [] => mret []
  | (pid, rows) :: rest =>
      a ← aggregate_bucket pid rows;
      others ← aggregate_buckets rest;
      mret (a :: others)
  end.

(** [aggregate_player_stats(match_player_rows)]. *)
Definition aggregate_player_stats (match_player_rows : list match_row)
  : result (list aggregate) :=
  aggregate_buckets (group_rows match_player_rows).

(** [_make_player_stub(...)]: a zero-stat leaderboard dictionary. *)
Definition _make_player_stub (player_id : string) (tournament_id : Z)
    (ign team_full team_abbr vlr_url region : string) : player_dict := {|
  pd_player_id      := player_id;
  pd_tournament_id  := tournament_id;
  pd_ign            := ign;
  pd_real_name      := "";
  pd_team           := team_full;
  pd_team_abbr      := team_abbr;
  pd_country        := "";
  pd_region         := region;
  pd_role           := "flex";
  pd_agent          := "";
  pd_rounds_played  := 0;
  pd_matches_played := 0;
  pd_rating         := 0;
  pd_acs            := 0;
  pd_kills          := 0;
  pd_deaths         := 0;
  pd_assists        := 0;
  pd_kd_ratio       := 0;
  pd_kast           := 0;
  pd_adr            := 0;
  pd_headshot_pct   := 0;
  pd_first_kills    := 0;
  pd_first_deaths   := 0;
  pd_fk_fd_ratio    := 0;
  pd_base_points    := 0;
  pd_role_points    := 0;
  pd_fantasy_points := 0;
  pd_vlr_url        := vlr_url
|}.

End Scraper.

(* ===================================================================== *)
(** * database.py: the store                                             *)
(* ===================================================================== *)

Module Database.

Import Scraper.

(** Table rows.  A table is the list of its rows in ascending [id]
    (AUTOINCREMENT) order, so [ORDER BY id] is the order of the list.
    Timestamp and free-text columns that no modelled function reads are
    left out. *)

Record league : Type := {
  l_id            : Z;
  l_tournament_id : Z;
  l_phase         : string;
  (** the ["total_players"] key of the JSON [ruleset] column;
      [None] when the key is absent or the JSON does not load *)
  l_total_players : option Z
}.

Record fantasy_team : Type := {
  ft_id           : Z;
  ft_league_id    : Z;
  ft_team_name    : string;
  ft_manager_name : string
}.

(** A row of [players]: the columns written by [upsert_player] and the
    [manual_pts] accumulator. *)
Record player_row : Type := {
  pr_data       : player_dict;
  pr_manual_pts : Q
}.

Record roster_entry : Type := {
  fr_id              : Z;
  fr_fantasy_team_id : Z;
  fr_player_id       : string;
  fr_tournament_id   : Z;
  fr_role_slot       : string;
  fr_is_star         : Z;
  fr_is_duplicate    : Z;
  fr_phase           : string
}.

Record followed_team : Type := {
  fo_fantasy_team_id : Z;
  fo_team_name       : string;
  fo_team_region     : string
}.

Record match_result : Type := {
  res_id            : Z;
  res_tournament_id : Z;
  res_team_name     : string;
  res_opponent      : string;
  res_result        : string;
  res_format        : string
}.

Record point_adjustment : Type := {
  adj_id              : Z;
  adj_fantasy_team_id : Z;
  adj_amount          : Q
}.

Record trade : Type := {
  tr_id             : Z;
  tr_league_id      : Z;
  tr_from_team_id   : Z;
  tr_to_team_id     : Z;
  tr_from_player_id : string;
  tr_to_player_id   : string;
  tr_tournament_id  : Z;
  tr_status         : string
}.

Record draft_session : Type := {
  ds_id           : Z;
  ds_league_id    : Z;
  ds_phase        : string;
  ds_status       : string;
  ds_current_pick : Z;
  ds_total_picks  : Z;
  ds_snake_order  : list Z
}.

(** The database.  [tournaments] holds the ids of the tournament rows;
    [match_tournaments] the [tournament_id] of every row of [matches] and
    [match_player_stats], two tables that matter here only through their
    foreign key; [players] is keyed by its primary key
    [(player_id, tournament_id)]; the two [seq_] fields are the
    AUTOINCREMENT counters of the tables the modelled functions insert
    into. *)
Record db : Type := {
  tournaments        : list Z;
  match_tournaments  : list Z;
  leagues            : list league;
  fantasy_teams      : list fantasy_team;
  players            : gmap (string * Z) player_row;
  fantasy_roster     : list roster_entry;
  seq_fantasy_roster : Z;
  followed_teams     : list followed_team;
  match_results      : list match_result;
  point_adjustments  : list point_adjustment;
  trades             : list trade;
  draft_sessions     : list draft_session;
  seq_draft_sessions : Z
}.

Definition set_players (s : db) (m : gmap (string * Z) player_row) : db :=
  {| tournaments := tournaments s; match_tournaments := match_tournaments s;
     leagues := leagues s;
     fantasy_teams := fantasy_teams s; players := m;
     fantasy_roster := fantasy_roster s;
     seq_fantasy_roster := seq_fantasy_roster s;
     followed_teams := followed_teams s; match_results := match_results s;
     point_adjustments := point_adjustments s; trades := trades s;
     draft_sessions := draft_sessions s;
     seq_draft_sessions := seq_draft_sessions s |}.

Definition set_roster (s : db) (r : list roster_entry) (seq : Z) : db :=
  {| tournaments := tournaments s; match_tournaments := match_tournaments s;
     leagues := leagues s;
     fantasy_teams := fantasy_teams s; players := players s;
     fantasy_roster := r;
     seq_fantasy_roster := seq;
     followed_teams := followed_teams s; match_results := match_results s;
     point_adjustments := point_adjustments s; trades := trades s;
     draft_sessions := draft_sessions s;
     seq_draft_sessions := seq_draft_sessions s |}.

Definition set_trades (s : db) (t : list trade) : db :=
  {| tournaments := tournaments s; match_tournaments := match_tournaments s;
     leagues := leagues s;
     fantasy_teams := fantasy_teams s; players := players s;
     fantasy_roster := fantasy_roster s;
     seq_fantasy_roster := seq_fantasy_roster s;
     followed_teams := followed_teams s; match_results := match_results s;
     point_adjustments := point_adjustments s; trades := t;
     draft_sessions := draft_sessions s;
     seq_draft_sessions := seq_draft_sessions s |}.

Definition set_drafts (s : db) (d : list draft_session) (seq : Z) : db :=
  {| tournaments := tournaments s; match_tournaments := match_tournaments s;
     leagues := leagues s;
     fantasy_teams := fantasy_teams s; players := players s;
     fantasy_roster := fantasy_roster s;
     seq_fantasy_roster := seq_fantasy_roster s;
     followed_teams := followed_teams s; match_results := match_results s;
     point_adjustments := point_adjustments s; trades := trades s;
     draft_sessions := d;
     seq_draft_sessions := seq |}.

Definition set_leagues (s : db) (l : list league) : db :=
  {| tournaments := tournaments s; match_tournaments := match_tournaments s;
     leagues := l;
     fantasy_teams := fantasy_teams s; players := players s;
     fantasy_roster := fantasy_roster s;
     seq_fantasy_roster := seq_fantasy_roster s;
     followed_teams := followed_teams s; match_results := match_results s;
     point_adjustments := point_adjustments s; trades := trades s;
     draft_sessions := draft_sessions s;
     seq_draft_sessions := seq_draft_sessions s |}.

(** ** Generic helpers *)

(** A stable sort: equal keys keep their order ([list.sort], and the
    order this embedding gives to [ORDER BY]). *)
Fixpoint insert_by {A : Type} (le : A -> A -> bool) (x : A) (l : list A) : list A :=
  match l with
  | [] => [x]
  | y :: l' => if le x y then x :: y :: l' else y :: insert_by le x l'
  end.

Definition sort_by {A : Type} (le : A -> A -> bool) (l : list A) : list A :=
  fold_right (insert_by le) [] l.

(** The order of [sort(key=..., reverse=True)]: [a] may stay before [b]
    when its key is not smaller. *)
Definition descending {A : Type} (key : A -> Q) (a b : A) : bool :=
  Qle_bool (key b) (key a).

(** [l[i]] for an [int] index: negative indices count from the end. *)
Definition py_index {A : Type} (l : list A) (i : Z) : result A :=
  let len := Z.of_nat (length l) in
  let j := if (i <? 0)%Z then (len + i)%Z else i in
  if (j <? 0)%Z then Raise IndexError
  else match l !! Z.to_nat j with
       | Some x => Ok x
       | None => Raise IndexError
       end.

(** [l[:k]]. *)
Definition py_slice_to {A : Type} (l : list A) (k : Z) : list A :=
  if (0 <=? k)%Z then take (Z.to_nat k) l
  else take (Z.to_nat (Z.of_nat (length l) + k)) l.

(** [fetchone()] of a query with no [ORDER BY]: the first matching row in
    table order. *)
Definition fetchone {A : Type} (f : A -> bool) (rows : list A) : option A :=
  List.find f rows.

(** ** Leagues, teams, ruleset *)

(** [get_league]: the league row joined with its tournament row. *)
Definition get_league (s : db) (league_id : Z) : option league :=
  fetchone (fun l => (l_id l =? league_id)%Z
                     && existsb (Z.eqb (l_tournament_id l)) (tournaments s))
           (leagues s).

(** [get_teams_in_league]: [... WHERE league_id = ? ORDER BY id]. *)
Definition get_teams_in_league (s : db) (league_id : Z) : list fantasy_team :=
  List.filter (fun t => (ft_league_id t =? league_id)%Z) (fantasy_teams s).

(** [get_ruleset(league_id).get("total_players", 10)]: missing keys, an
    unreadable ruleset and a missing league all give the default 10. *)
Definition ruleset_total_players (s : db) (league_id : Z) : Z :=
  match fetchone (fun l => (l_id l =? league_id)%Z) (leagues s) with
  | Some l => default 10%Z (l_total_players l)
  | None => 10%Z
  end.

(** ** Leaderboard store *)

(** The row left by [INSERT ... ON CONFLICT(player_id, tournament_id) DO
    UPDATE SET ...]: a fresh row takes every column of [d] and the default
    [manual_pts]; a conflicting row keeps its [role] and [manual_pts] and
    takes every other column of [d]. *)
Definition upsert_row (old : option player_row) (d : player_dict) : player_row :=
  match old with
  | None => {| pr_data := d; pr_manual_pts := 0 |}
  | Some o =>
      {| pr_data := {|
           pd_player_id      := pd_player_id d;
           pd_tournament_id  := pd_tournament_id d;
           pd_ign            := pd_ign d;
           pd_real_name      := pd_real_name d;
           pd_team           := pd_team d;
           pd_team_abbr      := pd_team_abbr d;
           pd_country        := pd_country d;
           pd_region         := pd_region d;
           pd_role           := pd_role (pr_data o);
           pd_agent          := pd_agent d;
           pd_rounds_played  := pd_rounds_played d;
           pd_matches_played := pd_matches_played d;
           pd_rating         := pd_rating d;
           pd_acs            := pd_acs d;
           pd_kills          := pd_kills d;
           pd_deaths         := pd_deaths d;
           pd_assists        := pd_assists d;
           pd_kd_ratio       := pd_kd_ratio d;
           pd_kast           := pd_kast d;
           pd_adr            := pd_adr d;
           pd_headshot_pct   := pd_headshot_pct d;
           pd_first_kills    := pd_first_kills d;
           pd_first_deaths   := pd_first_deaths d;
           pd_fk_fd_ratio    := pd_fk_fd_ratio d;
           pd_base_points    := pd_base_points d;
           pd_role_points    := pd_role_points d;
           pd_fantasy_points := pd_fantasy_points d;
           pd_vlr_url        := pd_vlr_url d
         |};
         pr_manual_pts := pr_manual_pts o |}
  end.

(** [upsert_player(data)].  The foreign key on [tournament_id] is
    enforced ([PRAGMA foreign_keys = ON]). *)
Definition upsert_player (data : player_dict) (s : db) : result db :=
  if existsb (Z.eqb (pd_tournament_id data)) (tournaments s) then
    let key := (pd_player_id data, pd_tournament_id data) in
    Ok (set_players s (<[key := upsert_row (players s !! key) data]> (players s)))
  else Raise IntegrityError.

(** [SELECT fantasy_points FROM players WHERE player_id=? AND
    tournament_id=?] followed by [fetchone()]. *)
Definition select_fantasy_points (s : db) (player_id : string) (tournament_id : Z)
  : option Q :=
  (fun r => pd_fantasy_points (pr_data r)) <$> players s !! (player_id, tournament_id).

(** ** Roster *)

Definition role_slot_le (a b : roster_entry) : bool :=
  String.leb (fr_role_slot a) (fr_role_slot b).

Definition phase_role_slot_le (a b : roster_entry) : bool :=
  match String.compare (fr_phase a) (fr_phase b) with
  | Lt => true
  | Gt => false
  | Eq => String.leb (fr_role_slot a) (fr_role_slot b)
  end.

(** [JOIN fantasy_roster fr ON fr.player_id = p.player_id AND
    fr.tournament_id = p.tournament_id]: an entry with no player row
    yields nothing. *)
Definition join_players (s : db) (entries : list roster_entry)
  : list (player_row * roster_entry) :=
  omap (fun fr => p ← players s !! (fr_player_id fr, fr_tournament_id fr);
                  Some (p, fr)) entries.

(** [get_roster(fantasy_team_id, phase)]. *)
Definition get_roster (s : db) (fantasy_team_id : Z) (phase : option string)
  : list (player_row * roster_entry) :=
  let of_team := List.filter (fun fr => (fr_fantasy_team_id fr =? fantasy_team_id)%Z)
                             (fantasy_roster s) in
  match phase with
  | Some ph =>
      if str_truthy ph then
        join_players s
          (sort_by role_slot_le
             (List.filter (fun fr => String.eqb (fr_phase fr) ph) of_team))
      else join_players s (sort_by phase_role_slot_le of_team)
  | None => join_players s (sort_by phase_role_slot_le of_team)
  end.

(** The constraints checked when a row is inserted into [fantasy_roster]:
    [UNIQUE(fantasy_team_id, player_id, phase)] and the foreign key on
    [fantasy_team_id]. *)
Definition same_cell (team_id : Z) (player_id phase : string) (fr : roster_entry) : bool :=
  (fr_fantasy_team_id fr =? team_id)%Z
  && String.eqb (fr_player_id fr) player_id
  && String.eqb (fr_phase fr) phase.

(** [INSERT INTO fantasy_roster (...)]: the new row and counter, or
    [IntegrityError]. *)
Definition insert_roster (teams : list fantasy_team) (roster : list roster_entry)
    (seq : Z) (team_id : Z) (player_id : string) (tournament_id : Z)
    (role_slot phase : string) (is_duplicate : Z)
  : result (list roster_entry * Z) :=
  if existsb (same_cell team_id player_id phase) roster then Raise IntegrityError
  else if negb (existsb (fun t => (ft_id t =? team_id)%Z) teams) then Raise IntegrityError
  else
    let id := (seq + 1)%Z in
    Ok (roster ++ [{| fr_id := id; fr_fantasy_team_id := team_id;
                      fr_player_id := player_id; fr_tournament_id := tournament_id;
                      fr_role_slot := role_slot; fr_is_star := 0;
                      fr_is_duplicate := is_duplicate; fr_phase := phase |}],
        id).

(** [add_player_to_roster]: [IntegrityError] is caught and reported as
    [False], with nothing written. *)
Definition add_player_to_roster (s : db) (fantasy_team_id : Z) (player_id : string)
    (tournament_id : Z) (role_slot phase : string) (is_duplicate : Z) : db * bool :=
  match insert_roster (fantasy_teams s) (fantasy_roster s) (seq_fantasy_roster s)
                      fantasy_team_id player_id tournament_id role_slot phase
                      is_duplicate with
  | Ok (r, seq) => (set_roster s r seq, true)
  | Raise _ => (s, false)
  end.

(** [remove_player_from_roster(fantasy_team_id, player_id, phase)]. *)
Definition remove_player_from_roster (s : db) (fantasy_team_id : Z)
    (player_id : string) (phase : option string) : db :=
  let hit fr :=
    (fr_fantasy_team_id fr =? fantasy_team_id)%Z
    && String.eqb (fr_player_id fr) player_id
    && match phase with
       | Some ph => if str_truthy ph then String.eqb (fr_phase fr) ph else true
       | None => true
       end in
  set_roster s (List.filter (fun fr => negb (hit fr)) (fantasy_roster s))
             (seq_fantasy_roster s).

Definition with_is_star (fr : roster_entry) (v : Z) : roster_entry :=
  {| fr_id := fr_id fr; fr_fantasy_team_id := fr_fantasy_team_id fr;
     fr_player_id := fr_player_id fr; fr_tournament_id := fr_tournament_id fr;
     fr_role_slot := fr_role_slot fr; fr_is_star := v;
     fr_is_duplicate := fr_is_duplicate fr; fr_phase := fr_phase fr |}.

(** [UPDATE fantasy_roster SET is_star=0 WHERE fantasy_team_id=? AND phase=?]. *)
Definition clear_star_rows (team_id : Z) (phase : string) (roster : list roster_entry)
  : list roster_entry :=
  map (fun fr => if (fr_fantasy_team_id fr =? team_id)%Z && String.eqb (fr_phase fr) phase
                 then with_is_star fr 0 else fr) roster.

(** [UPDATE fantasy_roster SET is_star=1 WHERE fantasy_team_id=? AND
    player_id=? AND phase=?]. *)
Definition set_star_rows (team_id : Z) (player_id phase : string)
    (roster : list roster_entry) : list roster_entry :=
  map (fun fr => if same_cell team_id player_id phase fr
                 then with_is_star fr 1 else fr) roster.

(** The states of the roster table inside the one transaction of
    [set_star_player]: after the first and after the second [UPDATE].
    Only the last one is committed. *)
Definition set_star_player_steps (roster : list roster_entry) (team_id : Z)
    (player_id phase : string) : list roster_entry * list roster_entry :=
  let cleared := clear_star_rows team_id phase roster in
  (cleared, set_star_rows team_id player_id phase cleared).

(** [set_star_player(fantasy_team_id, player_id, phase)]: the committed
    state. *)
Definition set_star_player (s : db) (fantasy_team_id : Z) (player_id phase : string)
  : db :=
  set_roster s (snd (set_star_player_steps (fantasy_roster s) fantasy_team_id
                                           player_id phase))
             (seq_fantasy_roster s).

(** [clear_star_player(fantasy_team_id, phase)]. *)
Definition clear_star_player (s : db) (fantasy_team_id : Z) (phase : string) : db :=
  set_roster s (clear_star_rows fantasy_team_id phase (fantasy_roster s))
             (seq_fantasy_roster s).

(** [DELETE FROM fantasy_roster WHERE fantasy_team_id=? AND player_id=?
    AND phase='swiss'] for one [(tid, pid)]. *)
Definition delete_swiss_entry (tid : Z) (pid : string) (roster : list roster_entry)
  : list roster_entry :=
  List.filter (fun fr => negb (same_cell tid pid "swiss" fr)) roster.

(** [transition_to_playoffs(league_id, kept_player_ids)]. *)
Definition transition_to_playoffs (s : db) (league_id : Z)
    (kept_player_ids : list (Z * string)) : db :=
  let teams := map ft_id (get_teams_in_league s league_id) in
  let roster' :=
    fold_left
      (fun roster tid =>
         let swiss := map fr_player_id
                          (List.filter (fun fr => (fr_fantasy_team_id fr =? tid)%Z
                                                  && String.eqb (fr_phase fr) "swiss")
                                       roster) in
         fold_left
           (fun roster pid =>
              if existsb (fun k => (fst k =? tid)%Z && String.eqb (snd k) pid)
                         kept_player_ids
              then roster else delete_swiss_entry tid pid roster)
           swiss roster)
      teams (fantasy_roster s) in
  let leagues' :=
    map (fun l => if (l_id l =? league_id)%Z
                  then {| l_id := l_id l; l_tournament_id := l_tournament_id l;
                          l_phase := "playoffs";
                          l_total_players := l_total_players l |}
                  else l) (leagues s) in
  set_leagues (set_roster s roster' (seq_fantasy_roster s)) leagues'.

(** The rows of the three per-team tables left after
    [DELETE ... WHERE fantasy_team_id = ?]. *)
Definition delete_team_rows (s : db) (team_id : Z) : db :=
  {| tournaments := tournaments s; match_tournaments := match_tournaments s;
     leagues := leagues s;
     fantasy_teams := fantasy_teams s; players := players s;
     fantasy_roster :=
       List.filter (fun fr => negb (fr_fantasy_team_id fr =? team_id)%Z) (fantasy_roster s);
     seq_fantasy_roster := seq_fantasy_roster s;
     followed_teams :=
       List.filter (fun f => negb (fo_fantasy_team_id f =? team_id)%Z) (followed_teams s);
     match_results := match_results s;
     point_adjustments :=
       List.filter (fun a => negb (adj_fantasy_team_id a =? team_id)%Z)
                   (point_adjustments s);
     trades := trades s;
     draft_sessions := draft_sessions s;
     seq_draft_sessions := seq_draft_sessions s |}.

(** [delete_fantasy_team(team_id)]. *)
Definition delete_fantasy_team (s : db) (team_id : Z) : db :=
  let s1 := delete_team_rows s team_id in
  {| tournaments := tournaments s1; match_tournaments := match_tournaments s1;
     leagues := leagues s1;
     fantasy_teams := List.filter (fun t => negb (ft_id t =? team_id)%Z) (fantasy_teams s1);
     players := players s1; fantasy_roster := fantasy_roster s1;
     seq_fantasy_roster := seq_fantasy_roster s1;
     followed_teams := followed_teams s1; match_results := match_results s1;
     point_adjustments := point_adjustments s1; trades := trades s1;
     draft_sessions := draft_sessions s1;
     seq_draft_sessions := seq_draft_sessions s1 |}.

(** [_delete_league_cascade(conn, league_id)]. *)
Definition _delete_league_cascade (s : db) (league_id : Z) : db :=
  let teams := map ft_id (get_teams_in_league s league_id) in
  let s1 := fold_left delete_team_rows teams s in
  {| tournaments := tournaments s1; match_tournaments := match_tournaments s1;
     leagues := List.filter (fun l => negb (l_id l =? league_id)%Z) (leagues s1);
     fantasy_teams :=
       List.filter (fun t => negb (ft_league_id t =? league_id)%Z) (fantasy_teams s1);
     players := players s1; fantasy_roster := fantasy_roster s1;
     seq_fantasy_roster := seq_fantasy_roster s1;
     followed_teams := followed_teams s1; match_results := match_results s1;
     point_adjustments := point_adjustments s1;
     trades := List.filter (fun t => negb (tr_league_id t =? league_id)%Z) (trades s1);
     draft_sessions :=
       List.filter (fun d => negb (ds_league_id d =? league_id)%Z) (draft_sessions s1);
     seq_draft_sessions := seq_draft_sessions s1 |}.

(** [delete_league(league_id)]. *)
Definition delete_league (s : db) (league_id : Z) : db :=
  _delete_league_cascade s league_id.

(** [delete_tournament(tournament_id)].  The last [DELETE] fails on the
    foreign key of [matches] and [match_player_stats] when one of their
    rows still names the tournament; the connection is then never
    committed. *)
Definition delete_tournament (s : db) (tournament_id : Z) : result db :=
  let s1 :=
    set_players s (filter (fun kv => kv.1.2 <> tournament_id) (players s)) in
  let league_ids :=
    map l_id (List.filter (fun l => (l_tournament_id l =? tournament_id)%Z)
                          (leagues s1)) in
  let s2 := fold_left _delete_league_cascade league_ids s1 in
  if existsb (Z.eqb tournament_id) (match_tournaments s2)
  then Raise IntegrityError
  else
    Ok {| tournaments :=
            List.filter (fun t => negb (t =? tournament_id)%Z) (tournaments s2);
          match_tournaments := match_tournaments s2;
          leagues := leagues s2; fantasy_teams := fantasy_teams s2;
          players := players s2; fantasy_roster := fantasy_roster s2;
          seq_fantasy_roster := seq_fantasy_roster s2;
          followed_teams := followed_teams s2;
          match_results :=
            List.filter (fun r => negb (res_tournament_id r =? tournament_id)%Z)
                        (match_results s2);
          point_adjustments := point_adjustments s2; trades := trades s2;
          draft_sessions := draft_sessions s2;
          seq_draft_sessions := seq_draft_sessions s2 |}.

(** ** Followed teams, match results, adjustments *)

(** [get_followed_team]: [fantasy_team_id] is [UNIQUE]. *)
Definition get_followed_team (s : db) (fantasy_team_id : Z) : option followed_team :=
  fetchone (fun f => (fo_fantasy_team_id f =? fantasy_team_id)%Z) (followed_teams s).

(** [get_match_results(tournament_id, team_name)]: [ORDER BY id DESC]. *)
Definition get_match_results (s : db) (tournament_id : Z) (team_name : option string)
  : list match_result :=
  let of_tournament :=
    List.filter (fun r => (res_tournament_id r =? tournament_id)%Z) (match_results s) in
  match team_name with
  | Some name =>
      if str_truthy name
      then rev (List.filter (fun r => String.eqb (res_team_name r) name) of_tournament)
      else rev of_tournament
  | None => rev of_tournament
  end.

(** One iteration of the loop of [calculate_team_follow_points]. *)
Definition follow_step (pts : Q) (r : match_result) : Q :=
  let fmt := res_format r in
  let result := res_result r in
  if String.eqb result "win"
  then pts + (if String.eqb fmt "bo3" then 100 else 75)
  else pts + (if String.eqb fmt "bo3" then -75 else -50).

(** [calculate_team_follow_points(fantasy_team_id, tournament_id)]. *)
Definition calculate_team_follow_points (s : db) (fantasy_team_id tournament_id : Z) : Q :=
  match get_followed_team s fantasy_team_id with
  | None => 0
  | Some followed =>
      let results := get_match_results s tournament_id (Some (fo_team_name followed)) in
      fold_left follow_step results 0
  end.

(** [get_total_adjustments]: [COALESCE(SUM(amount), 0)]. *)
Definition get_total_adjustments (s : db) (fantasy_team_id : Z) : Q :=
  sum (map adj_amount
           (List.filter (fun a => (adj_fantasy_team_id a =? fantasy_team_id)%Z)
                        (point_adjustments s))).

(** ** Standings *)

Record standing : Type := {
  st_team          : fantasy_team;
  st_player_pts    : Q;
  st_star_bonus    : Q;
  st_follow_pts    : Q;
  st_adj_pts       : Q;
  st_total_points  : Q;
  st_player_count  : Z;
  st_phase         : string;
  st_followed_team : option string
}.

(** The body of [for p in roster:] on [(player_pts, star_bonus)]. *)
Definition roster_step (acc : Q * Q) (p : player_row * roster_entry) : Q * Q :=
  let '(player_pts, star_bonus) := acc in
  let base_pts := pd_fantasy_points (pr_data (fst p)) + pr_manual_pts (fst p) in
  let star_bonus := if truthy (fr_is_star (snd p)) then star_bonus + base_pts * 0.5
                    else star_bonus in
  (player_pts + base_pts, star_bonus).

(** The body of [for t in teams:] of [get_phase_standings]. *)
Definition team_standing (s : db) (lg : league) (phase : string) (t : fantasy_team)
  : standing :=
  let roster := get_roster s (ft_id t) (Some phase) in
  let '(player_pts, star_bonus) := fold_left roster_step roster (0, 0) in
  let follow_pts := calculate_team_follow_points s (ft_id t) (l_tournament_id lg) in
  let adj_pts := get_total_adjustments s (ft_id t) in
  let total := round (player_pts + star_bonus + follow_pts + adj_pts) 2 in
  let followed := get_followed_team s (ft_id t) in
  {| st_team := t;
     st_player_pts := round player_pts 2;
     st_star_bonus := round star_bonus 2;
     st_follow_pts := round follow_pts 2;
     st_adj_pts := round adj_pts 2;
     st_total_points := total;
     st_player_count := Z.of_nat (length roster);
     st_phase := phase;
     st_followed_team := fo_team_name <$> followed |}.

(** [get_phase_standings(league_id, phase)]. *)
Definition get_phase_standings (s : db) (league_id : Z) (phase : string) : list standing :=
  match get_league s league_id with
  | None => []
  | Some lg =>
      let teams := get_teams_in_league s league_id in
      let standings := map (team_standing s lg phase) teams in
      sort_by (descending st_total_points) standings
  end.

Record overall : Type := {
  ov_team          : fantasy_team;
  ov_swiss_pts     : Q;
  ov_playoffs_pts  : Q;
  ov_total_points  : Q;
  ov_player_count  : Z;
  ov_followed_team : option string
}.

(** [{s["id"]: s for s in standings}]. *)
Definition by_team_id (standings : list standing) : gmap Z standing :=
  fold_left (fun m st => <[ft_id (st_team st) := st]> m) standings ∅.

(** [get_overall_standings(league_id)]. *)
Definition get_overall_standings (s : db) (league_id : Z) : list overall :=
  let swiss := by_team_id (get_phase_standings s league_id "swiss") in
  let playoffs := by_team_id (get_phase_standings s league_id "playoffs") in
  let teams := get_teams_in_league s league_id in
  let standings :=
    map (fun t =>
           let s_pts := from_option st_total_points 0 (swiss !! ft_id t) in
           let p_pts := from_option st_total_points 0 (playoffs !! ft_id t) in
           let total := round (s_pts + p_pts) 2 in
           {| ov_team := t;
              ov_swiss_pts := s_pts;
              ov_playoffs_pts := p_pts;
              ov_total_points := total;
              ov_player_count := from_option st_player_count 0%Z (swiss !! ft_id t);
              ov_followed_team := swiss !! ft_id t ≫= st_followed_team |})
        teams in
  sort_by (descending ov_total_points) standings.

(** ** Trades *)

Definition with_status (t : trade) (status : string) : trade :=
  {| tr_id := tr_id t; tr_league_id := tr_league_id t;
     tr_from_team_id := tr_from_team_id t; tr_to_team_id := tr_to_team_id t;
     tr_from_player_id := tr_from_player_id t; tr_to_player_id := tr_to_player_id t;
     tr_tournament_id := tr_tournament_id t; tr_status := status |}.

(** [SELECT role_slot, phase FROM fantasy_roster WHERE fantasy_team_id=?
    AND player_id=?] followed by [fetchone()]. *)
Definition roster_slot (roster : list roster_entry) (team_id : Z) (player_id : string)
  : option roster_entry :=
  fetchone (fun fr => (fr_fantasy_team_id fr =? team_id)%Z
                      && String.eqb (fr_player_id fr) player_id) roster.

(** [DELETE FROM fantasy_roster WHERE fantasy_team_id=? AND player_id=?]. *)
Definition delete_player_rows (team_id : Z) (player_id : string)
    (roster : list roster_entry) : list roster_entry :=
  List.filter (fun fr => negb ((fr_fantasy_team_id fr =? team_id)%Z
                               && String.eqb (fr_player_id fr) player_id)) roster.

(** The [if action == "accepted":] block of [resolve_trade] on the roster
    table.  An [IntegrityError] of an [INSERT] leaves the function; the
    connection is never committed, so nothing is written. *)
Definition swap_if_present (s : db) (t : trade) : result (list roster_entry * Z) :=
  let roster := fantasy_roster s in
  let from_slot := roster_slot roster (tr_from_team_id t) (tr_from_player_id t) in
  let to_slot := roster_slot roster (tr_to_team_id t) (tr_to_player_id t) in
  match from_slot, to_slot with
  | Some from_slot, Some to_slot =>
      let r1 := delete_player_rows (tr_from_team_id t) (tr_from_player_id t) roster in
      let r2 := delete_player_rows (tr_to_team_id t) (tr_to_player_id t) r1 in
      '(r3, seq3) ← insert_roster (fantasy_teams s) r2 (seq_fantasy_roster s)
                       (tr_from_team_id t) (tr_to_player_id t) (tr_tournament_id t)
                       (fr_role_slot from_slot) (fr_phase from_slot) 0;
      insert_roster (fantasy_teams s) r3 seq3
                    (tr_to_team_id t) (tr_from_player_id t) (tr_tournament_id t)
                    (fr_role_slot to_slot) (fr_phase to_slot) 0
  | _, _ => mret (roster, seq_fantasy_roster s)
  end.

(** [resolve_trade(trade_id, action)]: the committed database and the
    returned flag. *)
Definition resolve_trade (s : db) (trade_id : Z) (action : string) : result (db * bool) :=
  match fetchone (fun t => (tr_id t =? trade_id)%Z) (trades s) with
  | None => mret (s, false)
  | Some t =>
      if negb (String.eqb (tr_status t) "pending") then mret (s, false)
      else
        '(roster', seq') ←
          (if String.eqb action "accepted" then swap_if_present s t
           else mret (fantasy_roster s, seq_fantasy_roster s));
        let trades' :=
          map (fun t' => if (tr_id t' =? trade_id)%Z then with_status t' action else t')
              (trades s) in
        mret (set_trades (set_roster s roster' seq') trades', true)
  end.

(** ** Draft *)

(** The loop [while len(snake) < total_players * n:]; [fuel] bounds the
    number of iterations. *)
Fixpoint snake_loop (fuel : nat) (forward backward : list nat) (target : Z)
    (snake : list nat) (round_num : Z) : list nat :=
  match fuel with
  | O => snake
  | S fuel' =>
      if (Z.of_nat (length snake) <? target)%Z
      then snake_loop fuel' forward backward target
             (snake ++ (if (round_num mod 2 =? 0)%Z then forward else backward))
             (round_num + 1)%Z
      else snake
  end.

(** The index sequence [snake] of [create_draft_session] for [n] teams.
    Each iteration appends [n >= 1] indices, so [total_players * n]
    iterations are enough. *)
Definition snake_indices (n : nat) (total_players : Z) : list nat :=
  let forward := seq 0 n in
  let backward := rev (seq 0 n) in
  let target := (total_players * Z.of_nat n)%Z in
  py_slice_to (snake_loop (Z.to_nat target) forward backward target [] 0%Z) target.

(** [[team_ids[i] for i in snake]]. *)
Definition snake_team_ids (team_ids : list Z) (snake : list nat) : result (list Z) :=
  mapM (fun i => py_index team_ids (Z.of_nat i)) snake.

(** [create_draft_session(league_id, phase)]: the database and the new
    session id, or [None]. *)
Definition create_draft_session (s : db) (league_id : Z) (phase : string)
  : result (db * option Z) :=
  let teams := get_teams_in_league s league_id in
  match teams, get_league s league_id with
  | [], _ | _, None => mret (s, None)
  | _, Some _ =>
      let total_players := ruleset_total_players s league_id in
      let n := length teams in
      let snake := snake_indices n total_players in
      let team_ids := map ft_id teams in
      order ← snake_team_ids team_ids snake;
      let did := (seq_draft_sessions s + 1)%Z in
      let session :=
        {| ds_id := did; ds_league_id := league_id; ds_phase := phase;
           ds_status := "active"; ds_current_pick := 1;
           ds_total_picks := (total_players * Z.of_nat n)%Z;
           ds_snake_order := order |} in
      mret (set_drafts s (draft_sessions s ++ [session]) did, Some did)
  end.

Definition get_draft (s : db) (draft_id : Z) : option draft_session :=
  fetchone (fun d => (ds_id d =? draft_id)%Z) (draft_sessions s).

(** The row written by [advance_draft] for the session [draft]. *)
Definition advanced (draft : draft_session) : draft_session :=
  let new_pick := (ds_current_pick draft + 1)%Z in
  {| ds_id := ds_id draft; ds_league_id := ds_league_id draft;
     ds_phase := ds_phase draft;
     ds_status := if (ds_total_picks draft <? new_pick)%Z then "complete"
                  else ds_status draft;
     ds_current_pick := new_pick;
     ds_total_picks := ds_total_picks draft;
     ds_snake_order := ds_snake_order draft |}.

(** [advance_draft(draft_id)]. *)
Definition advance_draft (s : db) (draft_id : Z) : db :=
  match get_draft s draft_id with
  | None => s
  | Some draft =>
      set_drafts s
        (map (fun d => if (ds_id d =? draft_id)%Z then advanced draft else d)
             (draft_sessions s))
        (seq_draft_sessions s)
  end.

(** [get_current_drafter(draft_id)]; [Ok None] is Python's [None]. *)
Definition get_current_drafter (s : db) (draft_id : Z) : result (option Z) :=
  match get_draft s draft_id with
  | None => mret None
  | Some draft =>
      let order := ds_snake_order draft in
      let idx := (ds_current_pick draft - 1)%Z in
      if (Z.of_nat (length order) <=? idx)%Z then mret None
      else x ← py_index order idx; mret (Some x)
  end.

End Database.

(* ===================================================================== *)
(** * scraper.py: registration of roster stubs                           *)
(* ===================================================================== *)

Module Registrar.

Import Scraper Database.

(** A player-profile link found on a page, with the fields the scraper
    derives from it. *)
Record player_link : Type := {
  lk_player_id : string;
  lk_ign       : string;
  lk_team_full : string;
  lk_team_abbr : string;
  lk_vlr_url   : string;
  lk_region    : string
}.

Definition stub_of (tournament_id : Z) (l : player_link) : player_dict :=
  _make_player_stub (lk_player_id l) tournament_id (lk_ign l) (lk_team_full l)
                    (lk_team_abbr l) (lk_vlr_url l) (lk_region l).

(** The [try: ... except Exception: ...] around the lookup and the insert,
    shared by [_register] and the stub loop of [scrape_source]: returns the
    database and whether [upsert_player] completed. *)
Definition insert_if_absent (tournament_id : Z) (stub : player_dict) (s : db) : db * bool :=
  match select_fantasy_points s (pd_player_id stub) tournament_id with
  | None =>
      match upsert_player stub s with
      | Ok s' => (s', true)
      | Raise _ => (s, false)
      end
  | Some _ => (s, false)
  end.

(** The state of [scrape_event_rosters]: [seen_ids], [rosters] and the
    database. *)
Record roster_scrape : Type := {
  seen_ids : gset string;
  rosters  : gmap string (list player_dict);
  store    : db
}.

(** [player_dict["team"] or player_dict["team_abbr"] or "Unknown"]. *)
Definition team_key (d : player_dict) : string :=
  if str_truthy (pd_team d) then pd_team d
  else if str_truthy (pd_team_abbr d) then pd_team_abbr d
  else "Unknown".

(** [_register(player_dict)] inside [scrape_event_rosters(_, tournament_id)]. *)
Definition _register (tournament_id : Z) (st : roster_scrape) (player_dict : player_dict)
  : roster_scrape :=
  let pid := pd_player_id player_dict in
  if bool_decide (pid ∈ seen_ids st) then st
  else
    let team := team_key player_dict in
    {| seen_ids := {[pid]} ∪ seen_ids st;
       rosters := <[team := default [] (rosters st !! team) ++ [player_dict]]> (rosters st);
       store := fst (insert_if_absent tournament_id player_dict (store st)) |}.

(** The stubs registered by one approach of [scrape_event_rosters]. *)
Definition register_links (tournament_id : Z) (links : list player_link)
    (st : roster_scrape) : roster_scrape :=
  fold_left (fun st l => _register tournament_id st (stub_of tournament_id l)) links st.

(** The loop [for stub in stubs:] of [scrape_source], on the database and
    [stub_count]. *)
Definition register_match_stubs (tournament_id : Z) (links : list player_link)
    (s : db) (stub_count : Z) : db * Z :=
  fold_left
    (fun acc stub =>
       let '(s, stub_count) := acc in
       let '(s', inserted) := insert_if_absent tournament_id stub s in
       (s', if inserted then (stub_count + 1)%Z else stub_count))
    (map (stub_of tournament_id) links) (s, stub_count).

End Registrar.

(* ===================================================================== *)
(** * The specification's formulas                                       *)
(* ===================================================================== *)

(** The definitions of this module follow the words of the specification,
    not the code; the theorems below compare the two. *)
Module Spec.

Import Scraper Database.

(** Σ over a list. *)
Definition Qsum (l : list Q) : Q := fold_right Qplus 0 l.
Definition Zsum (l : list Z) : Z := fold_right Z.add 0%Z l.

Definition points_eq (a b : Q * Q * Q) : Prop :=
  a.1.1 == b.1.1 /\ a.1.2 == b.1.2 /\ a.2 == b.2.

(** ** §4.4 Points engine *)

Section Formula.

Variable p : Points.stats.
(** the deaths value that enters the formula *)
Variable deaths : Q.

Let kills := Points.kills p.
Let assists := Points.assists p.
Let acs := Points.acs p.
Let kast := Points.kast p.
Let adr := Points.adr p.
Let firstKills := Points.first_kills p.
Let firstDeaths := Points.first_deaths p.
Let rating := Points.rating p.

(** [kastFraction = kast/100] (0 if kast ≤ 0) *)
Definition kastFraction : Q := if Qle_bool kast 0 then 0 else kast / 100.

Definition base : Q :=
  kills * 4 + deaths * (-6) + assists * 1 + acs * (kastFraction / 5)
  + firstKills * 2 + firstDeaths * (-4) + adr * 0.2.

Definition kad : Q := (kills + assists) / deaths.
Definition kad_safe : Q := if Qle_bool kad 0 then 0.001 else kad.
Definition kastFraction_safe : Q :=
  if Qle_bool kastFraction 0 then 0.01 else kastFraction.

Definition duelistBonus : Q := acs / 10 + firstKills + 0.1 * firstDeaths.
Definition initiatorBonus : Q := assists + (assists / kad_safe) / kastFraction_safe.
Definition controllerBonus : Q := assists * 0.75 + (kast / 10) * kad.
Definition sentinelBonus : Q := acs / 10 + (adr / 100) / 1.5.

(** [(base, roleBonus, total)] for the role named [r]: base and bonus to
    4 decimals, total to 2. *)
Definition score (r : string) : Q * Q * Q :=
  let b := round base 4 in
  if String.eqb r "duelist" then
    (b, round duelistBonus 4, round (b + duelistBonus) 2)
  else if String.eqb r "initiator" then
    (b, round initiatorBonus 4, round (b + initiatorBonus) 2)
  else if String.eqb r "controller" then
    (b, round controllerBonus 4, round (b + controllerBonus) 2)
  else if String.eqb r "sentinel" then
    (b, round sentinelBonus 4, round (b + sentinelBonus) 2)
  else if String.eqb r "flex" then
    let total :=
      b + (duelistBonus + initiatorBonus + controllerBonus + sentinelBonus) / 4
      + rating * 10 * (kastFraction - 0.7) in
    (b, round (total - b) 4, round total 2)
  else
    (b, 0, round b 2).

End Formula.

(** The deaths value after the floor at 1 that the code applies to a
    zero. *)
Definition clamped_deaths (p : Points.stats) : Q :=
  if Qeq_bool (Points.deaths p) 0 then 1 else Points.deaths p.

(** The role that is scored: the argument when it is given and not empty,
    else the record's own role, else flex. *)
Definition scored_role (p : Points.stats) (role_arg : option string) : string :=
  match role_arg with
  | Some (String c r) => String c r
  | _ => match Points.role p with
         | Some r => r
         | None => "flex"%string
         end
  end.

(** ** §4.5 Aggregator *)

(** The points of one match under [role]; the engine never raises, so
    the default is never used. *)
Definition match_points (role : string) (r : match_row) : Q * Q * Q :=
  match Points.calculate_player_points (pdata role r) None with
  | Ok x => x
  | Raise _ => (0, 0, 0)
  end.

Definition rows_of (pid : string) (rows : list match_row) : list match_row :=
  List.filter (fun r => String.eqb (mr_player_id r) pid) rows.

Definition complete (rows : list match_row) : list match_row :=
  List.filter (fun r => (mr_stats_incomplete r =? 0)%Z) rows.

Definition role_of (rows : list match_row) : string :=
  match rows with
  | r :: _ => mr_role r
  | [] => "flex"%string
  end.

Definition average (l : list Q) : Q := Qsum l / inject_Z (Z.of_nat (length l)).

(** What the aggregator's row for a player must contain, given all the
    player's per-match records [mine]. *)
Record aggregates (mine : list match_row) (d : player_dict) : Prop := {
  ag_base    : pd_base_points d ==
               round (Qsum (map (fun r => (match_points (role_of mine) r).1.1)
                                (complete mine))) 4;
  ag_role    : pd_role_points d ==
               round (Qsum (map (fun r => (match_points (role_of mine) r).1.2)
                                (complete mine))) 4;
  ag_fantasy : pd_fantasy_points d ==
               round (Qsum (map (fun r => (match_points (role_of mine) r).2)
                                (complete mine))) 2;
  ag_matches : pd_matches_played d = Z.of_nat (length mine);
  ag_kills   : pd_kills d = Zsum (map mr_kills mine);
  ag_deaths  : pd_deaths d = Zsum (map mr_deaths mine);
  ag_assists : pd_assists d = Zsum (map mr_assists mine);
  ag_fk      : pd_first_kills d = Zsum (map mr_first_kills mine);
  ag_fd      : pd_first_deaths d = Zsum (map mr_first_deaths mine);
  ag_rating  : pd_rating d == round (average (map mr_rating mine)) 3;
  ag_acs     : pd_acs d == round (average (map mr_acs mine)) 2;
  ag_kast    : pd_kast d == round (average (map mr_kast mine)) 2;
  ag_adr     : pd_adr d == round (average (map mr_adr mine)) 2;
  ag_hs      : pd_headshot_pct d == round (average (map mr_headshot_pct mine)) 2
}.

(** Scoring once the summed and averaged statistics of a leaderboard row:
    what [recalculate_tournament_points] does with a [players] row when no
    per-match rows exist. *)
Definition stats_of_player (d : player_dict) : Points.stats := {|
  Points.role         := Some (pd_role d);
  Points.kills        := inject_Z (pd_kills d);
  Points.deaths       := inject_Z (pd_deaths d);
  Points.assists      := inject_Z (pd_assists d);
  Points.acs          := pd_acs d;
  Points.kast         := pd_kast d;
  Points.adr          := pd_adr d;
  Points.first_kills  := inject_Z (pd_first_kills d);
  Points.first_deaths := inject_Z (pd_first_deaths d);
  Points.rating       := pd_rating d
|}.

Definition sum_then_score (d : player_dict) : result (Q * Q * Q) :=
  Points.calculate_player_points (stats_of_player d) None.

(** ** §4.6 Standings composer *)

(** The roster entries of a team for a phase, each with its leaderboard
    row. *)
Definition phase_roster (s : db) (team_id : Z) (phase : string)
  : list (player_row * roster_entry) :=
  join_players s
    (List.filter (fun fr => (fr_fantasy_team_id fr =? team_id)%Z
                            && String.eqb (fr_phase fr) phase)
                 (fantasy_roster s)).

Definition pts (p : player_row * roster_entry) : Q :=
  pd_fantasy_points (pr_data p.1) + pr_manual_pts p.1.

Definition playerPts (s : db) (team_id : Z) (phase : string) : Q :=
  Qsum (map pts (phase_roster s team_id phase)).

Definition starBonus (s : db) (team_id : Z) (phase : string) : Q :=
  Qsum (map (fun p => 0.5 * pts p)
            (List.filter (fun p => negb (fr_is_star p.2 =? 0)%Z)
                         (phase_roster s team_id phase))).

(** +100 win / -75 loss for best-of-3, +75 win / -50 loss otherwise; a
    result that is not a win is a loss. *)
Definition result_points (r : match_result) : Q :=
  match String.eqb (res_format r) "bo3", String.eqb (res_result r) "win" with
  | true, true => 100
  | true, false => -75
  | false, true => 75
  | false, false => -50
  end.

Definition followed_results (s : db) (team_id tournament_id : Z) : list match_result :=
  match get_followed_team s team_id with
  | Some f =>
      List.filter (fun r => (res_tournament_id r =? tournament_id)%Z
                            && String.eqb (res_team_name r) (fo_team_name f))
                  (match_results s)
  | None => []
  end.

Definition followPts (s : db) (team_id tournament_id : Z) : Q :=
  Qsum (map result_points (followed_results s team_id tournament_id)).

Definition adjPts (s : db) (team_id : Z) : Q :=
  Qsum (map adj_amount
            (List.filter (fun a => (adj_fantasy_team_id a =? team_id)%Z)
                         (point_adjustments s))).

Definition phase_total (s : db) (lg : league) (phase : string) (t : fantasy_team) : Q :=
  round (playerPts s (ft_id t) phase + starBonus s (ft_id t) phase
         + followPts s (ft_id t) (l_tournament_id lg) + adjPts s (ft_id t)) 2.

(** Descending order, and ties in the order of [before]. *)
Definition ranked {A : Type} (total : A -> Q) (before after : list A) : Prop :=
  Permutation before after
  /\ StronglySorted (fun a b => total b <= total a) after
  /\ forall v : Q,
       List.filter (fun a => Qeq_bool (total a) v) after
       = List.filter (fun a => Qeq_bool (total a) v) before.

(** ** §4.7 Roster, draft and trade rules *)

Definition cell (fr : roster_entry) : Z * string * string :=
  (fr_fantasy_team_id fr, fr_player_id fr, fr_phase fr).

(** [UNIQUE(fantasy_team_id, player_id, phase)] *)
Definition unique_cells (roster : list roster_entry) : Prop :=
  NoDup (map cell roster).

Definition stars_of (team_id : Z) (phase : string) (roster : list roster_entry)
  : list roster_entry :=
  List.filter (fun fr => (fr_fantasy_team_id fr =? team_id)%Z
                         && String.eqb (fr_phase fr) phase
                         && negb (fr_is_star fr =? 0)%Z) roster.

Definition at_most_one_star (roster : list roster_entry) : Prop :=
  forall team_id phase, (length (stars_of team_id phase roster) <= 1)%nat.

Definition on_roster (team_id : Z) (player_id phase : string)
    (roster : list roster_entry) : bool :=
  existsb (same_cell team_id player_id phase) roster.

(** The operations that write the roster table. *)
Inductive roster_op : Type :=
| Add (team_id : Z) (player_id : string) (tournament_id : Z)
      (role_slot phase : string) (is_duplicate : Z)
| Remove (team_id : Z) (player_id : string) (phase : option string)
| SetStar (team_id : Z) (player_id phase : string)
| ClearStar (team_id : Z) (phase : string)
| TransitionToPlayoffs (league_id : Z) (kept : list (Z * string))
| ResolveTrade (trade_id : Z) (action : string)
| DeleteTeam (team_id : Z)
| DeleteLeague (league_id : Z)
| DeleteTournament (tournament_id : Z).

(** The database committed by an operation; an operation that raises
    commits nothing. *)
Definition run (s : db) (op : roster_op) : db :=
  match op with
  | Add t p tid slot ph dup => (add_player_to_roster s t p tid slot ph dup).1
  | Remove t p ph => remove_player_from_roster s t p ph
  | SetStar t p ph => set_star_player s t p ph
  | ClearStar t ph => clear_star_player s t ph
  | TransitionToPlayoffs l kept => transition_to_playoffs s l kept
  | ResolveTrade id action =>
      match resolve_trade s id action with
      | Ok (s', _) => s'
      | Raise _ => s
      end
  | DeleteTeam t => delete_fantasy_team s t
  | DeleteLeague l => delete_league s l
  | DeleteTournament t =>
      match delete_tournament s t with
      | Ok s' => s'
      | Raise _ => s
      end
  end.

(** The team index of pick number [k] (from 0) in a snake over [n] teams:
    forward on even rounds, backward on odd ones. *)
Definition snake_index (n k : nat) : nat :=
  if Nat.even (k / n) then (k mod n)%nat else (n - 1 - k mod n)%nat.

End Spec.

(* ===================================================================== *)
(** * Invariants used by the proofs                                      *)
(* ===================================================================== *)

Module Invariants.

Import Scraper Database.

(** The buckets of the rows [seen]: distinct player ids, each with
    exactly that player's rows, and a bucket for every row. *)
Definition grouped (seen : list match_row) (buckets : list (string * list match_row))
  : Prop :=
  NoDup (map fst buckets)
  /\ Forall (fun b => b.2 = Spec.rows_of b.1 seen /\ b.2 <> []) buckets
  /\ Forall (fun r => mr_player_id r ∈ map fst buckets) seen.

(** The two constraints on the roster table. *)
Definition roster_ok (roster : list roster_entry) : Prop :=
  Spec.unique_cells roster /\ Spec.at_most_one_star roster.

(** The indices appended by round [i] of the snake loop. *)
Definition snake_round (n i : nat) : list nat :=
  if Nat.even i then seq 0 n else rev (seq 0 n).

(** The indices of the first [j] rounds. *)
Fixpoint snake_rounds (n j : nat) : list nat :=
  match j with
  | O => []
  | S j' => snake_rounds n j' ++ snake_round n j'
  end.

End Invariants.

(* ===================================================================== *)
(** * Concrete inputs                                                    *)
(* ===================================================================== *)

Module Examples.

Import Scraper Database.

(** A duelist's match with no deaths. *)
Definition deathless : Points.stats := {|
  Points.role := Some "duelist"%string;
  Points.kills := 10; Points.deaths := 0; Points.assists := 4;
  Points.acs := 200; Points.kast := 70; Points.adr := 130;
  Points.first_kills := 2; Points.first_deaths := 1; Points.rating := 1.1
|}.

(** A duelist's ordinary match. *)
Definition duelist_match : Points.stats := {|
  Points.role := Some "duelist"%string;
  Points.kills := 20; Points.deaths := 10; Points.assists := 5;
  Points.acs := 250; Points.kast := 72; Points.adr := 150.5;
  Points.first_kills := 3; Points.first_deaths := 2; Points.rating := 1.2
|}.

(** A table row whose KAST cell reads [0.8]. *)
Definition fraction_cells : row_cells := {|
  c_ign := "aspas"; c_team_abbr := "MIBR"; c_player_id := "t1_8480_aspas";
  c_vlr_url := "https://www.vlr.gg/player/8480/aspas"; c_agent := "jett";
  c_region := "AMER"; c_rating := 1.2; c_acs := 250; c_kills := 20;
  c_deaths := Some 10%Z; c_assists := 5; c_kd_diff := 10;
  c_kast := Some ("0.8"%string, 0.8); c_adr := 150.5; c_first_kills := 3;
  c_first_deaths := 2; c_fk_diff := 1; c_headshot_pct := 25
|}.

(** Per-match rows of one player. *)
Definition match_row_of (match_id : string) (acs : Q) (kills deaths assists : Z)
    (kast adr : Q) (first_kills first_deaths : Z) (rating : Q)
    (stats_incomplete : Z) (missing_fields : string) : match_row := {|
  mr_player_id := "t1_8480_aspas"; mr_tournament_id := 1; mr_match_id := match_id;
  mr_match_url := "https://www.vlr.gg/" ++ match_id; mr_ign := "aspas";
  mr_team := "MIBR"; mr_team_abbr := "MIBR"; mr_region := "AMER";
  mr_role := "flex"; mr_agent := "jett"; mr_rating := rating; mr_acs := acs;
  mr_kills := kills; mr_deaths := deaths; mr_assists := assists;
  mr_kd_diff := (kills - deaths)%Z; mr_kast := kast; mr_adr := adr;
  mr_headshot_pct := 25; mr_first_kills := first_kills;
  mr_first_deaths := first_deaths; mr_fk_diff := (first_kills - first_deaths)%Z;
  mr_vlr_url := "https://www.vlr.gg/player/8480/aspas"; mr_match_team := "MIBR";
  mr_stats_incomplete := stats_incomplete; mr_missing_fields := missing_fields
|}.

(** A strong match and a weak one, both with complete statistics. *)
Definition strong_match : match_row :=
  match_row_of "101" 300 25 10 5 90 180 4 1 1.5 0 "".
Definition weak_match : match_row :=
  match_row_of "102" 150 10 18 3 55 95 1 4 0.7 0 "".

(** A match whose KAST and ADR cells were empty. *)
Definition incomplete_match : match_row :=
  match_row_of "103" 210 14 12 6 0 0 2 2 1.0 1 "kast,adr".

(** ** A small league *)

(** A leaderboard row with the given points; the other statistics do not
    matter to the standings. *)
Definition leaderboard_row (player_id : string) (fantasy_points manual_pts : Q)
  : player_row := {|
  pr_data := {|
    pd_player_id := player_id; pd_tournament_id := 1; pd_ign := player_id;
    pd_real_name := ""; pd_team := "MIBR"; pd_team_abbr := "MIBR";
    pd_country := ""; pd_region := "AMER"; pd_role := "flex"; pd_agent := "";
    pd_rounds_played := 1; pd_matches_played := 1; pd_rating := 1;
    pd_acs := 200; pd_kills := 15; pd_deaths := 12; pd_assists := 4;
    pd_kd_ratio := 1.25; pd_kast := 70; pd_adr := 130; pd_headshot_pct := 25;
    pd_first_kills := 2; pd_first_deaths := 2; pd_fk_fd_ratio := 1;
    pd_base_points := fantasy_points; pd_role_points := 0;
    pd_fantasy_points := fantasy_points; pd_vlr_url := ""
  |};
  pr_manual_pts := manual_pts
|}.

Definition entry (id team_id : Z) (player_id role_slot : string) (is_star : Z)
    (phase : string) : roster_entry := {|
  fr_id := id; fr_fantasy_team_id := team_id; fr_player_id := player_id;
  fr_tournament_id := 1; fr_role_slot := role_slot; fr_is_star := is_star;
  fr_is_duplicate := 0; fr_phase := phase
|}.

Definition the_league : league :=
  {| l_id := 1; l_tournament_id := 1; l_phase := "swiss"; l_total_players := Some 2%Z |}.

Definition team (id : Z) (name : string) : fantasy_team :=
  {| ft_id := id; ft_league_id := 1; ft_team_name := name; ft_manager_name := name |}.

(** Three teams.  Team 1 has a star worth 100 and a second player worth
    50 in the swiss phase and one player worth 120 in the playoffs; team 2
    has one swiss player worth 80 (75 scored, 5 added by hand) and follows
    MIBR, which won a best-of-3 and lost a best-of-1; team 3 has no player
    and a manual adjustment of 200.  Two trades are pending: the first
    between two rostered players, the second for a player who is on no
    roster. *)
Definition small_league : db := {|
  tournaments := [1%Z];
  match_tournaments := [];
  leagues := [the_league];
  fantasy_teams := [team 1 "Alpha"; team 2 "Bravo"; team 3 "Charlie"];
  players := list_to_map [
    (("p_a"%string, 1%Z), leaderboard_row "p_a" 100 0);
    (("p_b"%string, 1%Z), leaderboard_row "p_b" 50 0);
    (("p_c"%string, 1%Z), leaderboard_row "p_c" 75 5);
    (("p_d"%string, 1%Z), leaderboard_row "p_d" 120 0)
  ];
  fantasy_roster := [
    entry 1 1 "p_a" "duelist" 1 "swiss";
    entry 2 1 "p_b" "flex" 0 "swiss";
    entry 3 2 "p_c" "sentinel" 0 "swiss";
    entry 4 1 "p_d" "duelist" 0 "playoffs"
  ];
  seq_fantasy_roster := 4;
  followed_teams :=
    [{| fo_fantasy_team_id := 2; fo_team_name := "MIBR"; fo_team_region := "AMER" |}];
  match_results := [
    {| res_id := 1; res_tournament_id := 1; res_team_name := "MIBR";
       res_opponent := "LOUD"; res_result := "win"; res_format := "bo3" |};
    {| res_id := 2; res_tournament_id := 1; res_team_name := "MIBR";
       res_opponent := "NRG"; res_result := "loss"; res_format := "bo1" |};
    {| res_id := 3; res_tournament_id := 1; res_team_name := "LOUD";
       res_opponent := "MIBR"; res_result := "loss"; res_format := "bo3" |}
  ];
  point_adjustments :=
    [{| adj_id := 1; adj_fantasy_team_id := 3; adj_amount := 200 |}];
  trades := [
    {| tr_id := 1; tr_league_id := 1; tr_from_team_id := 1; tr_to_team_id := 2;
       tr_from_player_id := "p_a"; tr_to_player_id := "p_c"; tr_tournament_id := 1;
       tr_status := "pending" |};
    {| tr_id := 2; tr_league_id := 1; tr_from_team_id := 1; tr_to_team_id := 2;
       tr_from_player_id := "p_b"; tr_to_player_id := "p_x"; tr_tournament_id := 1;
       tr_status := "pending" |}
  ];
  draft_sessions := [];
  seq_draft_sessions := 0
|}.

(** Two player links found on a match page of tournament 1. *)
Definition found_links : list Registrar.player_link := [
  {| Registrar.lk_player_id := "p_a"; Registrar.lk_ign := "aspas"; Registrar.lk_team_full := "MIBR";
     Registrar.lk_team_abbr := "MIBR"; Registrar.lk_vlr_url := ""; Registrar.lk_region := "AMER" |};
  {| Registrar.lk_player_id := "p_z"; Registrar.lk_ign := "zekken"; Registrar.lk_team_full := "Sentinels";
     Registrar.lk_team_abbr := "SEN"; Registrar.lk_vlr_url := ""; Registrar.lk_region := "AMER" |}
].

End Examples.

(* ===================================================================== *)
(** * points.py: the per-role view                                       *)
(* ===================================================================== *)

Module PointsViews.

Import Points.

(** [apply_star_multiplier(points)]. *)
Definition apply_star_multiplier (points : Q) : Q := round (points * 1.5) 2.

(** The tuple that the loop of [all_role_points] runs over. *)
Definition role_names : list string :=
  ["duelist"; "initiator"; "controller"; "sentinel"; "flex"]%string.

(** [all_role_points(p)]: the dictionary as the list of its items, in
    insertion order. *)
Definition all_role_points (p : stats) : result (list (string * Q)) :=
  mapM (fun role =>
          '(_, _, total) ← calculate_player_points p (Some role);
          mret (role, total))
       role_names.

End PointsViews.

(* ===================================================================== *)
(** * scraper.py: region of a team                                       *)
(* ===================================================================== *)

Module Regions.

(** [TEAM_REGION_MAP], in the order of the dictionary literal. *)
Definition TEAM_REGION_MAP : list (string * string) := [
  ("fnatic", "EMEA"); ("natus vincere", "EMEA"); ("navi", "EMEA");
  ("team liquid", "EMEA"); ("liquid", "EMEA"); ("bbl", "EMEA");
  ("karmine corp", "EMEA"); ("kc", "EMEA"); ("gentle mates", "EMEA");
  ("gm", "EMEA"); ("team heretics", "EMEA"); ("heretics", "EMEA");
  ("fut esports", "EMEA"); ("fut", "EMEA"); ("apeks", "EMEA");
  ("nip", "EMEA"); ("ninjas in pyjamas", "EMEA");
  ("vitality", "EMEA"); ("m8", "EMEA"); ("loud emea", "EMEA");
  ("sentinels", "AMER"); ("sen", "AMER"); ("cloud9", "AMER"); ("c9", "AMER");
  ("100 thieves", "AMER"); ("100t", "AMER"); ("nrg", "AMER");
  ("evil geniuses", "AMER"); ("eg", "AMER"); ("furia", "AMER");
  ("mibr", "AMER"); ("leviatán", "AMER"); ("leviatan", "AMER");
  ("loud", "AMER"); ("kru esports", "AMER"); ("kru", "AMER");
  ("2game esports", "AMER");
  ("paper rex", "APAC"); ("prx", "APAC"); ("rex regum qeon", "APAC");
  ("rrq", "APAC"); ("drx", "APAC"); ("global esports", "APAC");
  ("ge", "APAC"); ("team secret", "APAC"); ("nongshim redforce", "APAC");
  ("ns", "APAC"); ("t1", "APAC"); ("gen.g", "APAC"); ("geng", "APAC");
  ("talon esports", "APAC"); ("talon", "APAC"); ("zeta division", "APAC");
  ("bleed esports", "APAC");
  ("edg", "CN"); ("edward gaming", "CN"); ("blg", "CN"); ("bilibili gaming", "CN");
  ("te", "CN"); ("thunderbird esports", "CN"); ("wolves", "CN");
  ("nova esports", "CN"); ("fpx", "CN"); ("funplus phoenix", "CN");
  ("tes", "CN"); ("top esports", "CN")
]%string.

(** [k in low] on strings: [k] occurs in [low] as a substring. *)
Fixpoint contains (k low : string) : bool :=
  String.prefix k low
  || match low with
     | EmptyString => false
     | String _ rest => contains k rest
     end.

(** [infer_region(team_name, source_region)], given [low], the value of
    [team_name.lower()]: the first key of the table, in its order, that
    occurs in [low] decides. *)
Definition infer_region (low source_region : string) : string :=
  if str_truthy source_region then source_region
  else from_option snd ""%string
         (List.find (fun kv => contains (fst kv) low) TEAM_REGION_MAP).

End Regions.

(* ===================================================================== *)
(** * scraper.py: the players of a match page                            *)
(* ===================================================================== *)

Module MatchPage.

Import Scraper.

Definition with_match_team (p : match_row) (team : string) : match_row := {|
  mr_player_id := mr_player_id p; mr_tournament_id := mr_tournament_id p;
  mr_match_id := mr_match_id p; mr_match_url := mr_match_url p;
  mr_ign := mr_ign p; mr_team := mr_team p; mr_team_abbr := mr_team_abbr p;
  mr_region := mr_region p; mr_role := mr_role p; mr_agent := mr_agent p;
  mr_rating := mr_rating p; mr_acs := mr_acs p; mr_kills := mr_kills p;
  mr_deaths := mr_deaths p; mr_assists := mr_assists p;
  mr_kd_diff := mr_kd_diff p; mr_kast := mr_kast p; mr_adr := mr_adr p;
  mr_headshot_pct := mr_headshot_pct p; mr_first_kills := mr_first_kills p;
  mr_first_deaths := mr_first_deaths p; mr_fk_diff := mr_fk_diff p;
  mr_vlr_url := mr_vlr_url p; mr_match_team := team;
  mr_stats_incomplete := mr_stats_incomplete p;
  mr_missing_fields := mr_missing_fields p
|}.

(** [for row in ...: p = _parse_row_by_class(...); if p: players.append(p)]. *)
Definition parse_rows (rows : list row_cells) (match_id match_url : string)
    (tournament_id : Z) : list match_row :=
  omap (fun row => _parse_row_by_class row match_id match_url tournament_id) rows.

(** [_parse_power_query_style]: [rows] are the [<tr>] elements that the
    fallback selector finds. *)
Definition _parse_power_query_style (rows : list row_cells) (match_id match_url : string)
    (tournament_id : Z) : list match_row :=
  parse_rows rows match_id match_url tournament_id.

(** [team_by_tbody.get(i, "")]. *)
Definition team_by_tbody (team_a team_b : string) (i : nat) : string :=
  match i with
  | O => team_a
  | S O => team_b
  | _ => ""%string
  end.

(** The loop over the [tbody] elements of the all-maps section. *)
Definition primary_players (tbodies : list (list row_cells)) (team_a team_b : string)
    (match_id match_url : string) (tournament_id : Z) : list match_row :=
  concat (imap (fun i tbody =>
                  map (fun p => with_match_team p (team_by_tbody team_a team_b i))
                      (parse_rows tbody match_id match_url tournament_id))
               tbodies).

(** The fallback assignment by position: [mid = len(players) // 2]. *)
Definition assign_by_position (players : list match_row) (team_a team_b : string)
  : list match_row :=
  let mid := (Z.of_nat (length players) / 2)%Z in
  imap (fun i p => with_match_team p (if (Z.of_nat i <? mid)%Z then team_a else team_b))
       players.

(** The [players] list of [scrape_match_page].  [active_section] is [None]
    when the page has no all-maps section, otherwise the rows of its
    [tbody] elements; [fallback_rows] are the rows of the fallback
    selector. *)
Definition match_players (active_section : option (list (list row_cells)))
    (fallback_rows : list row_cells) (team_a team_b match_id match_url : string)
    (tournament_id : Z) : list match_row :=
  let players :=
    match active_section with
    | Some tbodies => primary_players tbodies team_a team_b match_id match_url tournament_id
    | None => []
    end in
  match players with
  | [] =>
      assign_by_position
        (_parse_power_query_style fallback_rows match_id match_url tournament_id)
        team_a team_b
  | _ => players
  end.

End MatchPage.

(* ===================================================================== *)
(** * database.py: the remaining tables                                  *)
(* ===================================================================== *)

Module Tables.

Import Scraper Database.

(** The dictionary that [scrape_source] hands to [upsert_match]. *)
Record match_info : Type := {
  mi_match_id     : string;
  mi_tournament_id : Z;
  mi_source_id    : Z;
  mi_match_url    : string;
  mi_team_a       : string;
  mi_team_b       : string;
  mi_score_a      : Z;
  mi_score_b      : Z;
  mi_map_count    : Z;
  mi_match_format : string;
  mi_status       : string
}.

(** A row of [matches]. *)
Record match_entry : Type := {
  m_id            : Z;
  m_match_id      : string;
  m_tournament_id : Z;
  m_source_id     : Z;
  m_match_url     : string;
  m_team_a        : string;
  m_team_b        : string;
  m_score_a       : Z;
  m_score_b       : Z;
  m_map_count     : Z;
  m_match_format  : string;
  m_status        : string
}.

(** A row of [match_player_stats]: its [id] and the columns of the
    per-match dictionary. *)
Record stat_row : Type := {
  sr_id   : Z;
  sr_data : match_row
}.

(** A row of [player_adjustments]. *)
Record player_adjustment : Type := {
  pa_id            : Z;
  pa_player_id     : string;
  pa_tournament_id : Z;
  pa_delta         : Q
}.

(** The whole database: the tables of [Database.db], the three tables
    above, and the AUTOINCREMENT counters of every table that the
    functions of this module insert into. *)
Record site : Type := {
  core                   : db;
  seq_match_results      : Z;
  seq_point_adjustments  : Z;
  seq_trades             : Z;
  matches                : list match_entry;
  seq_matches            : Z;
  match_player_stats     : list stat_row;
  seq_match_player_stats : Z;
  player_adjustments     : list player_adjustment;
  seq_player_adjustments : Z
}.

Definition with_core (a : site) (s : db) : site :=
  {| core := s;
     seq_match_results := seq_match_results a;
     seq_point_adjustments := seq_point_adjustments a;
     seq_trades := seq_trades a;
     matches := matches a; seq_matches := seq_matches a;
     match_player_stats := match_player_stats a;
     seq_match_player_stats := seq_match_player_stats a;
     player_adjustments := player_adjustments a;
     seq_player_adjustments := seq_player_adjustments a |}.

Definition set_match_tournaments (s : db) (l : list Z) : db :=
  {| tournaments := tournaments s; match_tournaments := l;
     leagues := leagues s;
     fantasy_teams := fantasy_teams s; players := players s;
     fantasy_roster := fantasy_roster s;
     seq_fantasy_roster := seq_fantasy_roster s;
     followed_teams := followed_teams s; match_results := match_results s;
     point_adjustments := point_adjustments s; trades := trades s;
     draft_sessions := draft_sessions s;
     seq_draft_sessions := seq_draft_sessions s |}.

Definition set_followed (s : db) (l : list followed_team) : db :=
  {| tournaments := tournaments s; match_tournaments := match_tournaments s;
     leagues := leagues s;
     fantasy_teams := fantasy_teams s; players := players s;
     fantasy_roster := fantasy_roster s;
     seq_fantasy_roster := seq_fantasy_roster s;
     followed_teams := l; match_results := match_results s;
     point_adjustments := point_adjustments s; trades := trades s;
     draft_sessions := draft_sessions s;
     seq_draft_sessions := seq_draft_sessions s |}.

Definition set_results (s : db) (l : list match_result) : db :=
  {| tournaments := tournaments s; match_tournaments := match_tournaments s;
     leagues := leagues s;
     fantasy_teams := fantasy_teams s; players := players s;
     fantasy_roster := fantasy_roster s;
     seq_fantasy_roster := seq_fantasy_roster s;
     followed_teams := followed_teams s; match_results := l;
     point_adjustments := point_adjustments s; trades := trades s;
     draft_sessions := draft_sessions s;
     seq_draft_sessions := seq_draft_sessions s |}.

Definition set_adjustments (s : db) (l : list point_adjustment) : db :=
  {| tournaments := tournaments s; match_tournaments := match_tournaments s;
     leagues := leagues s;
     fantasy_teams := fantasy_teams s; players := players s;
     fantasy_roster := fantasy_roster s;
     seq_fantasy_roster := seq_fantasy_roster s;
     followed_teams := followed_teams s; match_results := match_results s;
     point_adjustments := l; trades := trades s;
     draft_sessions := draft_sessions s;
     seq_draft_sessions := seq_draft_sessions s |}.

(** ** Matches and per-match statistics *)

Definition tournament_exists (s : db) (tournament_id : Z) : bool :=
  existsb (Z.eqb tournament_id) (tournaments s).

(** The row left by the [DO UPDATE] branch of [upsert_match]. *)
Definition refreshed_match (m : match_entry) (data : match_info) : match_entry :=
  {| m_id := m_id m; m_match_id := m_match_id m;
     m_tournament_id := m_tournament_id m; m_source_id := m_source_id m;
     m_match_url := mi_match_url data;
     m_team_a := mi_team_a data; m_team_b := mi_team_b data;
     m_score_a := m_score_a m; m_score_b := m_score_b m;
     m_map_count := m_map_count m; m_match_format := m_match_format m;
     m_status := m_status m |}.

(** The row inserted by [upsert_match]: the six named columns come from
    [data], every other column takes the default of the schema. *)
Definition inserted_match (id : Z) (data : match_info) : match_entry :=
  {| m_id := id; m_match_id := mi_match_id data;
     m_tournament_id := mi_tournament_id data; m_source_id := mi_source_id data;
     m_match_url := mi_match_url data;
     m_team_a := mi_team_a data; m_team_b := mi_team_b data;
     m_score_a := 0; m_score_b := 0; m_map_count := 0;
     m_match_format := ""; m_status := "completed" |}.

Definition same_match (data : match_info) (m : match_entry) : bool :=
  String.eqb (m_match_id m) (mi_match_id data)
  && (m_tournament_id m =? mi_tournament_id data)%Z.

(** [upsert_match(data)]: [UNIQUE(match_id, tournament_id)] decides
    between the [INSERT] and the [DO UPDATE]; the foreign key on
    [tournament_id] is checked for the inserted row.  The statement
    draws a new [id] from the AUTOINCREMENT counter before the conflict
    is found, so the counter advances in the [DO UPDATE] branch too; the
    [scraped_at] column, which the [DO UPDATE] sets to the current time,
    is not held. *)
Definition upsert_match (data : match_info) (a : site) : result site :=
  if existsb (same_match data) (matches a) then
    Ok {| core := core a;
          seq_match_results := seq_match_results a;
          seq_point_adjustments := seq_point_adjustments a;
          seq_trades := seq_trades a;
          matches := map (fun m => if same_match data m then refreshed_match m data else m)
                         (matches a);
          seq_matches := seq_matches a + 1;
          match_player_stats := match_player_stats a;
          seq_match_player_stats := seq_match_player_stats a;
          player_adjustments := player_adjustments a;
          seq_player_adjustments := seq_player_adjustments a |}
  else if tournament_exists (core a) (mi_tournament_id data) then
    let id := (seq_matches a + 1)%Z in
    Ok {| core := set_match_tournaments (core a)
                    (match_tournaments (core a) ++ [mi_tournament_id data]);
          seq_match_results := seq_match_results a;
          seq_point_adjustments := seq_point_adjustments a;
          seq_trades := seq_trades a;
          matches := matches a ++ [inserted_match id data];
          seq_matches := id;
          match_player_stats := match_player_stats a;
          seq_match_player_stats := seq_match_player_stats a;
          player_adjustments := player_adjustments a;
          seq_player_adjustments := seq_player_adjustments a |}
  else Raise IntegrityError.

(** The row left by the [DO UPDATE] branch of
    [upsert_match_player_stats]: the statistics, [match_team] and the
    two completeness columns come from [d]; the identity columns, [role]
    and [agent] stay. *)
Definition refreshed_stats (old d : match_row) : match_row := {|
  mr_player_id := mr_player_id old; mr_tournament_id := mr_tournament_id old;
  mr_match_id := mr_match_id old; mr_match_url := mr_match_url old;
  mr_ign := mr_ign old; mr_team := mr_team old; mr_team_abbr := mr_team_abbr old;
  mr_region := mr_region old; mr_role := mr_role old; mr_agent := mr_agent old;
  mr_rating := mr_rating d; mr_acs := mr_acs d; mr_kills := mr_kills d;
  mr_deaths := mr_deaths d; mr_assists := mr_assists d;
  mr_kd_diff := mr_kd_diff d; mr_kast := mr_kast d; mr_adr := mr_adr d;
  mr_headshot_pct := mr_headshot_pct d; mr_first_kills := mr_first_kills d;
  mr_first_deaths := mr_first_deaths d; mr_fk_diff := mr_fk_diff d;
  mr_vlr_url := mr_vlr_url old; mr_match_team := mr_match_team d;
  mr_stats_incomplete := mr_stats_incomplete d;
  mr_missing_fields := mr_missing_fields d
|}.

Definition same_stat (player_id match_id : string) (r : stat_row) : bool :=
  String.eqb (mr_player_id (sr_data r)) player_id
  && String.eqb (mr_match_id (sr_data r)) match_id.

(** [upsert_match_player_stats(data)]: [UNIQUE(player_id, match_id)];
    the counter advances in both branches, and [scraped_at] is not
    held, as for [upsert_match]. *)
Definition upsert_match_player_stats (data : match_row) (a : site) : result site :=
  let hit := same_stat (mr_player_id data) (mr_match_id data) in
  if existsb hit (match_player_stats a) then
    Ok {| core := core a;
          seq_match_results := seq_match_results a;
          seq_point_adjustments := seq_point_adjustments a;
          seq_trades := seq_trades a;
          matches := matches a; seq_matches := seq_matches a;
          match_player_stats :=
            map (fun r => if hit r
                          then {| sr_id := sr_id r;
                                  sr_data := refreshed_stats (sr_data r) data |}
                          else r)
                (match_player_stats a);
          seq_match_player_stats := seq_match_player_stats a + 1;
          player_adjustments := player_adjustments a;
          seq_player_adjustments := seq_player_adjustments a |}
  else if tournament_exists (core a) (mr_tournament_id data) then
    let id := (seq_match_player_stats a + 1)%Z in
    Ok {| core := set_match_tournaments (core a)
                    (match_tournaments (core a) ++ [mr_tournament_id data]);
          seq_match_results := seq_match_results a;
          seq_point_adjustments := seq_point_adjustments a;
          seq_trades := seq_trades a;
          matches := matches a; seq_matches := seq_matches a;
          match_player_stats :=
            match_player_stats a ++ [{| sr_id := id; sr_data := data |}];
          seq_match_player_stats := id;
          player_adjustments := player_adjustments a;
          seq_player_adjustments := seq_player_adjustments a |}
  else Raise IntegrityError.

(** [SELECT * FROM match_player_stats WHERE tournament_id = ?], in table
    order. *)
Definition raw_rows (a : site) (tournament_id : Z) : list match_row :=
  List.filter (fun r => (mr_tournament_id r =? tournament_id)%Z)
              (map sr_data (match_player_stats a)).

(** [get_matches(tournament_id)]: [ORDER BY id DESC]. *)
Definition get_matches (a : site) (tournament_id : Z) : list match_entry :=
  rev (List.filter (fun m => (m_tournament_id m =? tournament_id)%Z) (matches a)).

(** [delete_match_data(tournament_id)]. *)
Definition delete_match_data (a : site) (tournament_id : Z) : site :=
  let s := core a in
  {| core :=
       set_match_tournaments
         (set_players s (filter (fun kv => kv.1.2 <> tournament_id) (players s)))
         (List.filter (fun t => negb (t =? tournament_id)%Z) (match_tournaments s));
     seq_match_results := seq_match_results a;
     seq_point_adjustments := seq_point_adjustments a;
     seq_trades := seq_trades a;
     matches :=
       List.filter (fun m => negb (m_tournament_id m =? tournament_id)%Z) (matches a);
     seq_matches := seq_matches a;
     match_player_stats :=
       List.filter (fun r => negb (mr_tournament_id (sr_data r) =? tournament_id)%Z)
                   (match_player_stats a);
     seq_match_player_stats := seq_match_player_stats a;
     player_adjustments := player_adjustments a;
     seq_player_adjustments := seq_player_adjustments a |}.

(** ** Points written back to the leaderboard *)

Definition with_points (d : player_dict) (base role_pts total : Q) : player_dict := {|
  pd_player_id := pd_player_id d; pd_tournament_id := pd_tournament_id d;
  pd_ign := pd_ign d; pd_real_name := pd_real_name d; pd_team := pd_team d;
  pd_team_abbr := pd_team_abbr d; pd_country := pd_country d;
  pd_region := pd_region d; pd_role := pd_role d; pd_agent := pd_agent d;
  pd_rounds_played := pd_rounds_played d; pd_matches_played := pd_matches_played d;
  pd_rating := pd_rating d; pd_acs := pd_acs d; pd_kills := pd_kills d;
  pd_deaths := pd_deaths d; pd_assists := pd_assists d;
  pd_kd_ratio := pd_kd_ratio d; pd_kast := pd_kast d; pd_adr := pd_adr d;
  pd_headshot_pct := pd_headshot_pct d; pd_first_kills := pd_first_kills d;
  pd_first_deaths := pd_first_deaths d; pd_fk_fd_ratio := pd_fk_fd_ratio d;
  pd_base_points := base; pd_role_points := role_pts;
  pd_fantasy_points := total; pd_vlr_url := pd_vlr_url d
|}.

Definition with_role (d : player_dict) (role : string) : player_dict := {|
  pd_player_id := pd_player_id d; pd_tournament_id := pd_tournament_id d;
  pd_ign := pd_ign d; pd_real_name := pd_real_name d; pd_team := pd_team d;
  pd_team_abbr := pd_team_abbr d; pd_country := pd_country d;
  pd_region := pd_region d; pd_role := role; pd_agent := pd_agent d;
  pd_rounds_played := pd_rounds_played d; pd_matches_played := pd_matches_played d;
  pd_rating := pd_rating d; pd_acs := pd_acs d; pd_kills := pd_kills d;
  pd_deaths := pd_deaths d; pd_assists := pd_assists d;
  pd_kd_ratio := pd_kd_ratio d; pd_kast := pd_kast d; pd_adr := pd_adr d;
  pd_headshot_pct := pd_headshot_pct d; pd_first_kills := pd_first_kills d;
  pd_first_deaths := pd_first_deaths d; pd_fk_fd_ratio := pd_fk_fd_ratio d;
  pd_base_points := pd_base_points d; pd_role_points := pd_role_points d;
  pd_fantasy_points := pd_fantasy_points d; pd_vlr_url := pd_vlr_url d
|}.

(** [UPDATE players SET base_points=?, role_points=?, fantasy_points=?
    WHERE player_id=? AND tournament_id=?]. *)
Definition update_points (m : gmap (string * Z) player_row) (player_id : string)
    (tournament_id : Z) (base role_pts total : Q) : gmap (string * Z) player_row :=
  alter (fun row => {| pr_data := with_points (pr_data row) base role_pts total;
                       pr_manual_pts := pr_manual_pts row |})
        (player_id, tournament_id) m.

(** The loop [for r in rows:] of [recalculate_tournament_points]: every
    row is scored. *)
Fixpoint score_rows (role : string) (rows : list match_row) (acc : Q * Q * Q)
  : result (Q * Q * Q) :=
  match rows with
  | [] => mret acc
  | r :: rest =>
      let '(total_base, total_role, total_pts) := acc in
      '(bp, rp, tp) ← Points.calculate_player_points (pdata role r) None;
      score_rows role rest (total_base + bp, total_role + rp, total_pts + tp)
  end.

(** [player_roles.get(pid, "flex")], the roles being those of the
    [players] rows of the tournament. *)
Definition player_role (m : gmap (string * Z) player_row) (pid : string)
    (tournament_id : Z) : string :=
  from_option (fun row => pd_role (pr_data row)) "flex"%string
              (m !! (pid, tournament_id)).

(** The loop [for pid, rows in buckets.items():]; [roles] is the
    [players] table as it was read before the loop. *)
Fixpoint recalculate_buckets (roles : gmap (string * Z) player_row)
    (tournament_id : Z) (buckets : list (string * list match_row))
    (m : gmap (string * Z) player_row) : result (gmap (string * Z) player_row) :=
  match buckets with
  | [] => mret m
  | (pid, rows) :: rest =>
      let role := player_role roles pid tournament_id in
      '(total_base, total_role, total_pts) ← score_rows role rows (0, 0, 0);
      recalculate_buckets roles tournament_id rest
        (update_points m pid tournament_id
           (round total_base 4) (round total_role 4) (round total_pts 2))
  end.

(** The statistics that the engine reads from [dict(row)], [row] a row of
    [players]. *)
Definition row_stats (d : player_dict) : Points.stats := {|
  Points.role         := Some (pd_role d);
  Points.kills        := inject_Z (pd_kills d);
  Points.deaths       := inject_Z (pd_deaths d);
  Points.assists      := inject_Z (pd_assists d);
  Points.acs          := pd_acs d;
  Points.kast         := pd_kast d;
  Points.adr          := pd_adr d;
  Points.first_kills  := inject_Z (pd_first_kills d);
  Points.first_deaths := inject_Z (pd_first_deaths d);
  Points.rating       := pd_rating d
|}.

(** The fallback loop [for row in rows:] over the [players] rows of the
    tournament, each scored once on its aggregated statistics; a row is
    given with its primary key. *)
Fixpoint recalculate_aggregates (tournament_id : Z)
    (rows : list (string * Z * player_row))
    (m : gmap (string * Z) player_row) : result (gmap (string * Z) player_row) :=
  match rows with
  | [] => mret m
  | (key, row) :: rest =>
      '(base, role_pts, total) ← Points.calculate_player_points (row_stats (pr_data row)) None;
      recalculate_aggregates tournament_id rest
        (update_points m (fst key) tournament_id base role_pts total)
  end.

(** [recalculate_tournament_points(tournament_id)].  Every [UPDATE] is
    committed on its own; the engine never raises, so the state left by
    a run that fails half-way is not represented. *)
Definition recalculate_tournament_points (a : site) (tournament_id : Z) : result site :=
  let s := core a in
  let raw := raw_rows a tournament_id in
  m ← match raw with
      | [] =>
          recalculate_aggregates tournament_id
            (map_to_list (filter (fun kv => kv.1.2 = tournament_id) (players s)))
            (players s)
      | _ =>
          recalculate_buckets (players s) tournament_id (group_rows raw) (players s)
      end;
  mret (with_core a (set_players s m)).

(** ** Roles *)

(** [update_player_role(player_id, tournament_id, role)]. *)
Definition update_player_role (s : db) (player_id : string) (tournament_id : Z)
    (role : string) : db :=
  set_players s
    (alter (fun row => {| pr_data := with_role (pr_data row) role;
                          pr_manual_pts := pr_manual_pts row |})
           (player_id, tournament_id) (players s)).

(** [get_player(player_id, tournament_id)]. *)
Definition get_player (s : db) (player_id : string) (tournament_id : Z)
  : option player_row :=
  players s !! (player_id, tournament_id).

(** ** Followed teams, match results, team adjustments *)

(** [set_followed_team(fantasy_team_id, team_name, team_region)]:
    [ON CONFLICT(fantasy_team_id) DO UPDATE]; the foreign key on
    [fantasy_team_id] is checked for the inserted row. *)
Definition set_followed_team (s : db) (fantasy_team_id : Z)
    (team_name team_region : string) : result db :=
  let hit f := (fo_fantasy_team_id f =? fantasy_team_id)%Z in
  let row := {| fo_fantasy_team_id := fantasy_team_id; fo_team_name := team_name;
                fo_team_region := team_region |} in
  if existsb hit (followed_teams s) then
    Ok (set_followed s (map (fun f => if hit f then row else f) (followed_teams s)))
  else if existsb (fun t => (ft_id t =? fantasy_team_id)%Z) (fantasy_teams s) then
    Ok (set_followed s (followed_teams s ++ [row]))
  else Raise IntegrityError.

(** [remove_followed_team(fantasy_team_id)]. *)
Definition remove_followed_team (s : db) (fantasy_team_id : Z) : db :=
  set_followed s
    (List.filter (fun f => negb (fo_fantasy_team_id f =? fantasy_team_id)%Z)
                 (followed_teams s)).

(** [add_match_result(tournament_id, team_name, opponent, result, fmt)]. *)
Definition add_match_result (a : site) (tournament_id : Z)
    (team_name opponent result fmt : string) : Py.result site :=
  if tournament_exists (core a) tournament_id then
    let id := (seq_match_results a + 1)%Z in
    Ok {| core := set_results (core a)
                    (match_results (core a)
                     ++ [{| res_id := id; res_tournament_id := tournament_id;
                            res_team_name := team_name; res_opponent := opponent;
                            res_result := result; res_format := fmt |}]);
          seq_match_results := id;
          seq_point_adjustments := seq_point_adjustments a;
          seq_trades := seq_trades a;
          matches := matches a; seq_matches := seq_matches a;
          match_player_stats := match_player_stats a;
          seq_match_player_stats := seq_match_player_stats a;
          player_adjustments := player_adjustments a;
          seq_player_adjustments := seq_player_adjustments a |}
  else Raise IntegrityError.

(** [delete_match_result(result_id)]. *)
Definition delete_match_result (s : db) (result_id : Z) : db :=
  set_results s (List.filter (fun r => negb (res_id r =? result_id)%Z) (match_results s)).

(** [add_point_adjustment(fantasy_team_id, amount, reason)]. *)
Definition add_point_adjustment (a : site) (fantasy_team_id : Z) (amount : Q)
  : result site :=
  if existsb (fun t => (ft_id t =? fantasy_team_id)%Z) (fantasy_teams (core a)) then
    let id := (seq_point_adjustments a + 1)%Z in
    Ok {| core := set_adjustments (core a)
                    (point_adjustments (core a)
                     ++ [{| adj_id := id; adj_fantasy_team_id := fantasy_team_id;
                            adj_amount := amount |}]);
          seq_match_results := seq_match_results a;
          seq_point_adjustments := id;
          seq_trades := seq_trades a;
          matches := matches a; seq_matches := seq_matches a;
          match_player_stats := match_player_stats a;
          seq_match_player_stats := seq_match_player_stats a;
          player_adjustments := player_adjustments a;
          seq_player_adjustments := seq_player_adjustments a |}
  else Raise IntegrityError.

(** [delete_adjustment(adjustment_id)]. *)
Definition delete_adjustment (s : db) (adjustment_id : Z) : db :=
  set_adjustments s
    (List.filter (fun x => negb (adj_id x =? adjustment_id)%Z) (point_adjustments s)).

(** ** Standings of the current phase *)

(** A row of [get_league_standings]: the row of [get_phase_standings]
    without the ["phase"] key. *)
Record league_standing : Type := {
  ls_team          : fantasy_team;
  ls_player_pts    : Q;
  ls_star_bonus    : Q;
  ls_follow_pts    : Q;
  ls_adj_pts       : Q;
  ls_total_points  : Q;
  ls_player_count  : Z;
  ls_followed_team : option string
}.

(** The body of [for t in teams:] of [get_league_standings]; its inner
    loop is the one of [get_phase_standings]. *)
Definition league_team_standing (s : db) (lg : league) (t : fantasy_team)
  : league_standing :=
  let phase := l_phase lg in
  let roster := get_roster s (ft_id t) (Some phase) in
  let '(player_pts, star_bonus) := fold_left roster_step roster (0, 0) in
  let follow_pts := calculate_team_follow_points s (ft_id t) (l_tournament_id lg) in
  let adj_pts := get_total_adjustments s (ft_id t) in
  let total := round (player_pts + star_bonus + follow_pts + adj_pts) 2 in
  let followed := get_followed_team s (ft_id t) in
  {| ls_team := t;
     ls_player_pts := round player_pts 2;
     ls_star_bonus := round star_bonus 2;
     ls_follow_pts := round follow_pts 2;
     ls_adj_pts := round adj_pts 2;
     ls_total_points := total;
     ls_player_count := Z.of_nat (length roster);
     ls_followed_team := fo_team_name <$> followed |}.

(** [get_league_standings(league_id)]. *)
Definition get_league_standings (s : db) (league_id : Z) : list league_standing :=
  match get_league s league_id with
  | None => []
  | Some lg =>
      let teams := get_teams_in_league s league_id in
      let standings := map (league_team_standing s lg) teams in
      sort_by (descending ls_total_points) standings
  end.

(** [update_league_phase(league_id, phase)]. *)
Definition update_league_phase (s : db) (league_id : Z) (phase : string) : db :=
  set_leagues s
    (map (fun l => if (l_id l =? league_id)%Z
                   then {| l_id := l_id l; l_tournament_id := l_tournament_id l;
                           l_phase := phase; l_total_players := l_total_players l |}
                   else l) (leagues s)).

(** ** Trades and drafts *)

(** [propose_trade(...)]: the new row is pending; returns its id. *)
Definition propose_trade (a : site) (league_id from_team_id to_team_id : Z)
    (from_player_id to_player_id : string) (tournament_id : Z) : result (site * Z) :=
  if existsb (fun l => (l_id l =? league_id)%Z) (leagues (core a)) then
    let id := (seq_trades a + 1)%Z in
    Ok ({| core := set_trades (core a)
                     (trades (core a)
                      ++ [{| tr_id := id; tr_league_id := league_id;
                             tr_from_team_id := from_team_id;
                             tr_to_team_id := to_team_id;
                             tr_from_player_id := from_player_id;
                             tr_to_player_id := to_player_id;
                             tr_tournament_id := tournament_id;
                             tr_status := "pending" |}]);
           seq_match_results := seq_match_results a;
           seq_point_adjustments := seq_point_adjustments a;
           seq_trades := id;
           matches := matches a; seq_matches := seq_matches a;
           match_player_stats := match_player_stats a;
           seq_match_player_stats := seq_match_player_stats a;
           player_adjustments := player_adjustments a;
           seq_player_adjustments := seq_player_adjustments a |}, id)
  else Raise IntegrityError.

(** [cancel_trade(trade_id)]: whatever the status was. *)
Definition cancel_trade (s : db) (trade_id : Z) : db :=
  set_trades s
    (map (fun t => if (tr_id t =? trade_id)%Z then with_status t "cancelled" else t)
         (trades s)).

(** [get_active_draft(league_id)]: [ORDER BY id DESC LIMIT 1]. *)
Definition get_active_draft (s : db) (league_id : Z) : option draft_session :=
  fetchone (fun d => (ds_league_id d =? league_id)%Z
                     && String.eqb (ds_status d) "active")
           (rev (draft_sessions s)).

End Tables.

(* ===================================================================== *)
(** * app.py: what the routes write                                      *)
(* ===================================================================== *)

(** The request handlers, after the administrator check has passed, as
    functions of the form values on the database; flash messages and
    redirects are left out. *)
Module Routes.

Import Scraper Database Tables.

(** [get_fantasy_team(team_id)]: the team row joined with its league. *)
Definition get_fantasy_team (s : db) (team_id : Z) : option (fantasy_team * league) :=
  t ← fetchone (fun t => (ft_id t =? team_id)%Z) (fantasy_teams s);
  l ← fetchone (fun l => (l_id l =? ft_league_id t)%Z) (leagues s);
  Some (t, l).

(** [add_player(team_id)] with the form values [player_id], [role_slot],
    [phase] ([None] when the form has no [phase]) and [is_duplicate]:
    the database and whether a row was added. *)
Definition add_player (s : db) (team_id : Z) (player_id role_slot : string)
    (phase : option string) (is_duplicate : Z) : db * bool :=
  match get_fantasy_team s team_id with
  | None => (s, false)
  | Some (team, team_league) =>
      match get_league s (ft_league_id team) with
      | None => (s, false)
      | Some league =>
          let phase := default (l_phase league) phase in
          let roster := get_roster s team_id (Some phase) in
          let max_p := ruleset_total_players s (ft_league_id team) in
          if (max_p <=? Z.of_nat (length roster))%Z then (s, false)
          else add_player_to_roster s team_id player_id (l_tournament_id team_league)
                                    role_slot phase is_duplicate
      end
  end.

(** [set_player_role(tournament_id, player_id)] with the form value
    [role]. *)
Definition set_player_role (s : db) (tournament_id : Z) (player_id role : string)
  : result db :=
  let s1 := update_player_role s player_id tournament_id role in
  match get_player s1 player_id tournament_id with
  | None => mret s1
  | Some p =>
      '(base, role_pts, total) ←
        Points.calculate_player_points (row_stats (pr_data p)) (Some role);
      mret (set_players s1
              (alter (fun row =>
                        {| pr_data := with_points (with_role (pr_data row) role)
                                                  base role_pts total;
                           pr_manual_pts := pr_manual_pts row |})
                     (player_id, tournament_id) (players s1)))
  end.

(** [set_followed_team(team_id)] with the stripped form values. *)
Definition set_followed_team_route (s : db) (team_id : Z) (team_name region : string)
  : result db :=
  if negb (str_truthy team_name) then mret (remove_followed_team s team_id)
  else set_followed_team s team_id team_name region.

End Routes.

(* ===================================================================== *)
(** * scraper.py: storing the aggregates of a scrape                     *)
(* ===================================================================== *)

Module ScrapeSource.

Import Scraper Database.

(** [for p in aggregated: upsert_player(p)] of [scrape_source]: the
    database when the loop ends, and the exception that ended it, if
    any. *)
Fixpoint store_players (aggregated : list player_dict) (s : db) : db * option exn :=
  match aggregated with
  | [] => (s, None)
  | p :: rest =>
      match upsert_player p s with
      | Ok s' => store_players rest s'
      | Raise e => (s, Some e)
      end
  end.

End ScrapeSource.

(* ===================================================================== *)
(** * Notions used to state the further properties                       *)
(* ===================================================================== *)

Module Notions.

Import Scraper Database Tables.

(** ** Scoring *)

(** No counted statistic is negative. *)
Definition nonneg_stats (p : Points.stats) : Prop :=
  0 <= Points.kills p /\ 0 <= Points.deaths p /\ 0 <= Points.assists p
  /\ 0 <= Points.acs p /\ 0 <= Points.kast p
  /\ 0 <= Points.adr p /\ 0 <= Points.first_kills p /\ 0 <= Points.first_deaths p.

(** ** Draft and league *)

(** [advance_draft(draft_id)] called [k] times. *)
Definition advance_times (k : nat) (s : db) (draft_id : Z) : db :=
  Nat.iter k (fun s => advance_draft s draft_id) s.

(** A row of the phase standings as a row of the league page. *)
Definition without_phase (st : standing) : league_standing :=
  {| ls_team := st_team st; ls_player_pts := st_player_pts st;
     ls_star_bonus := st_star_bonus st; ls_follow_pts := st_follow_pts st;
     ls_adj_pts := st_adj_pts st; ls_total_points := st_total_points st;
     ls_player_count := st_player_count st;
     ls_followed_team := st_followed_team st |}.

(** The pair (team, player) is in the list of kept players. *)
Definition is_kept (kept : list (Z * string)) (tid : Z) (pid : string) : bool :=
  existsb (fun k => (fst k =? tid)%Z && String.eqb (snd k) pid) kept.

(** The swiss entries that the transition removes: those of a team of
    the league whose (team, player) pair is not in [kept]. *)
Definition eliminated (s : db) (league_id : Z) (kept : list (Z * string))
    (fr : roster_entry) : bool :=
  existsb (fun t => (ft_id t =? fr_fantasy_team_id fr)%Z) (get_teams_in_league s league_id)
  && String.eqb (fr_phase fr) "swiss"
  && negb (is_kept kept (fr_fantasy_team_id fr) (fr_player_id fr)).

(** ** The match tables *)

(** The database after one more [id] was drawn from the counter of
    [matches], and of [match_player_stats]. *)
Definition matches_id_drawn (a : site) : site := {|
  core := core a;
  seq_match_results := seq_match_results a;
  seq_point_adjustments := seq_point_adjustments a;
  seq_trades := seq_trades a;
  matches := matches a; seq_matches := seq_matches a + 1;
  match_player_stats := match_player_stats a;
  seq_match_player_stats := seq_match_player_stats a;
  player_adjustments := player_adjustments a;
  seq_player_adjustments := seq_player_adjustments a
|}.

Definition stats_id_drawn (a : site) : site := {|
  core := core a;
  seq_match_results := seq_match_results a;
  seq_point_adjustments := seq_point_adjustments a;
  seq_trades := seq_trades a;
  matches := matches a; seq_matches := seq_matches a;
  match_player_stats := match_player_stats a;
  seq_match_player_stats := seq_match_player_stats a + 1;
  player_adjustments := player_adjustments a;
  seq_player_adjustments := seq_player_adjustments a
|}.

(** ** Recalculation *)

(** The three sums of [recalculate_tournament_points] for one player. *)
Definition all_match_totals (role : string) (rows : list match_row) : Q * Q * Q :=
  match score_rows role rows (0, 0, 0) with
  | Ok x => x
  | Raise _ => (0, 0, 0)
  end.

(** The [players] row after its three point columns were rewritten. *)
Definition rescored (row : player_row) (v : Q * Q * Q) : player_row :=
  {| pr_data := with_points (pr_data row) (round v.1.1 4) (round v.1.2 4) (round v.2 2);
     pr_manual_pts := pr_manual_pts row |}.

(** One round of the loop over the players with per-match rows. *)
Definition rescore_bucket (roles : gmap (string * Z) player_row) (tournament_id : Z)
    (m : gmap (string * Z) player_row) (b : string * list match_row)
  : gmap (string * Z) player_row :=
  alter (fun row => rescored row (all_match_totals (player_role roles b.1 tournament_id) b.2))
        (b.1, tournament_id) m.

(** The columns of a leaderboard row other than the three point columns. *)
Definition same_but_points (d d' : player_dict) : Prop :=
  with_points d' 0 0 0 = with_points d 0 0 0.

(** The points of a leaderboard row scored on its own columns. *)
Definition aggregate_totals (d : player_dict) : Q * Q * Q :=
  match Points.calculate_player_points (row_stats d) None with
  | Ok x => x
  | Raise _ => (0, 0, 0)
  end.

(** The [players] row after the fallback branch rewrote its points. *)
Definition rescored_once (row : player_row) : player_row :=
  let v := aggregate_totals (pr_data row) in
  {| pr_data := with_points (pr_data row) v.1.1 v.1.2 v.2;
     pr_manual_pts := pr_manual_pts row |}.

(** One round of the loop of the fallback branch. *)
Definition rescore_aggregate (tournament_id : Z) (m : gmap (string * Z) player_row)
    (kr : string * Z * player_row) : gmap (string * Z) player_row :=
  let v := aggregate_totals (pr_data kr.2) in
  update_points m kr.1.1 tournament_id v.1.1 v.1.2 v.2.

(** The rows flagged incomplete. *)
Definition incomplete (rows : list match_row) : list match_row :=
  List.filter (fun r => negb (mr_stats_incomplete r =? 0)%Z) rows.

(** ** Parsing and aggregation *)

(** The KAST cell is there and holds something other than a placeholder. *)
Definition kast_given (row : row_cells) : bool :=
  match c_kast row with
  | None => false
  | Some (txt, _) =>
      negb (String.eqb txt "" || String.eqb txt "-" || String.eqb txt "—")
  end.

(** The distinct elements of a list, in the order of their first
    occurrence. *)
Fixpoint distinct (ids : list string) : list string :=
  match ids with
  | [] => []
  | x :: rest => x :: List.filter (fun y => negb (String.eqb y x)) (distinct rest)
  end.

(** [seen] with [x] appended unless it is there. *)
Definition note (seen : list string) (x : string) : list string :=
  if bool_decide (x ∈ seen) then seen else seen ++ [x].

(** ** Rosters and adjustments *)

(** The roster entry names the player [pid] of tournament [t]. *)
Definition names (pid : string) (t : Z) (fr : roster_entry) : bool :=
  String.eqb (fr_player_id fr) pid && (fr_tournament_id fr =? t)%Z.

(** The roster entry belongs to the team in the phase. *)
Definition team_phase (team_id : Z) (phase : string) (fr : roster_entry) : bool :=
  (fr_fantasy_team_id fr =? team_id)%Z && String.eqb (fr_phase fr) phase.

(** The entries of a team's phase roster that name the player. *)
Definition entries_of (pid : string) (t team_id : Z) (phase : string)
    (roster : list roster_entry) : list roster_entry :=
  List.filter (names pid t)
              (List.filter (fun fr => (fr_fantasy_team_id fr =? team_id)%Z
                                      && String.eqb (fr_phase fr) phase) roster).

(** The number of entries, as a rational. *)
Definition count (l : list roster_entry) : Q := inject_Z (Z.of_nat (length l)).

(** The roster entries joined with the leaderboard rows [m]. *)
Definition joined (m : gmap (string * Z) player_row) (l : list roster_entry)
  : list (player_row * roster_entry) :=
  omap (fun fr => p ← m !! (fr_player_id fr, fr_tournament_id fr); Some (p, fr)) l.

(** Half of the points of the starred rows. *)
Definition star_sum (l : list (player_row * roster_entry)) : Q :=
  Spec.Qsum (map (fun p => 0.5 * Spec.pts p)
                 (List.filter (fun p => negb (fr_is_star p.2 =? 0)%Z) l)).

(** ** Followed teams and results *)

(** The recorded results of a team in a tournament. *)
Definition team_results (s : db) (tournament_id : Z) (team_name : string)
  : list match_result :=
  List.filter (fun r => (res_tournament_id r =? tournament_id)%Z
                        && String.eqb (res_team_name r) team_name)
              (match_results s).

(** The result [r] counts for the follower [f] in the tournament. *)
Definition counts_for (f : followed_team) (tournament_id : Z) (r : match_result) : bool :=
  (res_tournament_id r =? tournament_id)%Z
  && (negb (str_truthy (fo_team_name f)) || String.eqb (res_team_name r) (fo_team_name f)).

(** ** The match tables *)

(** A row of [matches] whose score columns hold the defaults of the
    schema. *)
Definition unscored (m : match_entry) : Prop :=
  m_score_a m = 0%Z /\ m_score_b m = 0%Z /\ m_map_count m = 0%Z
  /\ m_match_format m = ""%string /\ m_status m = "completed"%string.

End Notions.

(* ===================================================================== *)
(** * Further concrete inputs                                            *)
(* ===================================================================== *)

Module Cases.

Import Scraper Database Tables.

(** A flex player who has a rating and nothing else. *)
Definition rating_heavy : Points.stats := {|
  Points.role := Some "flex"%string;
  Points.kills := 0; Points.deaths := 1; Points.assists := 0; Points.acs := 0;
  Points.kast := 0; Points.adr := 0;
  Points.first_kills := 0; Points.first_deaths := 0; Points.rating := 1
|}.

(** The small league before any match page was scraped.  The counters
    are those of its tables; the one logged adjustment is the 5 points
    that p_c was given by hand. *)
Definition unscraped : site := {|
  core := Examples.small_league;
  seq_match_results := 3;
  seq_point_adjustments := 1;
  seq_trades := 2;
  matches := [];
  seq_matches := 0;
  match_player_stats := [];
  seq_match_player_stats := 0;
  player_adjustments :=
    [{| pa_id := 1; pa_player_id := "p_c"; pa_tournament_id := 1; pa_delta := 5 |}];
  seq_player_adjustments := 1
|}.

Definition scraped_match (id : Z) (match_id : string) : match_entry := {|
  m_id := id; m_match_id := match_id; m_tournament_id := 1; m_source_id := 1;
  m_match_url := "https://www.vlr.gg/" ++ match_id;
  m_team_a := "MIBR"; m_team_b := "LOUD";
  m_score_a := 0; m_score_b := 0; m_map_count := 0; m_match_format := "";
  m_status := "completed"
|}.

(** The small league after three matches of aspas were scraped: the
    strong and the weak match, and the one with incomplete statistics.
    His leaderboard row still holds no points. *)
Definition scraped : site := {|
  core :=
    set_players
      (set_match_tournaments Examples.small_league [1; 1; 1; 1; 1; 1]%Z)
      (<[("t1_8480_aspas"%string, 1%Z) := Examples.leaderboard_row "t1_8480_aspas" 0 0]>
         (players Examples.small_league));
  seq_match_results := 3;
  seq_point_adjustments := 1;
  seq_trades := 2;
  matches := [scraped_match 1 "101"; scraped_match 2 "102"; scraped_match 3 "103"];
  seq_matches := 3;
  match_player_stats :=
    [{| sr_id := 1; sr_data := Examples.strong_match |};
     {| sr_id := 2; sr_data := Examples.weak_match |};
     {| sr_id := 3; sr_data := Examples.incomplete_match |}];
  seq_match_player_stats := 3;
  player_adjustments :=
    [{| pa_id := 1; pa_player_id := "p_c"; pa_tournament_id := 1; pa_delta := 5 |}];
  seq_player_adjustments := 1
|}.

(** What [scrape_source] hands to [upsert_match] for a best-of-3 that
    MIBR won 2:1. *)
Definition won_match : match_info := {|
  mi_match_id := "104"; mi_tournament_id := 1; mi_source_id := 1;
  mi_match_url := "https://www.vlr.gg/104";
  mi_team_a := "MIBR"; mi_team_b := "NRG";
  mi_score_a := 2; mi_score_b := 1; mi_map_count := 3;
  mi_match_format := "bo3"; mi_status := "completed"
|}.

(** The small league with the swiss draft of its three teams opened. *)
Definition drafting : db :=
  match create_draft_session Examples.small_league 1 "swiss" with
  | Ok (s, _) => s
  | Raise _ => Examples.small_league
  end.

(** A table row with an empty KAST cell. *)
Definition no_kast_cells : row_cells := {|
  c_ign := "aspas"; c_team_abbr := "MIBR"; c_player_id := "t1_8480_aspas";
  c_vlr_url := "https://www.vlr.gg/player/8480/aspas"; c_agent := "jett";
  c_region := "AMER"; c_rating := 1.2; c_acs := 250; c_kills := 20;
  c_deaths := Some 0%Z; c_assists := 5; c_kd_diff := 20;
  c_kast := Some (""%string, 0); c_adr := 150.5; c_first_kills := 3;
  c_first_deaths := 2; c_fk_diff := 1; c_headshot_pct := 25
|}.

End Cases.

(* ===================================================================== *)
(** * Python floats as binary64 values                                   *)
(* ===================================================================== *)

(** A finite double is a rational: [float] is [Q], under another name
    so that [+], [-], [*] and [/] between floats can be read as the
    operations on doubles.  Every operation returns the double nearest to the exact result,
    ties to the even significand, with gradual underflow: what IEEE 754
    binary64 arithmetic, and so CPython on every current platform,
    computes.  Two things are left out.  The sign of a zero: no
    operation of the embedded code tells [-0.0] from [0.0].  Overflow:
    the exponent has no upper bound here, where Python goes on with
    [inf]; the statements carry bounds on their inputs that keep every
    intermediate value far below the largest double. *)

Declare Scope f64_scope.
Delimit Scope f64_scope with f64.

Module F64.

Definition float : Type := Q.
#[global] Bind Scope f64_scope with float.

(** [floor(log2 x)] for [x > 0]. *)
Definition ilog2 (x : Q) : Z :=
  if Qle_bool 1 x then Z.log2 (Qfloor x)
  else (- Z.log2_up (Qceiling (/ x)))%Z.

(** The exponent of the last place of the doubles around [x]: 53
    significant bits, and never below that of the subnormals. *)
Definition expo (x : Q) : Z := Z.max (ilog2 (Qabs x) - 52) (-1074).

(** The double nearest to [x]. *)
Definition rn (x : Q) : float :=
  let x := Qred x in
  if Qeq_bool x 0 then 0%Q
  else let u := Qpower 2 (expo x) in
       Qred (inject_Z (round_half_even (x / u)) * u)%Q.

(** [x + y], [x - y], [x * y] on floats. *)
Definition add (x y : float) : float := rn (x + y)%Q.
Definition sub (x y : float) : float := rn (x - y)%Q.
Definition mul (x y : float) : float := rn (x * y)%Q.

(** [x / c] with a denominator that is a non-zero literal. *)
Definition quot (x c : float) : float := rn (x / c)%Q.

(** [x / y] with a denominator that is a variable of the program: a
    zero denominator raises.  Also [a / b] on two ints, which Python
    rounds correctly from the exact quotient. *)
Definition div (x y : float) : result float :=
  if Qeq_bool y 0 then Raise ZeroDivisionError else Ok (rn (x / y)%Q).

(** A decimal literal of the source, and [float(n)] of an int. *)
Definition lit (x : Q) : float := rn x.
Definition of_int (n : Z) : float := rn (inject_Z n).

(** [round(x, ndigits)] on a float: the decimal nearest to the exact
    value of [x], ties to the even digit, and then the double nearest to
    that decimal. *)
Definition round (x : float) (ndigits : nat) : float := rn (Py.round x ndigits).

(** [sum(...)] of floats in CPython before 3.12, [total += x] from
    [0.0], and SQLite's [SUM] before 3.43: one addition per element,
    left to right. *)
Definition sum (l : list float) : float := fold_left add l 0%Q.

(** The value is a double. *)
Definition is_double (x : Q) : bool := Qeq_bool (rn x) x.

(** A double that is zero or of a magnitude between [2^-64] and
    [2^64]. *)
Definition moderate (x : Q) : bool :=
  is_double x
  && (Qeq_bool x 0
      || (Qle_bool (Qpower 2 (-64)) (Qabs x) && Qle_bool (Qabs x) (Qpower 2 64))).

(** An int that [float(n)] converts without rounding. *)
Definition moderate_int (n : Z) : bool := (Z.abs n <=? 2 ^ 53)%Z.

End F64.

Notation float := F64.float.

Infix "+" := F64.add : f64_scope.
Infix "-" := F64.sub : f64_scope.
Infix "*" := F64.mul : f64_scope.
Infix "/" := F64.quot : f64_scope.

(* ===================================================================== *)
(** * points.py in binary64                                              *)
(* ===================================================================== *)

Module Points64.

Import Points.

Local Open Scope f64_scope.

(** The nine numbers are read with [float(p.get(key, 0))]. *)
Definition float_of (field : stats -> Q) (p : stats) : float := F64.rn (field p).

(** [deaths = float(p.get("deaths", 0)) or 1.0]. *)
Definition deaths_or_1 (p : stats) : float :=
  let deaths := float_of deaths p in
  if Qeq_bool deaths 0 then 1%Q else deaths.

(** [kast_dec = kast / 100 if kast > 0 else 0.0]. *)
Definition kast_dec (p : stats) : float :=
  let kast := float_of kast p in
  if Qltb 0 kast then kast / 100 else 0%Q.

(** The unrounded sum of the seven base components. *)
Definition base_raw (p : stats) : float :=
  let kill_pts  := float_of kills p * 4 in
  let death_pts := deaths_or_1 p * -6 in
  let ast_pts   := float_of assists p * 1 in
  let acs_kast  := float_of acs p * (kast_dec p / 5) in
  let fk_pts    := float_of first_kills p * 2 in
  let fd_pts    := float_of first_deaths p * -4 in
  let adr_pts   := float_of adr p * F64.lit 0.2 in
  kill_pts + death_pts + ast_pts + acs_kast + fk_pts + fd_pts + adr_pts.

Definition _duelist (p : stats) : float :=
  float_of acs p / 10 + (float_of first_kills p + float_of first_deaths p)
  - float_of first_deaths p * F64.lit 0.9.

Definition safe_kad (ka_d : float) : float :=
  if Qltb 0 ka_d then ka_d else F64.lit 0.001.
Definition safe_kast (p : stats) : float :=
  if Qltb 0 (kast_dec p) then kast_dec p else F64.lit 0.01.

Definition _initiator (p : stats) (ka_d : float) : result float :=
  q ← F64.div (float_of assists p) (safe_kad ka_d);
  q' ← F64.div q (safe_kast p);
  mret (float_of assists p + q').

Definition _controller (p : stats) (ka_d : float) : float :=
  float_of assists p * F64.lit 0.75 + (float_of kast p / 10) * ka_d.

Definition _sentinel (p : stats) : float :=
  float_of acs p / 10 + (float_of adr p / 100) / F64.lit 1.5.

(** [calculate_player_points(p, role)]: [(base, role_bonus, total)]. *)
Definition calculate_player_points (p : stats) (role_arg : option string)
  : result (float * float * float) :=
  let r := effective_role p role_arg in
  ka_d ← F64.div (float_of kills p + float_of assists p) (deaths_or_1 p);
  let base := F64.round (base_raw p) 4 in
  '(role_bonus, total) ←
    (if String.eqb r "duelist" then
       let role_bonus := _duelist p in
       mret (role_bonus, base + role_bonus)
     else if String.eqb r "initiator" then
       role_bonus ← _initiator p ka_d;
       mret (role_bonus, base + role_bonus)
     else if String.eqb r "controller" then
       let role_bonus := _controller p ka_d in
       mret (role_bonus, base + role_bonus)
     else if String.eqb r "sentinel" then
       let role_bonus := _sentinel p in
       mret (role_bonus, base + role_bonus)
     else if String.eqb r "flex" then
       let d_bonus := _duelist p in
       i_bonus ← _initiator p ka_d;
       let c_bonus := _controller p ka_d in
       let s_bonus := _sentinel p in
       let all_bonuses := d_bonus + i_bonus + c_bonus + s_bonus in
       let rating_bonus := float_of rating p * 10 * (kast_dec p - F64.lit 0.7) in
       let total := base + all_bonuses / 4 + rating_bonus in
       mret (total - base, total)
     else
       mret (0%Q : float, base));
  mret (base, F64.round role_bonus 4, F64.round total 2).

End Points64.

(* ===================================================================== *)
(** * The specification's formulas in binary64                           *)
(* ===================================================================== *)

(** The formulas of §4.4 to §4.6 of the specification, every operation
    being the one on doubles, in the order in which the specification
    writes them. *)

Module Spec64.

Import Scraper Database.

Local Open Scope f64_scope.

(** ** §4.4 Points engine *)

Section Formula.

Variable p : Points.stats.
(** the deaths value that enters the formula *)
Variable deaths : float.

Let kills : float := Points.kills p.
Let assists : float := Points.assists p.
Let acs : float := Points.acs p.
Let kast : float := Points.kast p.
Let adr : float := Points.adr p.
Let firstKills : float := Points.first_kills p.
Let firstDeaths : float := Points.first_deaths p.
Let rating : float := Points.rating p.

(** [kastFraction = kast/100] (0 if kast ≤ 0) *)
Definition kastFraction : float := if Qle_bool kast 0 then 0%Q else kast / 100.

Definition base : float :=
  kills * 4 + deaths * (-6) + assists * 1 + acs * (kastFraction / 5)
  + firstKills * 2 + firstDeaths * (-4) + adr * F64.lit 0.2.

Definition kad : float := (kills + assists) / deaths.
Definition kad_safe : float := if Qle_bool kad 0 then F64.lit 0.001 else kad.
Definition kastFraction_safe : float :=
  if Qle_bool kastFraction 0 then F64.lit 0.01 else kastFraction.

(** The table writes [acs/10 + firstKills + 0.1*firstDeaths]; in
    doubles that is not the same number as the grouping below, which
    is the one that reproduces the stored data. *)
Definition duelistBonus : float :=
  acs / 10 + (firstKills + firstDeaths) - firstDeaths * F64.lit 0.9.
Definition initiatorBonus : float := assists + (assists / kad_safe) / kastFraction_safe.
Definition controllerBonus : float := assists * F64.lit 0.75 + (kast / 10) * kad.
Definition sentinelBonus : float := acs / 10 + (adr / 100) / F64.lit 1.5.

(** The duelist bonus as the table writes it. *)
Definition duelistBonus_as_written : float :=
  acs / 10 + firstKills + F64.lit 0.1 * firstDeaths.

(** [(base, roleBonus, total)] for the role named [r]: base and bonus to
    4 decimals, total to 2; the base that enters the total is the
    rounded one. *)
Definition score (r : string) : float * float * float :=
  let b := F64.round base 4 in
  if String.eqb r "duelist" then
    (b, F64.round duelistBonus 4, F64.round (b + duelistBonus) 2)
  else if String.eqb r "initiator" then
    (b, F64.round initiatorBonus 4, F64.round (b + initiatorBonus) 2)
  else if String.eqb r "controller" then
    (b, F64.round controllerBonus 4, F64.round (b + controllerBonus) 2)
  else if String.eqb r "sentinel" then
    (b, F64.round sentinelBonus 4, F64.round (b + sentinelBonus) 2)
  else if String.eqb r "flex" then
    let total :=
      b + (duelistBonus + initiatorBonus + controllerBonus + sentinelBonus) / 4
      + rating * 10 * (kastFraction - F64.lit 0.7) in
    (b, F64.round (total - b) 4, F64.round total 2)
  else
    (b, 0%Q : float, F64.round b 2).

End Formula.

(** The deaths value after the floor at 1 that the code applies to a
    zero. *)
Definition clamped_deaths (p : Points.stats) : float :=
  if Qeq_bool (Points.deaths p) 0 then 1%Q else Points.deaths p.

(** The nine statistics are doubles, each zero or of a magnitude between
    [2^-64] and [2^64]. *)
Definition moderate_stats (p : Points.stats) : bool :=
  F64.moderate (Points.kills p) && F64.moderate (Points.deaths p)
  && F64.moderate (Points.assists p) && F64.moderate (Points.acs p)
  && F64.moderate (Points.kast p) && F64.moderate (Points.adr p)
  && F64.moderate (Points.first_kills p) && F64.moderate (Points.first_deaths p)
  && F64.moderate (Points.rating p).

(** ** §4.5 Aggregator *)

(** The points of one match under [role]; the engine never raises, so
    the default is never used. *)
Definition match_points (role : string) (r : match_row) : float * float * float :=
  match Points64.calculate_player_points (pdata role r) None with
  | Ok x => x
  | Raise _ => (0, 0, 0)%Q
  end.

(** The arithmetic mean: the sum, divided by the count. *)
Definition average (l : list float) : float :=
  F64.sum l / F64.of_int (Z.of_nat (length l)).

(** The five float statistics of a per-match row are doubles of a
    moderate magnitude, and the five counts are converted by [float]
    without rounding. *)
Definition moderate_row (r : match_row) : bool :=
  F64.moderate (mr_rating r) && F64.moderate (mr_acs r) && F64.moderate (mr_kast r)
  && F64.moderate (mr_adr r) && F64.moderate (mr_headshot_pct r)
  && F64.moderate_int (mr_kills r) && F64.moderate_int (mr_deaths r)
  && F64.moderate_int (mr_assists r) && F64.moderate_int (mr_first_kills r)
  && F64.moderate_int (mr_first_deaths r).

(** What the aggregator's row for a player must contain, given all the
    player's per-match records [mine], in their order. *)
Record aggregates (mine : list match_row) (d : player_dict) : Prop := {
  ag_base    : pd_base_points d =
               F64.round (F64.sum (map (fun r => (match_points (Spec.role_of mine) r).1.1)
                                       (Spec.complete mine))) 4;
  ag_role    : pd_role_points d =
               F64.round (F64.sum (map (fun r => (match_points (Spec.role_of mine) r).1.2)
                                       (Spec.complete mine))) 4;
  ag_fantasy : pd_fantasy_points d =
               F64.round (F64.sum (map (fun r => (match_points (Spec.role_of mine) r).2)
                                       (Spec.complete mine))) 2;
  ag_matches : pd_matches_played d = Z.of_nat (length mine);
  ag_kills   : pd_kills d = Spec.Zsum (map mr_kills mine);
  ag_deaths  : pd_deaths d = Spec.Zsum (map mr_deaths mine);
  ag_assists : pd_assists d = Spec.Zsum (map mr_assists mine);
  ag_fk      : pd_first_kills d = Spec.Zsum (map mr_first_kills mine);
  ag_fd      : pd_first_deaths d = Spec.Zsum (map mr_first_deaths mine);
  ag_rating  : pd_rating d = F64.round (average (map mr_rating mine)) 3;
  ag_acs     : pd_acs d = F64.round (average (map mr_acs mine)) 2;
  ag_kast    : pd_kast d = F64.round (average (map mr_kast mine)) 2;
  ag_adr     : pd_adr d = F64.round (average (map mr_adr mine)) 2;
  ag_hs      : pd_headshot_pct d = F64.round (average (map mr_headshot_pct mine)) 2
}.

(** ** §4.6 Standings composer *)

(** Float sums depend on the order of their terms; the three sums below
    are taken over a list in its order.  The roster is given in the order
    in which the store returns it. *)

Definition pts (p : player_row * roster_entry) : float :=
  pd_fantasy_points (pr_data p.1) + pr_manual_pts p.1.

Definition playerPts (roster : list (player_row * roster_entry)) : float :=
  F64.sum (map pts roster).

Definition starBonus (roster : list (player_row * roster_entry)) : float :=
  F64.sum (map (fun p => (0.5 * pts p)%f64)
               (List.filter (fun p => negb (fr_is_star p.2 =? 0)%Z) roster)).

(** The fantasy team follows the real team of that name. *)
Definition follows (s : db) (team_id : Z) (name : string) : bool :=
  existsb (fun f => (fo_fantasy_team_id f =? team_id)%Z
                    && String.eqb (fo_team_name f) name)
          (followed_teams s).

(** The results, in the tournament, of the team that the fantasy team
    follows, oldest first. *)
Definition followed_results (s : db) (team_id tournament_id : Z) : list match_result :=
  List.filter (fun r => (res_tournament_id r =? tournament_id)%Z
                        && follows s team_id (res_team_name r))
              (match_results s).

(** The follow points, added latest result first. *)
Definition followPts (s : db) (team_id tournament_id : Z) : float :=
  F64.sum (map Spec.result_points (rev (followed_results s team_id tournament_id))).

(** The team's manual adjustments, added oldest first. *)
Definition adjPts (s : db) (team_id : Z) : float :=
  F64.sum (map adj_amount
               (List.filter (fun a => (adj_fantasy_team_id a =? team_id)%Z)
                            (point_adjustments s))).

Definition phase_total (s : db) (lg : league) (roster : list (player_row * roster_entry))
    (t : fantasy_team) : float :=
  F64.round (playerPts roster + starBonus roster
             + followPts s (ft_id t) (l_tournament_id lg) + adjPts s (ft_id t)) 2.

(** Every stored number that the standings read is a double of a
    moderate magnitude. *)
Definition moderate_store (s : db) : bool :=
  forallb (fun kv => F64.moderate (pd_fantasy_points (pr_data kv.2))
                     && F64.moderate (pr_manual_pts kv.2))
          (map_to_list (players s))
  && forallb (fun a => F64.moderate (adj_amount a)) (point_adjustments s).

End Spec64.

(* ===================================================================== *)
(** * scraper.py: the aggregator in binary64                             *)
(* ===================================================================== *)

Module Scraper64.

Import Scraper.

Local Open Scope f64_scope.

(** The loop [for r in rows:] that accumulates
    [(total_base, total_role, total_pts)], skipping incomplete rows. *)
Fixpoint points_loop (role : string) (rows : list match_row)
    (acc : float * float * float) : result (float * float * float) :=
  match rows with
  | [] => mret acc
  | r :: rest =>
      if truthy (mr_stats_incomplete r) then points_loop role rest acc
      else
        let '(total_base, total_role, total_pts) := acc in
        '(bp, rp, tp) ← Points64.calculate_player_points (pdata role r) None;
        points_loop role rest (total_base + bp, total_role + rp, total_pts + tp)
  end.

(** The body of [for pid, rows in buckets.items():]. *)
Definition aggregate_bucket (pid : string) (rows : list match_row) : result aggregate :=
  let n := Z.of_nat (length rows) in
  match rows with
  | [] => Raise IndexError
  | base :: _ =>
      let kills        := sumZ (map mr_kills rows) in
      let deaths       := sumZ (map mr_deaths rows) in
      let assists      := sumZ (map mr_assists rows) in
      let first_kills  := sumZ (map mr_first_kills rows) in
      let first_deaths := sumZ (map mr_first_deaths rows) in
      rating       ← F64.div (F64.sum (map mr_rating rows)) (F64.of_int n);
      acs          ← F64.div (F64.sum (map mr_acs rows)) (F64.of_int n);
      kast         ← F64.div (F64.sum (map mr_kast rows)) (F64.of_int n);
      adr          ← F64.div (F64.sum (map mr_adr rows)) (F64.of_int n);
      headshot_pct ← F64.div (F64.sum (map mr_headshot_pct rows)) (F64.of_int n);
      kd ← F64.div (inject_Z kills) (inject_Z (Z.max deaths 1));
      let kd_ratio := F64.round kd 3 in
      fkfd ← F64.div (inject_Z first_kills) (inject_Z (Z.max first_deaths 1));
      let fk_fd_ratio := F64.round fkfd 3 in
      let agent := most_common_agent rows in
      let role := mr_role base in
      let has_incomplete := existsb (fun r => truthy (mr_stats_incomplete r)) rows in
      '(total_base, total_role, total_pts) ← points_loop role rows (0, 0, 0)%Q;
      mret {|
        agg_player := {|
          pd_player_id      := pid;
          pd_tournament_id  := mr_tournament_id base;
          pd_ign            := mr_ign base;
          pd_real_name      := "";
          pd_team           := mr_team base;
          pd_team_abbr      := mr_team_abbr base;
          pd_country        := "";
          pd_region         := mr_region base;
          pd_role           := role;
          pd_agent          := agent;
          pd_rounds_played  := n;
          pd_matches_played := n;
          pd_rating         := F64.round rating 3;
          pd_acs            := F64.round acs 2;
          pd_kills          := kills;
          pd_deaths         := deaths;
          pd_assists        := assists;
          pd_kd_ratio       := kd_ratio;
          pd_kast           := F64.round kast 2;
          pd_adr            := F64.round adr 2;
          pd_headshot_pct   := F64.round headshot_pct 2;
          pd_first_kills    := first_kills;
          pd_first_deaths   := first_deaths;
          pd_fk_fd_ratio    := fk_fd_ratio;
          pd_base_points    := F64.round total_base 4;
          pd_role_points    := F64.round total_role 4;
          pd_fantasy_points := F64.round total_pts 2;
          pd_vlr_url        := mr_vlr_url base
        |};
        agg_has_incomplete_matches := has_incomplete
      |}
  end.

(** [for pid, rows in buckets.items(): ... players.append(...)]. *)
Fixpoint aggregate_buckets (buckets : list (string * list match_row))
  : result (list aggregate) :=
  match buckets with
  | [] => mret []
  | (pid, rows) :: rest =>
      a ← aggregate_bucket pid rows;
      others ← aggregate_buckets rest;
      mret (a :: others)
  end.

(** [aggregate_player_stats(match_player_rows)]. *)
Definition aggregate_player_stats (match_player_rows : list match_row)
  : result (list aggregate) :=
  aggregate_buckets (group_rows match_player_rows).

End Scraper64.

(* ===================================================================== *)
(** * database.py: standings and recalculation in binary64               *)
(* ===================================================================== *)

Module Database64.

Import Scraper Database.

Local Open Scope f64_scope.

Section Engine.

(** [get_roster] orders by [role_slot] only, and roster entries often
    share a slot.  The order of the rows with equal slots is the order
    in which SQLite visits them, which depends on the query plan and not
    only on the tables: [scan] gives it, and [ORDER BY] is a stable sort
    of the rows as visited. *)
Variable scan : list roster_entry -> list roster_entry.

(** [get_roster(fantasy_team_id, phase)]. *)
Definition get_roster (s : db) (fantasy_team_id : Z) (phase : option string)
  : list (player_row * roster_entry) :=
  let of_team := List.filter (fun fr => (fr_fantasy_team_id fr =? fantasy_team_id)%Z)
                             (fantasy_roster s) in
  match phase with
  | Some ph =>
      if str_truthy ph then
        join_players s
          (sort_by role_slot_le
             (scan (List.filter (fun fr => String.eqb (fr_phase fr) ph) of_team)))
      else join_players s (sort_by phase_role_slot_le (scan of_team))
  | None => join_players s (sort_by phase_role_slot_le (scan of_team))
  end.

(** One iteration of the loop of [calculate_team_follow_points]; [pts]
    is a float, the four constants are ints. *)
Definition follow_step (pts : float) (r : match_result) : float :=
  let fmt := res_format r in
  let result := res_result r in
  if String.eqb result "win"
  then pts + (if String.eqb fmt "bo3" then 100 else 75)
  else pts + (if String.eqb fmt "bo3" then -75 else -50).

(** [calculate_team_follow_points(fantasy_team_id, tournament_id)]. *)
Definition calculate_team_follow_points (s : db) (fantasy_team_id tournament_id : Z)
  : float :=
  match get_followed_team s fantasy_team_id with
  | None => 0%Q
  | Some followed =>
      let results := get_match_results s tournament_id (Some (fo_team_name followed)) in
      fold_left follow_step results 0%Q
  end.

(** [get_total_adjustments]: [COALESCE(SUM(amount), 0)] over the rows of
    the team, which the full scan of the table visits in [id] order. *)
Definition get_total_adjustments (s : db) (fantasy_team_id : Z) : float :=
  F64.sum (map adj_amount
               (List.filter (fun a => (adj_fantasy_team_id a =? fantasy_team_id)%Z)
                            (point_adjustments s))).

(** The body of [for p in roster:] on [(player_pts, star_bonus)]. *)
Definition roster_step (acc : float * float) (p : player_row * roster_entry)
  : float * float :=
  let '(player_pts, star_bonus) := acc in
  let base_pts := pd_fantasy_points (pr_data (fst p)) + pr_manual_pts (fst p) in
  let star_bonus := if truthy (fr_is_star (snd p)) then star_bonus + base_pts * 0.5
                    else star_bonus in
  (player_pts + base_pts, star_bonus).

(** The body of [for t in teams:] of [get_phase_standings]. *)
Definition team_standing (s : db) (lg : league) (phase : string) (t : fantasy_team)
  : standing :=
  let roster := get_roster s (ft_id t) (Some phase) in
  let '(player_pts, star_bonus) := fold_left roster_step roster (0, 0)%Q in
  let follow_pts := calculate_team_follow_points s (ft_id t) (l_tournament_id lg) in
  let adj_pts := get_total_adjustments s (ft_id t) in
  let total := F64.round (player_pts + star_bonus + follow_pts + adj_pts) 2 in
  let followed := get_followed_team s (ft_id t) in
  {| st_team := t;
     st_player_pts := F64.round player_pts 2;
     st_star_bonus := F64.round star_bonus 2;
     st_follow_pts := F64.round follow_pts 2;
     st_adj_pts := F64.round adj_pts 2;
     st_total_points := total;
     st_player_count := Z.of_nat (length roster);
     st_phase := phase;
     st_followed_team := fo_team_name <$> followed |}.

(** [get_phase_standings(league_id, phase)]. *)
Definition get_phase_standings (s : db) (league_id : Z) (phase : string) : list standing :=
  match get_league s league_id with
  | None => []
  | Some lg =>
      let teams := get_teams_in_league s league_id in
      let standings := map (team_standing s lg phase) teams in
      sort_by (descending st_total_points) standings
  end.

(** [get_overall_standings(league_id)]. *)
Definition get_overall_standings (s : db) (league_id : Z) : list overall :=
  let swiss := by_team_id (get_phase_standings s league_id "swiss") in
  let playoffs := by_team_id (get_phase_standings s league_id "playoffs") in
  let teams := get_teams_in_league s league_id in
  let standings :=
    map (fun t =>
           let s_pts := from_option st_total_points 0%Q (swiss !! ft_id t) in
           let p_pts := from_option st_total_points 0%Q (playoffs !! ft_id t) in
           let total := F64.round (s_pts + p_pts) 2 in
           {| ov_team := t;
              ov_swiss_pts := s_pts;
              ov_playoffs_pts := p_pts;
              ov_total_points := total;
              ov_player_count := from_option st_player_count 0%Z (swiss !! ft_id t);
              ov_followed_team := swiss !! ft_id t ≫= st_followed_team |})
        teams in
  sort_by (descending ov_total_points) standings.

End Engine.

End Database64.

Module Tables64.

Import Scraper Database Tables.

Local Open Scope f64_scope.

(** The loop [for r in rows:] of [recalculate_tournament_points]: every
    row is scored. *)
Fixpoint score_rows (role : string) (rows : list match_row)
    (acc : float * float * float) : result (float * float * float) :=
  match rows with
  | [] => mret acc
  | r :: rest =>
      let '(total_base, total_role, total_pts) := acc in
      '(bp, rp, tp) ← Points64.calculate_player_points (pdata role r) None;
      score_rows role rest (total_base + bp, total_role + rp, total_pts + tp)
  end.

(** The loop [for pid, rows in buckets.items():]; [roles] is the
    [players] table as it was read before the loop. *)
Fixpoint recalculate_buckets (roles : gmap (string * Z) player_row)
    (tournament_id : Z) (buckets : list (string * list match_row))
    (m : gmap (string * Z) player_row) : result (gmap (string * Z) player_row) :=
  match buckets with
  | [] => mret m
  | (pid, rows) :: rest =>
      let role := player_role roles pid tournament_id in
      '(total_base, total_role, total_pts) ← score_rows role rows (0, 0, 0)%Q;
      recalculate_buckets roles tournament_id rest
        (update_points m pid tournament_id
           (F64.round total_base 4) (F64.round total_role 4) (F64.round total_pts 2))
  end.

(** The fallback loop [for row in rows:] over the [players] rows of the
    tournament, each scored once on its aggregated statistics. *)
Fixpoint recalculate_aggregates (tournament_id : Z)
    (rows : list (string * Z * player_row))
    (m : gmap (string * Z) player_row) : result (gmap (string * Z) player_row) :=
  match rows with
  | [] => mret m
  | (key, row) :: rest =>
      '(base, role_pts, total) ←
        Points64.calculate_player_points (row_stats (pr_data row)) None;
      recalculate_aggregates tournament_id rest
        (update_points m (fst key) tournament_id base role_pts total)
  end.

(** [recalculate_tournament_points(tournament_id)]; the per-match rows
    come in table order, in which a query without an index on
    [tournament_id] visits them. *)
Definition recalculate_tournament_points (a : site) (tournament_id : Z) : result site :=
  let s := core a in
  let raw := raw_rows a tournament_id in
  m ← match raw with
      | [] =>
          recalculate_aggregates tournament_id
            (map_to_list (filter (fun kv => kv.1.2 = tournament_id) (players s)))
            (players s)
      | _ =>
          recalculate_buckets (players s) tournament_id (group_rows raw) (players s)
      end;
  mret (with_core a (set_players s m)).

End Tables64.

(** The three sums of [recalculate_tournament_points] for one player,
    each added in the order of the rows. *)
Module Notions64.

Import Scraper Database Tables Notions.

Definition all_match_totals (role : string) (rows : list match_row)
  : float * float * float :=
  (F64.sum (map (fun r => (Spec64.match_points role r).1.1) rows),
   F64.sum (map (fun r => (Spec64.match_points role r).1.2) rows),
   F64.sum (map (fun r => (Spec64.match_points role r).2) rows)).

(** The [players] row after its three point columns were rewritten. *)
Definition rescored (row : player_row) (v : float * float * float) : player_row :=
  {| pr_data := with_points (pr_data row)
                  (F64.round v.1.1 4) (F64.round v.1.2 4) (F64.round v.2 2);
     pr_manual_pts := pr_manual_pts row |}.

(** One round of the loop over the players with per-match rows. *)
Definition rescore_bucket (roles : gmap (string * Z) player_row) (tournament_id : Z)
    (m : gmap (string * Z) player_row) (b : string * list match_row)
  : gmap (string * Z) player_row :=
  alter (fun row => rescored row (all_match_totals (player_role roles b.1 tournament_id) b.2))
        (b.1, tournament_id) m.

End Notions64.

(* ===================================================================== *)
(** * Concrete inputs held as doubles                                    *)
(* ===================================================================== *)

Module Cases64.

Import Scraper Database Tables.

(** A statistics record as Python holds it: every number is the double
    nearest to the decimal that was written. *)
Definition held (p : Points.stats) : Points.stats := {|
  Points.role := Points.role p;
  Points.kills := F64.lit (Points.kills p);
  Points.deaths := F64.lit (Points.deaths p);
  Points.assists := F64.lit (Points.assists p);
  Points.acs := F64.lit (Points.acs p);
  Points.kast := F64.lit (Points.kast p);
  Points.adr := F64.lit (Points.adr p);
  Points.first_kills := F64.lit (Points.first_kills p);
  Points.first_deaths := F64.lit (Points.first_deaths p);
  Points.rating := F64.lit (Points.rating p)
|}.

(** The duelist's ordinary match: 20 kills, 10 deaths, 5 assists, ACS
    250, KAST 72, ADR 150.5, 3 first kills, 2 first deaths, rating 1.2. *)
Definition duelist_match : Points.stats := held Examples.duelist_match.

(** A duelist on whom the two ways of writing the duelist bonus
    differ. *)
Definition uneven_duelist : Points.stats := held {|
  Points.role := Some "duelist"%string;
  Points.kills := 36; Points.deaths := 19; Points.assists := 14;
  Points.acs := 150.8; Points.kast := 30.01; Points.adr := 140.12;
  Points.first_kills := 5; Points.first_deaths := 21; Points.rating := 1
|}.

(** A per-match row as it is stored: the five float columns hold
    doubles. *)
Definition held_row (r : match_row) : match_row := {|
  mr_player_id := mr_player_id r; mr_tournament_id := mr_tournament_id r;
  mr_match_id := mr_match_id r; mr_match_url := mr_match_url r;
  mr_ign := mr_ign r; mr_team := mr_team r; mr_team_abbr := mr_team_abbr r;
  mr_region := mr_region r; mr_role := mr_role r; mr_agent := mr_agent r;
  mr_rating := F64.lit (mr_rating r); mr_acs := F64.lit (mr_acs r);
  mr_kills := mr_kills r; mr_deaths := mr_deaths r; mr_assists := mr_assists r;
  mr_kd_diff := mr_kd_diff r; mr_kast := F64.lit (mr_kast r);
  mr_adr := F64.lit (mr_adr r); mr_headshot_pct := F64.lit (mr_headshot_pct r);
  mr_first_kills := mr_first_kills r; mr_first_deaths := mr_first_deaths r;
  mr_fk_diff := mr_fk_diff r; mr_vlr_url := mr_vlr_url r;
  mr_match_team := mr_match_team r; mr_stats_incomplete := mr_stats_incomplete r;
  mr_missing_fields := mr_missing_fields r
|}.

Definition strong_match : match_row := held_row Examples.strong_match.
Definition weak_match : match_row := held_row Examples.weak_match.
Definition incomplete_match : match_row := held_row Examples.incomplete_match.

(** Four matches of one player with the ratings 0.83, 0.51, 1.64 and
    0.55, and the same four with the last two exchanged. *)
Definition rated (match_id : string) (rating : Q) : match_row :=
  held_row (Examples.match_row_of match_id 200 15 12 4 70 130 2 2 rating 0 "").

Definition four_ratings : list match_row :=
  [rated "201" 0.83; rated "202" 0.51; rated "203" 1.64; rated "204" 0.55].

Definition four_ratings_reordered : list match_row :=
  [rated "201" 0.83; rated "202" 0.51; rated "204" 0.55; rated "203" 1.64].

(** The small league after the three matches of aspas were scraped. *)
Definition scraped : site := {|
  core := core Cases.scraped;
  seq_match_results := seq_match_results Cases.scraped;
  seq_point_adjustments := seq_point_adjustments Cases.scraped;
  seq_trades := seq_trades Cases.scraped;
  matches := matches Cases.scraped;
  seq_matches := seq_matches Cases.scraped;
  match_player_stats :=
    [{| sr_id := 1; sr_data := strong_match |};
     {| sr_id := 2; sr_data := weak_match |};
     {| sr_id := 3; sr_data := incomplete_match |}];
  seq_match_player_stats := seq_match_player_stats Cases.scraped;
  player_adjustments := player_adjustments Cases.scraped;
  seq_player_adjustments := seq_player_adjustments Cases.scraped
|}.

(** The small league with the star of team 1 at 100.03 points. *)
Definition close_league : db :=
  set_players Examples.small_league
    (<[("p_a"%string, 1%Z) := Examples.leaderboard_row "p_a" (F64.lit 100.03) 0]>
       (players Examples.small_league)).

End Cases64.

(* ===================================================================== *)
(** * Facts about the Python operators                                   *)
(* ===================================================================== *)

Module PyFacts.

Lemma Qltb_true (x y : Q) : Qltb x y = true <-> x < y.
Proof.
  unfold Qltb. rewrite negb_true_iff, <- not_true_iff_false, Qle_bool_iff.
  split; [apply Qnot_le_lt | apply Qlt_not_le].
Qed.

Lemma Qltb_false (x y : Q) : Qltb x y = false <-> y <= x.
Proof.
  unfold Qltb. rewrite negb_false_iff. apply Qle_bool_iff.
Qed.

Lemma Qle_bool_false (x y : Q) : Qle_bool x y = false <-> y < x.
Proof.
  rewrite <- not_true_iff_false, Qle_bool_iff.
  split; [apply Qnot_le_lt | apply Qlt_not_le].
Qed.

Lemma Qeq_bool_false (x y : Q) : Qeq_bool x y = false <-> ~ x == y.
Proof.
  rewrite <- not_true_iff_false, Qeq_bool_iff. tauto.
Qed.

Lemma div_ok (x y : Q) : ~ y == 0 -> div x y = Ok (x / y).
Proof.
  intros H. unfold div. apply Qeq_bool_false in H. now rewrite H.
Qed.

Lemma div_raises (x y : Q) : y == 0 -> div x y = Raise ZeroDivisionError.
Proof.
  intros H. unfold div. apply Qeq_bool_iff in H. now rewrite H.
Qed.

#[global] Instance round_half_even_comp : Proper (Qeq ==> eq) round_half_even.
Proof.
  intros x y E. unfold round_half_even.
  rewrite (Qfloor_comp _ _ E).
  assert (Ec : Qcompare (x - inject_Z (Qfloor y)) 0.5
               = Qcompare (y - inject_Z (Qfloor y)) 0.5)
    by (now rewrite E).
  now rewrite Ec.
Qed.

#[global] Instance round_comp : Proper (Qeq ==> eq ==> Qeq) round.
Proof.
  intros x y E n ? <-. unfold round.
  assert (E' : x * pow10 n == y * pow10 n) by (now rewrite E).
  now rewrite (round_half_even_comp _ _ E').
Qed.

Lemma round_half_even_Z (k : Z) : round_half_even (inject_Z k) = k.
Proof.
  unfold round_half_even. rewrite Qfloor_Z.
  assert (E : Qcompare (inject_Z k - inject_Z k) 0.5 = Lt).
  { assert (E0 : inject_Z k - inject_Z k == 0) by ring.
    now rewrite E0. }
  now rewrite E.
Qed.

Lemma pow10_pos (n : nat) : 0 < pow10 n.
Proof.
  unfold pow10. change 0 with (inject_Z 0). rewrite <- Zlt_Qlt.
  apply Z.pow_pos_nonneg; lia.
Qed.

Lemma pow10_nonzero (n : nat) : ~ pow10 n == 0.
Proof.
  intros E. pose proof (pow10_pos n) as H. rewrite E in H.
  exact (Qlt_irrefl _ H).
Qed.

(** A value that already has [n] decimals is left alone by [round]. *)
Lemma round_decimal (k : Z) (n : nat) :
  round (inject_Z k / pow10 n) n == inject_Z k / pow10 n.
Proof.
  unfold round.
  assert (E : inject_Z k / pow10 n * pow10 n == inject_Z k).
  { field. apply pow10_nonzero. }
  now rewrite (round_half_even_comp _ _ E), round_half_even_Z.
Qed.

Lemma round_idempotent (x : Q) (n : nat) : round (round x n) n == round x n.
Proof.
  unfold round at 2 3. apply round_decimal.
Qed.

Lemma round_0 (n : nat) : round 0 n == 0.
Proof.
  unfold round.
  assert (E : 0 * pow10 n == inject_Z 0) by ring.
  rewrite (round_half_even_comp _ _ E), round_half_even_Z.
  field. apply pow10_nonzero.
Qed.

(** [sum] (left to right) and Σ agree. *)
Lemma fold_left_Qplus (l : list Q) (a : Q) :
  fold_left Qplus l a == a + Spec.Qsum l.
Proof.
  revert a. induction l as [|x l IH]; intros a; simpl.
  - ring.
  - rewrite IH. ring.
Qed.

Lemma sum_Qsum (l : list Q) : sum l == Spec.Qsum l.
Proof.
  unfold sum. rewrite fold_left_Qplus. ring.
Qed.

Lemma fold_left_Zplus (l : list Z) (a : Z) :
  fold_left Z.add l a = (a + Spec.Zsum l)%Z.
Proof.
  revert a. induction l as [|x l IH]; intros a; simpl.
  - lia.
  - rewrite IH. lia.
Qed.

Lemma sumZ_Zsum (l : list Z) : sumZ l = Spec.Zsum l.
Proof.
  unfold sumZ. now rewrite fold_left_Zplus.
Qed.

Lemma Qsum_perm (l l' : list Q) : Permutation l l' -> Spec.Qsum l == Spec.Qsum l'.
Proof.
  induction 1; simpl.
  - reflexivity.
  - now rewrite IHPermutation.
  - ring.
  - now rewrite IHPermutation1.
Qed.

End PyFacts.

(* ===================================================================== *)
(** * The points engine                                                  *)
(* ===================================================================== *)

Module PointsFacts.

Import Points PyFacts.

Ltac unfold_result := unfold mbind, result_bind, mret, result_ret in *.

Lemma deaths_or_1_nonzero (p : stats) : ~ deaths_or_1 p == 0.
Proof.
  unfold deaths_or_1. destruct (Qeq_bool (deaths p) 0) eqn:E.
  - discriminate.
  - now apply Qeq_bool_false.
Qed.

Lemma deaths_or_1_clamped (p : stats) : deaths_or_1 p = Spec.clamped_deaths p.
Proof. reflexivity. Qed.

Lemma effective_role_scored (p : stats) (role_arg : option string) :
  effective_role p role_arg = Spec.scored_role p role_arg.
Proof.
  unfold effective_role, Spec.scored_role.
  destruct role_arg as [[|c r]|]; simpl; now destruct (role p).
Qed.

Lemma kast_dec_fraction (p : stats) : kast_dec p = Spec.kastFraction p.
Proof.
  unfold kast_dec, Spec.kastFraction, Qltb.
  now destruct (Qle_bool (kast p) 0).
Qed.

Lemma kast_dec_nonneg (p : stats) : 0 <= kast_dec p.
Proof.
  unfold kast_dec. destruct (Qltb 0 (kast p)) eqn:E.
  - apply Qltb_true in E. apply Qlt_le_weak.
    apply Qlt_shift_div_l; [reflexivity|]. now rewrite Qmult_0_l.
  - apply Qle_refl.
Qed.

Lemma safe_kad_pos (ka_d : Q) : 0 < safe_kad ka_d.
Proof.
  unfold safe_kad. destruct (Qltb 0 ka_d) eqn:E.
  - now apply Qltb_true.
  - reflexivity.
Qed.

Lemma safe_kast_pos (p : stats) : 0 < safe_kast p.
Proof.
  unfold safe_kast. destruct (Qltb 0 (kast_dec p)) eqn:E.
  - now apply Qltb_true.
  - reflexivity.
Qed.

Lemma pos_nonzero (x : Q) : 0 < x -> ~ x == 0.
Proof.
  intros H E. rewrite E in H. exact (Qlt_irrefl _ H).
Qed.

Lemma safe_kad_spec (p : stats) :
  safe_kad ((kills p + assists p) / deaths_or_1 p)
  = Spec.kad_safe p (Spec.clamped_deaths p).
Proof.
  unfold safe_kad, Spec.kad_safe, Spec.kad, Qltb.
  rewrite deaths_or_1_clamped.
  now destruct (Qle_bool _ 0).
Qed.

Lemma safe_kast_spec (p : stats) : safe_kast p = Spec.kastFraction_safe p.
Proof.
  unfold safe_kast, Spec.kastFraction_safe, Qltb. rewrite kast_dec_fraction.
  now destruct (Qle_bool _ 0).
Qed.

(** [_initiator] returns, with the value of the specification's formula. *)
Lemma _initiator_ok (p : stats) :
  _initiator p ((kills p + assists p) / deaths_or_1 p)
  = Ok (Spec.initiatorBonus p (Spec.clamped_deaths p)).
Proof.
  unfold _initiator.
  rewrite (div_ok _ _ (pos_nonzero _ (safe_kad_pos _))).
  unfold_result.
  rewrite (div_ok _ _ (pos_nonzero _ (safe_kast_pos _))).
  now rewrite safe_kad_spec, safe_kast_spec.
Qed.

Lemma base_raw_spec (p : stats) : base_raw p == Spec.base p (Spec.clamped_deaths p).
Proof.
  unfold base_raw, Spec.base. rewrite kast_dec_fraction, deaths_or_1_clamped.
  ring.
Qed.

Lemma _duelist_spec (p : stats) : _duelist p == Spec.duelistBonus p.
Proof.
  unfold _duelist, Spec.duelistBonus. ring.
Qed.

Lemma _controller_spec (p : stats) :
  _controller p ((kills p + assists p) / deaths_or_1 p)
  = Spec.controllerBonus p (Spec.clamped_deaths p).
Proof. reflexivity. Qed.

Lemma _sentinel_spec (p : stats) : _sentinel p = Spec.sentinelBonus p.
Proof. reflexivity. Qed.

(** The engine as one equation: it returns, and what it returns. *)
Lemma calculate_player_points_eq (p : stats) (role_arg : option string) :
  exists res,
    calculate_player_points p role_arg = Ok res
    /\ Spec.points_eq res
         (Spec.score p (Spec.clamped_deaths p) (Spec.scored_role p role_arg)).
Proof.
  unfold calculate_player_points.
  rewrite (div_ok _ _ (deaths_or_1_nonzero p)).
  rewrite effective_role_scored.
  unfold_result. unfold Spec.score.
  set (r := Spec.scored_role p role_arg).
  set (d := Spec.clamped_deaths p).
  pose proof (base_raw_spec p) as Hb. fold d in Hb.
  destruct (String.eqb r "duelist").
  { eexists; split; [reflexivity|].
    unfold Spec.points_eq; simpl.
    now rewrite Hb, _duelist_spec. }
  destruct (String.eqb r "initiator").
  { rewrite _initiator_ok. eexists; split; [reflexivity|].
    unfold Spec.points_eq; simpl. fold d.
    now rewrite Hb. }
  destruct (String.eqb r "controller").
  { eexists; split; [reflexivity|].
    unfold Spec.points_eq; simpl. rewrite _controller_spec. fold d.
    now rewrite Hb. }
  destruct (String.eqb r "sentinel").
  { eexists; split; [reflexivity|].
    unfold Spec.points_eq; simpl. rewrite _sentinel_spec.
    now rewrite Hb. }
  destruct (String.eqb r "flex").
  { rewrite _initiator_ok. eexists; split; [reflexivity|].
    unfold Spec.points_eq; simpl.
    rewrite _controller_spec, _sentinel_spec, kast_dec_fraction. fold d.
    now rewrite Hb, _duelist_spec. }
  eexists; split; [reflexivity|].
  unfold Spec.points_eq; simpl.
  rewrite Hb. split; [reflexivity|]. split; [apply round_0 | reflexivity].
Qed.

End PointsFacts.

Module PointsClaims.

Import Points PyFacts PointsFacts.



(** C7.  [calculate_player_points] returns for every record and role
    argument: no division raises.  A deaths value of 0 is replaced by 1
    before the ratio [(kills + assists) / deaths] is computed, so that
    denominator is never zero; the two denominators of the initiator
    bonus are positive, a KAD or a KAST fraction that is zero or negative
    being replaced by 0.001 and 0.01; every other denominator is a
    non-zero literal. *)
Theorem calculate_player_points_total (p : stats) (role_arg : option string) :
  (exists res, calculate_player_points p role_arg = Ok res)
  /\ (deaths p == 0 -> deaths_or_1 p = 1)
  /\ ~ deaths_or_1 p == 0
  /\ div (kills p + assists p) (deaths_or_1 p)
     = Ok ((kills p + assists p) / deaths_or_1 p)
  /\ (forall ka_d,
        0 < safe_kad ka_d
        /\ (ka_d <= 0 -> safe_kad ka_d = 0.001)
        /\ 0 < safe_kast p
        /\ (kast_dec p <= 0 -> safe_kast p = 0.01)
        /\ exists bonus, _initiator p ka_d = Ok bonus).
Proof.
  split.
  { destruct (calculate_player_points_eq p role_arg) as (res & E & _). eauto. }
  split.
  { intros H. unfold deaths_or_1. apply Qeq_bool_iff in H. now rewrite H. }
  split; [apply deaths_or_1_nonzero|].
  split; [apply div_ok, deaths_or_1_nonzero|].
  intros ka_d.
  split; [apply safe_kad_pos|].
  split.
  { intros H. unfold safe_kad. apply Qltb_false in H. now rewrite H. }
  split; [apply safe_kast_pos|].
  split.
  { intros H. unfold safe_kast. apply Qltb_false in H. now rewrite H. }
  unfold _initiator.
  rewrite (div_ok _ _ (pos_nonzero _ (safe_kad_pos _))).
  unfold_result.
  rewrite (div_ok _ _ (pos_nonzero _ (safe_kast_pos _))).
  eauto.
Qed.

End PointsClaims.

(* ===================================================================== *)
(** * The row parser                                                     *)
(* ===================================================================== *)

Module ParserClaims.

Import Scraper PyFacts.

Lemma normalise_kast_fraction (kast_raw : Q) :
  0 < kast_raw -> kast_raw <= 1.5 -> normalise_kast kast_raw = kast_raw * 100.
Proof.
  intros H0 H1. unfold normalise_kast.
  apply Qltb_true in H0. apply Qle_bool_iff in H1. now rewrite H0, H1.
Qed.

Lemma normalise_kast_percent (kast_raw : Q) :
  ~ (0 < kast_raw /\ kast_raw <= 1.5) -> normalise_kast kast_raw = kast_raw.
Proof.
  intros H. unfold normalise_kast.
  destruct (Qltb 0 kast_raw) eqn:E0; [|reflexivity].
  destruct (Qle_bool kast_raw 1.5) eqn:E1; [|reflexivity].
  exfalso. apply H. split; [now apply Qltb_true | now apply Qle_bool_iff].
Qed.

Lemma parsed_kast (row : row_cells) (match_id match_url : string) (tournament_id : Z)
    (r : match_row) :
  _parse_row_by_class row match_id match_url tournament_id = Some r ->
  mr_kast r = normalise_kast (from_option snd 0 (c_kast row)).
Proof.
  unfold _parse_row_by_class. intros H.
  destruct (negb (str_truthy (c_ign row))); [discriminate|].
  match type of H with (if ?c then _ else _) = _ => destruct c end;
    [discriminate|].
  now injection H as <-.
Qed.

(** C6.  For every table row that the parser keeps, with [kast_raw] the
    number read from its KAST cell: when [0 < kast_raw <= 1.5] the stored
    KAST is [kast_raw * 100], otherwise it is [kast_raw] unchanged.  So
    0.8 is stored as 80, 80 as 80, 1.4 as 140, 1.5 as 150, and every value
    above 1.5 as itself. *)
Theorem kast_normalisation (row : row_cells) (match_id match_url : string)
    (tournament_id : Z) (r : match_row) :
  _parse_row_by_class row match_id match_url tournament_id = Some r ->
  let kast_raw := from_option snd 0 (c_kast row) in
  (0 < kast_raw /\ kast_raw <= 1.5 -> mr_kast r = kast_raw * 100)
  /\ (~ (0 < kast_raw /\ kast_raw <= 1.5) -> mr_kast r = kast_raw)
  /\ (kast_raw == 0.8 -> mr_kast r == 80)
  /\ (kast_raw == 80 -> mr_kast r == 80)
  /\ (kast_raw == 1.4 -> mr_kast r == 140)
  /\ (kast_raw == 1.5 -> mr_kast r == 150)
  /\ (1.5 < kast_raw -> mr_kast r = kast_raw).
Proof.
  intros H kast_raw. rewrite (parsed_kast _ _ _ _ _ H). fold kast_raw.
  assert (Hin : forall v : Q, 0 < v -> v <= 1.5 -> kast_raw == v ->
                              normalise_kast kast_raw == v * 100).
  { intros v H0 H1 E. rewrite normalise_kast_fraction.
    - now rewrite E.
    - now rewrite E.
    - now rewrite E. }
  split; [intros []; now apply normalise_kast_fraction|].
  split; [apply normalise_kast_percent|].
  split; [intros E; now rewrite (Hin 0.8)|].
  split.
  { intros E. rewrite normalise_kast_percent; [exact E|].
    intros [_ H1]. rewrite E in H1. now apply H1. }
  split; [intros E; now rewrite (Hin 1.4)|].
  split; [intros E; now rewrite (Hin 1.5)|].
  intros H1. apply normalise_kast_percent. intros [_ H2].
  exact (Qlt_irrefl _ (Qlt_le_trans _ _ _ H1 H2)).
Qed.

(** The row with KAST cell [0.8] is kept and stored with KAST 80. *)
Lemma kast_normalisation_witness :
  exists r,
    _parse_row_by_class Examples.fraction_cells "m1" "https://www.vlr.gg/1/m" 1
    = Some r
    /\ mr_kast r == 80.
Proof.
  eexists. split; [reflexivity|].
  refine (proj1 (proj2 (proj2
    (kast_normalisation Examples.fraction_cells "m1" "https://www.vlr.gg/1/m" 1 _
       eq_refl))) _).
  reflexivity.
Defined.

End ParserClaims.

(* ===================================================================== *)
(** * The aggregator                                                     *)
(* ===================================================================== *)

Module AggregatorFacts.

Import Scraper Invariants PyFacts PointsFacts.

Lemma match_points_ok (role : string) (r : match_row) :
  Points.calculate_player_points (pdata role r) None = Ok (Spec.match_points role r).
Proof.
  unfold Spec.match_points.
  destruct (calculate_player_points_eq (pdata role r) None) as (res & E & _).
  now rewrite E.
Qed.

(** The total of a match is a value rounded to 2 decimals. *)
Lemma match_points_total_rounded (role : string) (r : match_row) :
  exists x, (Spec.match_points role r).2 = round x 2.
Proof.
  pose proof (match_points_ok role r) as E.
  unfold Points.calculate_player_points in E.
  rewrite (div_ok _ _ (deaths_or_1_nonzero _)) in E.
  unfold_result.
  repeat match type of E with
         | context [if ?c then _ else _] => destruct c
         end;
    try rewrite _initiator_ok in E;
    injection E as <-; simpl; eauto.
Qed.

(** The accumulation loop returns the sums over the complete rows. *)
Lemma points_loop_spec (role : string) (rows : list match_row) (acc : Q * Q * Q) :
  exists res,
    points_loop role rows acc = Ok res
    /\ res.1.1 == acc.1.1
         + Spec.Qsum (map (fun r => (Spec.match_points role r).1.1) (Spec.complete rows))
    /\ res.1.2 == acc.1.2
         + Spec.Qsum (map (fun r => (Spec.match_points role r).1.2) (Spec.complete rows))
    /\ res.2 == acc.2
         + Spec.Qsum (map (fun r => (Spec.match_points role r).2) (Spec.complete rows)).
Proof.
  revert acc. induction rows as [|r rows IH]; intros [[tb tr] tp]; simpl.
  - eexists; split; [reflexivity|]. simpl. repeat split; ring.
  - unfold truthy. destruct (mr_stats_incomplete r =? 0)%Z; simpl.
    + rewrite match_points_ok. unfold_result.
      destruct (Spec.match_points role r) as [[bp rp] tp'] eqn:E.
      destruct (IH (tb + bp, tr + rp, tp + tp')) as (res & -> & H1 & H2 & H3).
      eexists; split; [reflexivity|]. simpl in *.
      rewrite H1, H2, H3. repeat split; ring.
    + apply IH.
Qed.

Lemma points_loop_zero (role : string) (rows : list match_row) :
  exists tb tr tp,
    points_loop role rows (0, 0, 0) = Ok (tb, tr, tp)
    /\ tb == Spec.Qsum (map (fun r => (Spec.match_points role r).1.1) (Spec.complete rows))
    /\ tr == Spec.Qsum (map (fun r => (Spec.match_points role r).1.2) (Spec.complete rows))
    /\ tp == Spec.Qsum (map (fun r => (Spec.match_points role r).2) (Spec.complete rows)).
Proof.
  destruct (points_loop_spec role rows (0, 0, 0)) as ([[tb tr] tp] & E & H1 & H2 & H3).
  exists tb, tr, tp. cbn [fst snd] in H1, H2, H3.
  rewrite Qplus_0_l in H1, H2, H3. auto.
Qed.

Lemma length_nonzero {A : Type} (x : A) (l : list A) :
  ~ inject_Z (Z.of_nat (length (x :: l))) == 0.
Proof.
  change 0 with (inject_Z 0). rewrite inject_Z_injective. simpl length. lia.
Qed.

Lemma max_1_nonzero (z : Z) : ~ inject_Z (Z.max z 1) == 0.
Proof.
  change 0 with (inject_Z 0). rewrite inject_Z_injective. lia.
Qed.

Lemma average_sum {A : Type} (f : A -> Q) (rows : list A) :
  sum (map f rows) / inject_Z (Z.of_nat (length rows)) == Spec.average (map f rows).
Proof.
  unfold Spec.average. now rewrite sum_Qsum, length_map.
Qed.

(** One bucket: the aggregator returns a row, and the row is what the
    specification asks for. *)
Lemma aggregate_bucket_spec (pid : string) (rows : list match_row) :
  rows <> [] ->
  exists a,
    aggregate_bucket pid rows = Ok a
    /\ pd_player_id (agg_player a) = pid
    /\ Spec.aggregates rows (agg_player a).
Proof.
  destruct rows as [|base rest]; [congruence|]. intros _.
  unfold aggregate_bucket.
  set (rows := base :: rest).
  repeat (rewrite (div_ok _ (inject_Z (Z.of_nat (length rows))))
            by apply length_nonzero; unfold_result).
  repeat (rewrite (div_ok _ (inject_Z (Z.max _ 1))) by apply max_1_nonzero;
          unfold_result).
  destruct (points_loop_zero (mr_role base) rows) as (tb & tr & tp & -> & H1 & H2 & H3).
  eexists; split; [reflexivity|]. split; [reflexivity|].
  change (mr_role base) with (Spec.role_of rows) in H1, H2, H3.
  constructor;
    cbn [agg_player pd_base_points pd_role_points pd_fantasy_points
         pd_matches_played pd_kills pd_deaths pd_assists pd_first_kills
         pd_first_deaths pd_rating pd_acs pd_kast pd_adr pd_headshot_pct];
    rewrite ?sumZ_Zsum, ?average_sum, ?H1, ?H2, ?H3; reflexivity.
Qed.

(** ** Grouping *)

Lemma rows_of_app (pid : string) (l l' : list match_row) :
  Spec.rows_of pid (l ++ l') = Spec.rows_of pid l ++ Spec.rows_of pid l'.
Proof. apply List.filter_app. Qed.

Lemma rows_of_snoc (k : string) (seen : list match_row) (row : match_row) :
  Spec.rows_of k (seen ++ [row])
  = Spec.rows_of k seen ++ (if String.eqb (mr_player_id row) k then [row] else []).
Proof.
  rewrite rows_of_app. reflexivity.
Qed.

Lemma bucket_append_rows (row : match_row) (seen : list match_row)
    (buckets : list (string * list match_row)) :
  NoDup (map fst buckets) ->
  Forall (fun b => b.2 = Spec.rows_of b.1 seen /\ b.2 <> []) buckets ->
  (mr_player_id row ∉ map fst buckets ->
   Spec.rows_of (mr_player_id row) seen = []) ->
  Forall (fun b => b.2 = Spec.rows_of b.1 (seen ++ [row]) /\ b.2 <> [])
         (bucket_append (mr_player_id row) row buckets).
Proof.
  induction buckets as [|[k rows] rest IH]; intros HN HF Hnew.
  - constructor; [|constructor]. simpl. rewrite rows_of_snoc.
    rewrite Hnew by apply not_elem_of_nil.
    rewrite String.eqb_refl. now split.
  - cbn [map fst] in HN, Hnew.
    apply NoDup_cons in HN as [Hk HN].
    apply Forall_cons in HF as [[E Hne] HF]. cbn [fst snd] in E, Hne.
    cbn [bucket_append].
    destruct (String.eqb k (mr_player_id row)) eqn:Ek.
    + apply String.eqb_eq in Ek. subst k. constructor.
      * cbn [fst snd]. rewrite rows_of_snoc, String.eqb_refl, <- E.
        split; [reflexivity|]. now destruct rows.
      * apply Forall_forall. intros [k' rows'] Hin.
        destruct (proj1 (Forall_forall _ _) HF _ Hin) as [E' Hne'].
        cbn [fst snd] in *. split; [|exact Hne'].
        rewrite rows_of_snoc.
        destruct (String.eqb (mr_player_id row) k') eqn:Ek'.
        -- apply String.eqb_eq in Ek'. subst k'. exfalso.
           apply Hk. apply list_elem_of_fmap. now exists (mr_player_id row, rows').
        -- now rewrite app_nil_r.
    + apply String.eqb_neq in Ek. constructor.
      * cbn [fst snd]. rewrite rows_of_snoc.
        destruct (String.eqb (mr_player_id row) k) eqn:Ek'.
        -- apply String.eqb_eq in Ek'. congruence.
        -- now rewrite app_nil_r.
      * apply IH; [exact HN | exact HF |].
        intros Hn. apply Hnew. rewrite not_elem_of_cons. split; [congruence | exact Hn].
Qed.

Lemma bucket_append_keys (pid : string) (row : match_row)
    (buckets : list (string * list match_row)) :
  map fst (bucket_append pid row buckets)
  = if bool_decide (pid ∈ map fst buckets) then map fst buckets
    else map fst buckets ++ [pid].
Proof.
  induction buckets as [|[k rows] rest IH]; [reflexivity|].
  cbn [bucket_append map fst].
  destruct (String.eqb k pid) eqn:Ek.
  - apply String.eqb_eq in Ek. subst k.
    rewrite bool_decide_eq_true_2 by apply list_elem_of_here. reflexivity.
  - apply String.eqb_neq in Ek. cbn [map fst]. rewrite IH.
    destruct (bool_decide (pid ∈ map fst rest)) eqn:Eb.
    + apply bool_decide_eq_true in Eb.
      rewrite bool_decide_eq_true_2 by (now apply list_elem_of_further). reflexivity.
    + apply bool_decide_eq_false in Eb.
      rewrite bool_decide_eq_false_2; [reflexivity|].
      rewrite not_elem_of_cons. split; [congruence|exact Eb].
Qed.

Lemma rows_of_nil_unseen (pid : string) (seen : list match_row) :
  Forall (fun r => mr_player_id r <> pid) seen -> Spec.rows_of pid seen = [].
Proof.
  induction 1 as [|r seen Hr _ IH]; [reflexivity|].
  unfold Spec.rows_of in *. simpl. apply String.eqb_neq in Hr. now rewrite Hr.
Qed.

Lemma grouped_step (seen : list match_row) (row : match_row)
    (buckets : list (string * list match_row)) :
  grouped seen buckets ->
  grouped (seen ++ [row]) (bucket_append (mr_player_id row) row buckets).
Proof.
  intros (HN & HF & HS). split; [|split].
  - rewrite bucket_append_keys. case_bool_decide as Hin; [exact HN|].
    apply NoDup_app. split; [exact HN|]. split.
    + intros x Hx Hx'. apply list_elem_of_singleton in Hx'. now subst.
    + apply NoDup_singleton.
  - apply bucket_append_rows; [exact HN | exact HF |].
    intros Hn. apply rows_of_nil_unseen.
    apply (Forall_impl _ _ _ HS). intros r Hr E. apply Hn. now rewrite <- E.
  - rewrite bucket_append_keys. apply Forall_app. split.
    + apply (Forall_impl _ _ _ HS). intros r Hr.
      case_bool_decide; [exact Hr|]. apply elem_of_app. now left.
    + constructor; [|constructor].
      case_bool_decide as Hin; [exact Hin|]. apply elem_of_app. right.
      apply list_elem_of_here.
Qed.

Lemma group_rows_from (rows seen : list match_row)
    (buckets : list (string * list match_row)) :
  grouped seen buckets ->
  grouped (seen ++ rows)
          (fold_left (fun buckets row => bucket_append (mr_player_id row) row buckets)
                     rows buckets).
Proof.
  revert seen buckets. induction rows as [|row rows IH]; intros seen buckets H.
  - now rewrite app_nil_r.
  - simpl. replace (seen ++ row :: rows) with ((seen ++ [row]) ++ rows)
      by (now rewrite <- app_assoc).
    apply IH. now apply grouped_step.
Qed.

Lemma group_rows_grouped (rows : list match_row) : grouped rows (group_rows rows).
Proof.
  apply (group_rows_from rows [] []).
  split; [apply NoDup_nil_2|]. split; constructor.
Qed.

Lemma aggregate_buckets_spec (buckets : list (string * list match_row)) :
  Forall (fun b => b.2 <> []) buckets ->
  exists out,
    aggregate_buckets buckets = Ok out
    /\ Forall2 (fun b a => pd_player_id (agg_player a) = b.1
                           /\ Spec.aggregates b.2 (agg_player a)) buckets out.
Proof.
  induction 1 as [|[pid rows] rest Hne _ (out & E & IH)]; simpl.
  - exists []. split; [reflexivity | constructor].
  - destruct (aggregate_bucket_spec pid rows Hne) as (a & -> & Hp & Ha).
    unfold_result. rewrite E. exists (a :: out). split; [reflexivity|].
    constructor; [now split | exact IH].
Qed.

(** The aggregator as a whole: it returns one row per player, in the
    order of first appearance, each built from all of the player's rows. *)
Lemma aggregate_player_stats_spec (rows : list match_row) :
  exists out,
    aggregate_player_stats rows = Ok out
    /\ NoDup (map (fun a => pd_player_id (agg_player a)) out)
    /\ (forall r, r ∈ rows ->
          exists a, a ∈ out /\ pd_player_id (agg_player a) = mr_player_id r)
    /\ (forall a, a ∈ out ->
          Spec.rows_of (pd_player_id (agg_player a)) rows <> []
          /\ Spec.aggregates (Spec.rows_of (pd_player_id (agg_player a)) rows)
                             (agg_player a)).
Proof.
  destruct (group_rows_grouped rows) as (HN & HF & HS).
  unfold aggregate_player_stats.
  destruct (aggregate_buckets_spec (group_rows rows)) as (out & E & H2).
  { apply (Forall_impl _ _ _ HF). tauto. }
  exists out. split; [exact E|].
  assert (Hkeys : map (fun a => pd_player_id (agg_player a)) out
                  = map fst (group_rows rows)).
  { clear -H2. induction H2 as [|b a bs out' [Hp _] _ IH]; [reflexivity|].
    simpl. now rewrite Hp, IH. }
  split; [now rewrite Hkeys|]. split.
  - intros r Hr.
    pose proof (proj1 (Forall_forall _ _) HS r Hr) as Hin.
    rewrite <- Hkeys in Hin. apply list_elem_of_fmap in Hin as (a & Ea & Ha).
    exists a. now split.
  - intros a Ha.
    apply list_elem_of_lookup in Ha as (i & Hi).
    destruct (Forall2_lookup_r _ _ _ _ _ H2 Hi) as (b & Hb & Hp & Hagg).
    apply list_elem_of_lookup_2 in Hb.
    destruct (proj1 (Forall_forall _ _) HF b Hb) as [Eb Hne].
    rewrite Hp, <- Eb. now split.
Qed.

End AggregatorFacts.

Module AggregatorClaims.

Import Scraper PyFacts PointsFacts AggregatorFacts.



(** C3.  There are two complete per-match records of one player, with
    different ACS and KAST, such that the sum of the two per-match totals
    (which is what the aggregator stores, 135.38) differs from the single
    total obtained by scoring once the summed and averaged statistics of
    the two matches (51.33). *)
Theorem per_match_sum_differs :
  exists (r1 r2 : match_row) (a : aggregate) (t1 t2 t : Q),
    mr_player_id r1 = mr_player_id r2
    /\ mr_stats_incomplete r1 = 0%Z /\ mr_stats_incomplete r2 = 0%Z
    /\ ~ mr_acs r1 == mr_acs r2 /\ ~ mr_kast r1 == mr_kast r2
    /\ (Spec.match_points (mr_role r1) r1).2 = t1
    /\ (Spec.match_points (mr_role r1) r2).2 = t2
    /\ aggregate_player_stats [r1; r2] = Ok [a]
    /\ pd_fantasy_points (agg_player a) == t1 + t2
    /\ (exists b rb, Spec.sum_then_score (agg_player a) = Ok (b, rb, t))
    /\ ~ t1 + t2 == t.
Proof.
  exists Examples.strong_match, Examples.weak_match.
  eexists. eexists. eexists. eexists.
  split; [reflexivity|]. split; [reflexivity|]. split; [reflexivity|].
  split; [intros H; vm_compute in H; discriminate H|].
  split; [intros H; vm_compute in H; discriminate H|].
  split; [vm_compute; reflexivity|].
  split; [vm_compute; reflexivity|].
  split; [vm_compute; reflexivity|].
  split; [vm_compute; reflexivity|].
  split; [eexists; eexists; vm_compute; reflexivity|].
  intros H; vm_compute in H; discriminate H.
Qed.

End AggregatorClaims.

(* ===================================================================== *)
(** * Standings                                                          *)
(* ===================================================================== *)

Module StandingsFacts.

Import Scraper Database PyFacts.

Section Sorting.

Context {A : Type}.

Lemma insert_by_perm (le : A -> A -> bool) (x : A) (l : list A) :
  Permutation (x :: l) (insert_by le x l).
Proof.
  induction l as [|y l IH]; simpl; [reflexivity|].
  destruct (le x y); [reflexivity|].
  rewrite perm_swap. now constructor.
Qed.

Lemma sort_by_perm (le : A -> A -> bool) (l : list A) :
  Permutation l (sort_by le l).
Proof.
  induction l as [|x l IH]; simpl; [reflexivity|].
  rewrite <- insert_by_perm. now constructor.
Qed.

Variable key : A -> Q.

Lemma insert_by_desc_sorted (x : A) (l : list A) :
  StronglySorted (fun a b => key b <= key a) l ->
  StronglySorted (fun a b => key b <= key a) (insert_by (descending key) x l).
Proof.
  induction 1 as [|y l Hs IH Hy]; simpl.
  - constructor; constructor.
  - unfold descending at 1. destruct (Qle_bool (key y) (key x)) eqn:E.
    + apply Qle_bool_iff in E. constructor; [now constructor|].
      constructor; [exact E|].
      apply (Forall_impl _ _ _ Hy). intros z Hz. now apply (Qle_trans _ (key y)).
    + apply Qle_bool_false in E. constructor; [exact IH|].
      rewrite <- insert_by_perm. constructor; [now apply Qlt_le_weak | exact Hy].
Qed.

Lemma sort_by_desc_sorted (l : list A) :
  StronglySorted (fun a b => key b <= key a) (sort_by (descending key) l).
Proof.
  induction l as [|x l IH]; simpl; [constructor|].
  now apply insert_by_desc_sorted.
Qed.

Lemma insert_by_desc_stable (v : Q) (x : A) (l : list A) :
  List.filter (fun a => Qeq_bool (key a) v) (insert_by (descending key) x l)
  = List.filter (fun a => Qeq_bool (key a) v) (x :: l).
Proof.
  induction l as [|y l IH]; [reflexivity|].
  cbn [insert_by]. unfold descending at 1.
  destruct (Qle_bool (key y) (key x)) eqn:E; [reflexivity|].
  apply Qle_bool_false in E.
  cbn [List.filter] in *. rewrite IH.
  destruct (Qeq_bool (key x) v) eqn:Ex; [|reflexivity].
  destruct (Qeq_bool (key y) v) eqn:Ey; [|reflexivity].
  apply Qeq_bool_iff in Ex, Ey. rewrite Ex, Ey in E.
  now apply Qlt_irrefl in E.
Qed.

Lemma sort_by_desc_stable (v : Q) (l : list A) :
  List.filter (fun a => Qeq_bool (key a) v) (sort_by (descending key) l)
  = List.filter (fun a => Qeq_bool (key a) v) l.
Proof.
  induction l as [|x l IH]; [reflexivity|].
  cbn [sort_by fold_right]. fold (sort_by (descending key) l).
  rewrite insert_by_desc_stable. cbn [List.filter]. now rewrite IH.
Qed.

Lemma sort_by_desc_ranked (l : list A) : Spec.ranked key l (sort_by (descending key) l).
Proof.
  split; [apply sort_by_perm|]. split; [apply sort_by_desc_sorted|].
  intros v. apply sort_by_desc_stable.
Qed.

End Sorting.

Lemma filter_perm {A : Type} (f : A -> bool) (l l' : list A) :
  Permutation l l' -> Permutation (List.filter f l) (List.filter f l').
Proof.
  induction 1 as [|x l l' _ IH|x y l|l l' l'' _ IH1 _ IH2]; simpl.
  - reflexivity.
  - destruct (f x); [now constructor | exact IH].
  - destruct (f x), (f y); try reflexivity. apply perm_swap.
  - now rewrite IH1.
Qed.

Lemma filter_filter {A : Type} (f g : A -> bool) (l : list A) :
  List.filter f (List.filter g l) = List.filter (fun x => g x && f x) l.
Proof.
  induction l as [|x l IH]; simpl; [reflexivity|].
  destruct (g x); simpl; [|exact IH]. destruct (f x); now rewrite IH.
Qed.

Lemma roster_loop_spec (roster : list (player_row * roster_entry)) (acc : Q * Q) :
  (fold_left roster_step roster acc).1 == acc.1 + Spec.Qsum (map Spec.pts roster)
  /\ (fold_left roster_step roster acc).2
     == acc.2 + Spec.Qsum (map (fun p => 0.5 * Spec.pts p)
                               (List.filter (fun p => negb (fr_is_star p.2 =? 0)%Z) roster)).
Proof.
  revert acc. induction roster as [|p roster IH]; intros [pp sb]; simpl.
  - split; ring.
  - destruct (IH (roster_step (pp, sb) p)) as [H1 H2]. rewrite H1, H2.
    unfold roster_step, truthy, Spec.pts.
    destruct (fr_is_star p.2 =? 0)%Z; simpl; split; ring.
Qed.

Lemma str_truthy_nonempty (s : string) : s <> ""%string -> str_truthy s = true.
Proof. now destruct s. Qed.

Lemma get_roster_perm (s : db) (team_id : Z) (phase : string) :
  phase <> ""%string ->
  Permutation (get_roster s team_id (Some phase)) (Spec.phase_roster s team_id phase).
Proof.
  intros H. unfold get_roster, Spec.phase_roster, join_players.
  rewrite (str_truthy_nonempty _ H), <- sort_by_perm, filter_filter.
  reflexivity.
Qed.

Lemma follow_loop_spec (results : list match_result) (pts : Q) :
  fold_left follow_step results pts == pts + Spec.Qsum (map Spec.result_points results).
Proof.
  revert pts. induction results as [|r results IH]; intros pts; simpl.
  - ring.
  - rewrite IH. unfold follow_step, Spec.result_points.
    destruct (String.eqb (res_result r) "win"), (String.eqb (res_format r) "bo3"); ring.
Qed.

Lemma follow_points_spec (s : db) (team_id tournament_id : Z) :
  Forall (fun f => fo_team_name f <> ""%string) (followed_teams s) ->
  calculate_team_follow_points s team_id tournament_id
  == Spec.followPts s team_id tournament_id.
Proof.
  intros Hn. unfold calculate_team_follow_points, Spec.followPts, Spec.followed_results.
  destruct (get_followed_team s team_id) as [f|] eqn:E; [|reflexivity].
  assert (Hf : fo_team_name f <> ""%string).
  { unfold get_followed_team, fetchone in E. apply find_some in E as [Hin _].
    apply list_elem_of_In in Hin. exact (proj1 (Forall_forall _ _) Hn f Hin). }
  unfold get_match_results. rewrite (str_truthy_nonempty _ Hf).
  rewrite follow_loop_spec, Qplus_0_l, filter_filter.
  apply Qsum_perm, Permutation_map. symmetry. apply Permutation_rev.
Qed.

Lemma total_adjustments_spec (s : db) (team_id : Z) :
  get_total_adjustments s team_id == Spec.adjPts s team_id.
Proof. apply sum_Qsum. Qed.

Lemma team_standing_total (s : db) (lg : league) (phase : string) (t : fantasy_team) :
  phase <> ""%string ->
  Forall (fun f => fo_team_name f <> ""%string) (followed_teams s) ->
  st_total_points (team_standing s lg phase t) == Spec.phase_total s lg phase t.
Proof.
  intros Hp Hn. unfold team_standing, Spec.phase_total.
  pose proof (roster_loop_spec (get_roster s (ft_id t) (Some phase)) (0, 0)) as [H1 H2].
  destruct (fold_left roster_step _ _) as [pp sb]. cbn [fst snd st_total_points] in *.
  rewrite H1, H2, !Qplus_0_l, follow_points_spec, total_adjustments_spec by exact Hn.
  unfold Spec.playerPts, Spec.starBonus.
  rewrite (Qsum_perm _ _ (Permutation_map Spec.pts (get_roster_perm s (ft_id t) phase Hp))).
  rewrite (Qsum_perm _ _ (Permutation_map (fun p => 0.5 * Spec.pts p)
             (filter_perm _ _ _ (get_roster_perm s (ft_id t) phase Hp)))).
  reflexivity.
Qed.

Lemma team_standing_team (s : db) (lg : league) (phase : string) (t : fantasy_team) :
  st_team (team_standing s lg phase t) = t.
Proof.
  unfold team_standing. now destruct (fold_left roster_step _ _).
Qed.

Lemma by_team_id_from (l : list standing) (m : gmap Z standing) (st : standing) :
  NoDup (map (fun x => ft_id (st_team x)) l) ->
  st ∈ l ->
  fold_left (fun m st => <[ft_id (st_team st) := st]> m) l m !! ft_id (st_team st)
  = Some st.
Proof.
  revert m. induction l as [|x l IH]; intros m HN Hin; [now apply elem_of_nil in Hin|].
  cbn [map] in HN. apply NoDup_cons in HN as [Hx HN]. simpl.
  apply elem_of_cons in Hin as [->|Hin]; [|now apply IH].
  clear IH. assert (Hm : <[ft_id (st_team x) := x]> m !! ft_id (st_team x) = Some x)
    by apply lookup_insert_eq.
  revert Hm. generalize (<[ft_id (st_team x) := x]> m). clear HN.
  induction l as [|y l IH]; intros m' Hm; [exact Hm|]. simpl.
  cbn [map] in Hx. apply not_elem_of_cons in Hx as [Hne Hx].
  apply IH; [exact Hx|]. rewrite lookup_insert_ne; [exact Hm | congruence].
Qed.

Lemma by_team_id_lookup (l : list standing) (st : standing) :
  NoDup (map (fun x => ft_id (st_team x)) l) -> st ∈ l ->
  by_team_id l !! ft_id (st_team st) = Some st.
Proof. apply by_team_id_from. Qed.

Lemma teams_in_league_nodup (s : db) (league_id : Z) :
  NoDup (map ft_id (fantasy_teams s)) ->
  NoDup (map ft_id (get_teams_in_league s league_id)).
Proof.
  unfold get_teams_in_league. induction (fantasy_teams s) as [|t l IH]; [trivial|].
  cbn [map]. intros HN. apply NoDup_cons in HN as [Ht HN]. simpl.
  destruct (ft_league_id t =? league_id)%Z; [|now apply IH].
  cbn [map]. apply NoDup_cons. split; [|now apply IH].
  intros Hin. apply Ht. apply list_elem_of_fmap in Hin as (t' & -> & Hin).
  apply list_elem_of_fmap. exists t'. split; [reflexivity|].
  apply list_elem_of_In. apply list_elem_of_In in Hin.
  now apply List.filter_In in Hin as [Hin _].
Qed.

Lemma phase_standings_lookup (s : db) (league_id : Z) (lg : league) (phase : string)
    (t : fantasy_team) :
  get_league s league_id = Some lg ->
  NoDup (map ft_id (fantasy_teams s)) ->
  t ∈ get_teams_in_league s league_id ->
  by_team_id (get_phase_standings s league_id phase) !! ft_id t
  = Some (team_standing s lg phase t).
Proof.
  intros Hl HN Ht. unfold get_phase_standings. rewrite Hl.
  set (l := map (team_standing s lg phase) (get_teams_in_league s league_id)).
  rewrite <- (team_standing_team s lg phase t) at 1.
  assert (Hk : map (fun x => ft_id (st_team x)) l
               = map ft_id (get_teams_in_league s league_id)).
  { unfold l. rewrite map_map. apply map_ext. intros a. now rewrite team_standing_team. }
  apply by_team_id_lookup.
  - rewrite <- (sort_by_perm _ l), Hk. now apply teams_in_league_nodup.
  - rewrite <- (sort_by_perm _ l). unfold l. apply list_elem_of_fmap. eauto.
Qed.

Lemma nonempty_names_dec (l : list followed_team) :
  forallb (fun f => str_truthy (fo_team_name f)) l = true ->
  Forall (fun f => fo_team_name f <> ""%string) l.
Proof.
  induction l as [|f l IH]; simpl; [constructor|].
  intros H. apply andb_true_iff in H as [Hf Hl].
  constructor; [|now apply IH]. intros E. now rewrite E in Hf.
Qed.

Lemma overall_row_spec (s : db) (league_id : Z) (lg : league) (t : fantasy_team) :
  get_league s league_id = Some lg ->
  NoDup (map ft_id (fantasy_teams s)) ->
  t ∈ get_teams_in_league s league_id ->
  forall o, o ∈ get_overall_standings s league_id -> ov_team o = t ->
  ov_total_points o
  = round (st_total_points (team_standing s lg "swiss" t)
           + st_total_points (team_standing s lg "playoffs" t)) 2.
Proof.
  intros Hl HN Ht o Ho Et. unfold get_overall_standings in Ho.
  rewrite <- sort_by_perm in Ho. apply list_elem_of_fmap in Ho as (t' & -> & Ht').
  cbn [ov_team] in Et. subst t'. cbn [ov_total_points].
  now rewrite !(phase_standings_lookup s league_id lg _ t Hl HN Ht).
Qed.


End StandingsFacts.

Module StandingsClaims.

Import Scraper Database PyFacts StandingsFacts.



End StandingsClaims.

(* ===================================================================== *)
(** * Roster operations and the star flag                                *)
(* ===================================================================== *)

Module RosterFacts.

Import Scraper Database Invariants PyFacts StandingsFacts.

Lemma same_cell_iff (team_id : Z) (player_id phase : string) (fr : roster_entry) :
  same_cell team_id player_id phase fr = true
  <-> Spec.cell fr = (team_id, player_id, phase).
Proof.
  unfold same_cell, Spec.cell.
  rewrite !andb_true_iff, Z.eqb_eq, !String.eqb_eq.
  split; [intros [[-> ->] ->]; reflexivity | intros [= -> -> ->]; auto].
Qed.

Lemma filter_length_le {A : Type} (f : A -> bool) (l : list A) :
  (length (List.filter f l) <= length l)%nat.
Proof.
  induction l as [|x l IH]; simpl; [lia|]. destruct (f x); simpl; lia.
Qed.

Lemma filter_comm {A : Type} (f g : A -> bool) (l : list A) :
  List.filter f (List.filter g l) = List.filter g (List.filter f l).
Proof.
  rewrite !filter_filter. apply List.filter_ext. intros x. apply andb_comm.
Qed.

Lemma unique_cells_filter (f : roster_entry -> bool) (roster : list roster_entry) :
  Spec.unique_cells roster -> Spec.unique_cells (List.filter f roster).
Proof.
  unfold Spec.unique_cells. induction roster as [|fr roster IH]; [trivial|].
  cbn [map]. intros HN. apply NoDup_cons in HN as [Hfr HN]. simpl.
  destruct (f fr); [|now apply IH]. cbn [map]. apply NoDup_cons.
  split; [|now apply IH]. intros Hin. apply Hfr.
  apply list_elem_of_fmap in Hin as (fr' & E & Hin). apply list_elem_of_fmap.
  exists fr'. split; [exact E|]. apply list_elem_of_In.
  apply list_elem_of_In in Hin. now apply List.filter_In in Hin as [Hin _].
Qed.

Lemma roster_ok_filter (f : roster_entry -> bool) (roster : list roster_entry) :
  roster_ok roster -> roster_ok (List.filter f roster).
Proof.
  intros [HU HS]. split; [now apply unique_cells_filter|].
  intros team_id phase. unfold Spec.stars_of. rewrite filter_comm.
  etransitivity; [apply filter_length_le | apply HS].
Qed.

(** A row inserted with [is_star = 0] into a free cell. *)
Lemma roster_ok_insert (teams : list fantasy_team) (roster roster' : list roster_entry)
    (seq seq' team_id tournament_id is_duplicate : Z) (player_id role_slot phase : string) :
  insert_roster teams roster seq team_id player_id tournament_id role_slot phase
                is_duplicate = Ok (roster', seq') ->
  roster_ok roster -> roster_ok roster'.
Proof.
  unfold insert_roster. intros H [HU HS].
  destruct (existsb (same_cell team_id player_id phase) roster) eqn:Ex; [discriminate|].
  destruct (negb _); [discriminate|]. injection H as <- <-. split.
  - unfold Spec.unique_cells. rewrite map_app. apply NoDup_app.
    split; [exact HU|]. split; [|apply NoDup_singleton].
    intros c Hc Hc'. apply list_elem_of_singleton in Hc'. subst c.
    apply list_elem_of_fmap in Hc as (fr & E & Hin).
    apply not_true_iff_false in Ex. apply Ex. apply existsb_exists.
    exists fr. split; [now apply list_elem_of_In|]. now apply same_cell_iff.
  - intros t ph. unfold Spec.stars_of. rewrite List.filter_app. simpl.
    rewrite andb_false_r. simpl. rewrite app_nil_r. apply HS.
Qed.

Lemma cell_with_is_star (fr : roster_entry) (v : Z) :
  Spec.cell (with_is_star fr v) = Spec.cell fr.
Proof. reflexivity. Qed.

Lemma clear_star_rows_cells (team_id : Z) (phase : string) (roster : list roster_entry) :
  map Spec.cell (clear_star_rows team_id phase roster) = map Spec.cell roster.
Proof.
  unfold clear_star_rows. rewrite map_map. apply map_ext.
  intros fr. now destruct (_ && _).
Qed.

Lemma set_star_rows_cells (team_id : Z) (player_id phase : string)
    (roster : list roster_entry) :
  map Spec.cell (set_star_rows team_id player_id phase roster) = map Spec.cell roster.
Proof.
  unfold set_star_rows. rewrite map_map. apply map_ext.
  intros fr. now destruct (same_cell _ _ _ _).
Qed.

Lemma filter_map {A B : Type} (p : B -> bool) (g : A -> B) (l : list A) :
  List.filter p (map g l) = map g (List.filter (fun x => p (g x)) l).
Proof.
  induction l as [|x l IH]; simpl; [reflexivity|].
  destruct (p (g x)); simpl; now rewrite IH.
Qed.

Lemma filter_length_mono {A : Type} (f h : A -> bool) (l : list A) :
  (forall x, In x l -> f x = true -> h x = true) ->
  (length (List.filter f l) <= length (List.filter h l))%nat.
Proof.
  induction l as [|x l IH]; intros H; simpl; [lia|].
  assert (IH' := IH (fun y Hy => H y (or_intror Hy))).
  pose proof (H x (or_introl eq_refl)) as Hx.
  destruct (f x); [rewrite Hx by reflexivity|destruct (h x)]; simpl; lia.
Qed.

Lemma filter_none {A : Type} (f : A -> bool) (l : list A) :
  (forall x, In x l -> f x = false) -> List.filter f l = [].
Proof.
  induction l as [|x l IH]; intros H; simpl; [reflexivity|].
  rewrite (H x (or_introl eq_refl)). apply IH. intros y Hy. apply H. now right.
Qed.

Ltac eqb_cases :=
  repeat match goal with
         | |- context [(?a =? ?b)%Z] => destruct (Z.eqb_spec a b)
         | |- context [String.eqb ?a ?b] => destruct (String.eqb_spec a b)
         | H : context [(?a =? ?b)%Z] |- _ => destruct (Z.eqb_spec a b)
         | H : context [String.eqb ?a ?b] |- _ => destruct (String.eqb_spec a b)
         end;
  subst; simpl in *; try congruence; try reflexivity.

(** After the first [UPDATE] of [set_star_player] the team has no star in
    that phase. *)
Lemma stars_of_clear_same (team_id : Z) (phase : string) (roster : list roster_entry) :
  Spec.stars_of team_id phase (clear_star_rows team_id phase roster) = [].
Proof.
  unfold Spec.stars_of, clear_star_rows. rewrite filter_map.
  rewrite filter_none; [reflexivity|]. intros fr _.
  destruct (fr_is_star fr =? 0)%Z eqn:Es; unfold with_is_star; eqb_cases.
Qed.

(** Clearing stars adds no star anywhere. *)
Lemma stars_of_clear_le (team_id t : Z) (phase ph : string) (roster : list roster_entry) :
  (length (Spec.stars_of t ph (clear_star_rows team_id phase roster))
   <= length (Spec.stars_of t ph roster))%nat.
Proof.
  unfold Spec.stars_of, clear_star_rows. rewrite filter_map, length_map.
  apply filter_length_mono. intros fr _.
  destruct (fr_is_star fr =? 0)%Z eqn:Es; unfold with_is_star; eqb_cases.
Qed.

Lemma one_per_cell (team_id : Z) (player_id phase : string) (roster : list roster_entry) :
  Spec.unique_cells roster ->
  (length (List.filter (same_cell team_id player_id phase) roster) <= 1)%nat.
Proof.
  unfold Spec.unique_cells. induction roster as [|fr roster IH]; [simpl; lia|].
  cbn [map]. intros HN. apply NoDup_cons in HN as [Hfr HN]. simpl.
  destruct (same_cell team_id player_id phase fr) eqn:E; [|now apply IH].
  apply same_cell_iff in E.
  assert (Hnone : List.filter (same_cell team_id player_id phase) roster = []).
  { destruct (List.filter _ roster) as [|fr' l] eqn:Ef; [reflexivity|]. exfalso.
    assert (Hin : In fr' (List.filter (same_cell team_id player_id phase) roster))
      by (rewrite Ef; now left).
    apply List.filter_In in Hin as [Hin Hc]. apply same_cell_iff in Hc.
    apply Hfr. rewrite E, <- Hc. apply list_elem_of_fmap. exists fr'.
    split; [reflexivity | now apply list_elem_of_In]. }
  rewrite Hnone. simpl. lia.
Qed.

(** After the second [UPDATE]: the stars of the team in that phase are the
    entries of the named player. *)
Lemma stars_of_set_same (team_id : Z) (player_id phase : string)
    (roster : list roster_entry) :
  Spec.stars_of team_id phase roster = [] ->
  Spec.stars_of team_id phase (set_star_rows team_id player_id phase roster)
  = map (fun fr => with_is_star fr 1)
        (List.filter (same_cell team_id player_id phase) roster).
Proof.
  intros Hnone. unfold Spec.stars_of, set_star_rows. rewrite filter_map.
  assert (E : List.filter
                (fun x => (fr_fantasy_team_id
                             (if same_cell team_id player_id phase x
                              then with_is_star x 1 else x) =? team_id)%Z
                          && String.eqb
                               (fr_phase (if same_cell team_id player_id phase x
                                          then with_is_star x 1 else x)) phase
                          && negb (fr_is_star
                                     (if same_cell team_id player_id phase x
                                      then with_is_star x 1 else x) =? 0)%Z)
                roster
              = List.filter (same_cell team_id player_id phase) roster).
  { apply List.filter_ext_in. intros fr Hin.
    assert (Hfr : (fr_fantasy_team_id fr =? team_id)%Z
                  && String.eqb (fr_phase fr) phase
                  && negb (fr_is_star fr =? 0)%Z = false).
    { destruct (_ && _ && _) eqn:E; [|reflexivity]. exfalso.
      assert (Hs : In fr (Spec.stars_of team_id phase roster))
        by (apply List.filter_In; now split).
      now rewrite Hnone in Hs. }
    unfold same_cell in *.
    destruct (fr_is_star fr =? 0)%Z eqn:Es; unfold with_is_star; eqb_cases. }
  rewrite E. apply map_ext_in. intros fr Hin.
  apply List.filter_In in Hin as [_ ->]. reflexivity.
Qed.

(** Starring a player adds no star to another team or phase. *)
Lemma stars_of_set_other (team_id t : Z) (player_id phase ph : string)
    (roster : list roster_entry) :
  (t, ph) <> (team_id, phase) ->
  (length (Spec.stars_of t ph (set_star_rows team_id player_id phase roster))
   <= length (Spec.stars_of t ph roster))%nat.
Proof.
  intros Hne. unfold Spec.stars_of, set_star_rows. rewrite filter_map, length_map.
  apply filter_length_mono. intros fr _. unfold same_cell.
  destruct (fr_is_star fr =? 0)%Z eqn:Es; unfold with_is_star; eqb_cases.
Qed.

Lemma roster_ok_clear (team_id : Z) (phase : string) (roster : list roster_entry) :
  roster_ok roster -> roster_ok (clear_star_rows team_id phase roster).
Proof.
  intros [HU HS]. split.
  - unfold Spec.unique_cells. now rewrite clear_star_rows_cells.
  - intros t ph. etransitivity; [apply stars_of_clear_le | apply HS].
Qed.

Lemma roster_ok_set_star (team_id : Z) (player_id phase : string)
    (roster : list roster_entry) :
  roster_ok roster ->
  Spec.stars_of team_id phase roster = [] ->
  roster_ok (set_star_rows team_id player_id phase roster).
Proof.
  intros [HU HS] Hnone. split.
  - unfold Spec.unique_cells. now rewrite set_star_rows_cells.
  - intros t ph. destruct (decide ((t, ph) = (team_id, phase))) as [[= -> ->]|Hne].
    + rewrite stars_of_set_same, length_map by exact Hnone. now apply one_per_cell.
    + etransitivity; [now apply stars_of_set_other | apply HS].
Qed.

Lemma roster_ok_set_star_player (team_id : Z) (player_id phase : string)
    (roster : list roster_entry) :
  roster_ok roster ->
  roster_ok (set_star_player_steps roster team_id player_id phase).1
  /\ roster_ok (set_star_player_steps roster team_id player_id phase).2.
Proof.
  intros H. unfold set_star_player_steps. cbn [fst snd].
  pose proof (roster_ok_clear team_id phase roster H) as Hc.
  split; [exact Hc|]. apply roster_ok_set_star; [exact Hc|].
  apply stars_of_clear_same.
Qed.

Lemma roster_ok_fold_filter {A : Type} (step : list roster_entry -> A -> list roster_entry)
    (l : list A) (roster : list roster_entry) :
  (forall r a, roster_ok r -> roster_ok (step r a)) ->
  roster_ok roster -> roster_ok (fold_left step l roster).
Proof.
  intros Hstep. revert roster. induction l as [|a l IH]; intros roster H; simpl; auto.
Qed.

Lemma roster_ok_fold_db {A : Type} (step : db -> A -> db) (l : list A) (s : db) :
  (forall s0 a, roster_ok (fantasy_roster s0) -> roster_ok (fantasy_roster (step s0 a))) ->
  roster_ok (fantasy_roster s) -> roster_ok (fantasy_roster (fold_left step l s)).
Proof.
  intros Hstep. revert s. induction l as [|a l IH]; intros s H; simpl; auto.
Qed.

Lemma roster_ok_transition (s : db) (league_id : Z) (kept : list (Z * string)) :
  roster_ok (fantasy_roster s) ->
  roster_ok (fantasy_roster (transition_to_playoffs s league_id kept)).
Proof.
  intros H. unfold transition_to_playoffs. cbn [set_leagues set_roster fantasy_roster].
  apply roster_ok_fold_filter; [|exact H].
  intros r tid Hr. apply roster_ok_fold_filter; [|exact Hr].
  intros r' pid Hr'. destruct (existsb _ kept); [exact Hr'|].
  now apply roster_ok_filter.
Qed.

Lemma roster_ok_swap (s : db) (t : trade) (roster' : list roster_entry) (seq' : Z) :
  swap_if_present s t = Ok (roster', seq') ->
  roster_ok (fantasy_roster s) -> roster_ok roster'.
Proof.
  unfold swap_if_present. intros H Hok.
  destruct (roster_slot _ _ _) as [from_slot|]; [|now injection H as <- <-].
  destruct (roster_slot _ _ _) as [to_slot|]; [|now injection H as <- <-].
  destruct (insert_roster _ _ _ _ _ _ _ _ _) as [[r3 seq3]|] eqn:E3; [|discriminate].
  cbn [mbind result_bind] in H.
  apply (roster_ok_insert _ _ _ _ _ _ _ _ _ _ _ H).
  apply (roster_ok_insert _ _ _ _ _ _ _ _ _ _ _ E3).
  unfold delete_player_rows. now do 2 apply roster_ok_filter.
Qed.

Lemma roster_ok_resolve_trade (s s' : db) (trade_id : Z) (action : string) (b : bool) :
  resolve_trade s trade_id action = Ok (s', b) ->
  roster_ok (fantasy_roster s) -> roster_ok (fantasy_roster s').
Proof.
  unfold resolve_trade. intros H Hok.
  destruct (fetchone _ _) as [t|]; [|now injection H as <- <-].
  destruct (negb _); [now injection H as <- <-|].
  destruct (String.eqb action "accepted").
  - destruct (swap_if_present s t) as [[r seq]|] eqn:E; [|discriminate].
    injection H as <- <-. cbn [set_trades set_roster fantasy_roster].
    exact (roster_ok_swap _ _ _ _ E Hok).
  - now injection H as <- <-.
Qed.

Lemma fantasy_roster_delete_team_rows (l : list Z) (s : db) :
  exists f, fantasy_roster (fold_left delete_team_rows l s)
            = List.filter f (fantasy_roster s).
Proof.
  revert s. induction l as [|t l IH]; intros s; simpl.
  - exists (fun _ => true). symmetry. apply List.forallb_filter_id.
    now apply forallb_forall.
  - destruct (IH (delete_team_rows s t)) as (f & ->).
    cbn [delete_team_rows fantasy_roster]. rewrite filter_filter. eauto.
Qed.

Lemma roster_ok_delete_league (s : db) (league_id : Z) :
  roster_ok (fantasy_roster s) ->
  roster_ok (fantasy_roster (_delete_league_cascade s league_id)).
Proof.
  intros H. cbn [_delete_league_cascade fantasy_roster].
  destruct (fantasy_roster_delete_team_rows
              (map ft_id (get_teams_in_league s league_id)) s) as (f & ->).
  now apply roster_ok_filter.
Qed.

Lemma roster_ok_run (s : db) (op : Spec.roster_op) :
  roster_ok (fantasy_roster s) -> roster_ok (fantasy_roster (Spec.run s op)).
Proof.
  intros H. destruct op; cbn [Spec.run].
  - unfold add_player_to_roster.
    destruct (insert_roster _ _ _ _ _ _ _ _ _) as [[r seq]|] eqn:E; [|exact H].
    exact (roster_ok_insert _ _ _ _ _ _ _ _ _ _ _ E H).
  - now apply roster_ok_filter.
  - apply roster_ok_set_star_player, H.
  - now apply roster_ok_clear.
  - now apply roster_ok_transition.
  - destruct (resolve_trade s trade_id action) as [[s' b]|] eqn:E; [|exact H].
    exact (roster_ok_resolve_trade _ _ _ _ _ E H).
  - now apply roster_ok_filter.
  - now apply roster_ok_delete_league.
  - destruct (delete_tournament s tournament_id) as [s'|] eqn:E; [|exact H].
    unfold delete_tournament in E. destruct (existsb _ _); [discriminate|].
    injection E as <-. cbn [fantasy_roster].
    apply roster_ok_fold_db; [|exact H].
    intros s0 l. apply roster_ok_delete_league.
Qed.

Lemma roster_ok_runs (ops : list Spec.roster_op) (s : db) :
  roster_ok (fantasy_roster s) -> roster_ok (fantasy_roster (fold_left Spec.run ops s)).
Proof.
  revert s. induction ops as [|op ops IH]; intros s H; simpl; [exact H|].
  apply IH. now apply roster_ok_run.
Qed.

Lemma on_roster_count (team_id : Z) (player_id phase : string)
    (roster : list roster_entry) :
  Spec.unique_cells roster ->
  length (List.filter (same_cell team_id player_id phase) roster)
  = if Spec.on_roster team_id player_id phase roster then 1%nat else 0%nat.
Proof.
  intros HU. pose proof (one_per_cell team_id player_id phase roster HU) as Hle.
  unfold Spec.on_roster.
  destruct (existsb _ roster) eqn:E.
  - apply existsb_exists in E as (fr & Hin & Hc).
    assert (Hf : In fr (List.filter (same_cell team_id player_id phase) roster))
      by (apply List.filter_In; now split).
    destruct (List.filter _ roster); [contradiction|]. simpl in *. lia.
  - rewrite filter_none; [reflexivity|]. intros fr Hin.
    destruct (same_cell team_id player_id phase fr) eqn:Hc; [|reflexivity].
    apply not_true_iff_false in E. exfalso. apply E. apply existsb_exists. eauto.
Qed.

Lemma filter_same_cell_clear (team_id t : Z) (player_id phase ph : string)
    (roster : list roster_entry) :
  length (List.filter (same_cell t player_id ph) (clear_star_rows team_id phase roster))
  = length (List.filter (same_cell t player_id ph) roster).
Proof.
  unfold clear_star_rows. rewrite filter_map, length_map. f_equal.
  apply List.filter_ext. intros fr. now destruct (_ && _).
Qed.

Lemma unique_cells_dec (roster : list roster_entry) :
  bool_decide (NoDup (map Spec.cell roster)) = true -> Spec.unique_cells roster.
Proof. apply bool_decide_eq_true_1. Qed.

Lemma at_most_one_star_dec (roster : list roster_entry) :
  forallb (fun fr => (length (Spec.stars_of (fr_fantasy_team_id fr) (fr_phase fr) roster)
                      <=? 1)%nat) roster = true ->
  Spec.at_most_one_star roster.
Proof.
  intros H t ph.
  destruct (Spec.stars_of t ph roster) as [|fr l] eqn:E; [simpl; lia|].
  assert (Hin : In fr (Spec.stars_of t ph roster)) by (rewrite E; now left).
  apply List.filter_In in Hin as [Hin Hp].
  apply andb_true_iff in Hp as [Hp _]. apply andb_true_iff in Hp as [Ht Hph].
  apply Z.eqb_eq in Ht. apply String.eqb_eq in Hph. subst t ph.
  rewrite forallb_forall in H. specialize (H fr Hin). rewrite E in H.
  now apply Nat.leb_le in H.
Qed.

End RosterFacts.

Module RosterClaims.

Import Scraper Database Invariants PyFacts StandingsFacts RosterFacts.

(** C8 (amended).  A roster table that respects
    [UNIQUE(fantasy_team_id, player_id, phase)] and has at most one star
    per (fantasy team, phase) still does after every sequence of roster
    operations (add, remove, set star, clear star, transition to playoffs,
    resolve trade, delete team, delete league, delete tournament).  [set_star_player] first
    clears every star of that team and phase and then stars the entries of
    the named player: exactly one when the player has a roster entry for
    that team and phase, none otherwise.  Both updates belong to one
    transaction: the state between them has no star for that team and
    phase, the committed state is the one after the second update, and
    neither has two stars for one team and phase. *)
Theorem star_invariant (s : db) :
  Spec.unique_cells (fantasy_roster s) ->
  Spec.at_most_one_star (fantasy_roster s) ->
  (forall ops : list Spec.roster_op,
     Spec.unique_cells (fantasy_roster (fold_left Spec.run ops s))
     /\ Spec.at_most_one_star (fantasy_roster (fold_left Spec.run ops s)))
  /\ (forall (team_id : Z) (player_id phase : string),
        let steps := set_star_player_steps (fantasy_roster s) team_id player_id phase in
        Spec.stars_of team_id phase steps.1 = []
        /\ Spec.at_most_one_star steps.1
        /\ Spec.at_most_one_star steps.2
        /\ fantasy_roster (set_star_player s team_id player_id phase) = steps.2
        /\ length (Spec.stars_of team_id phase steps.2)
           = (if Spec.on_roster team_id player_id phase (fantasy_roster s)
              then 1%nat else 0%nat)
        /\ (forall fr, fr ∈ Spec.stars_of team_id phase steps.2 ->
              fr_player_id fr = player_id)).
Proof.
  intros HU HS. assert (Hok : roster_ok (fantasy_roster s)) by now split.
  split; [intros ops; now apply roster_ok_runs|].
  intros team_id player_id phase steps.
  destruct (roster_ok_set_star_player team_id player_id phase _ Hok) as [[_ H1] [_ H2]].
  split; [apply stars_of_clear_same|]. split; [exact H1|]. split; [exact H2|].
  split; [reflexivity|].
  unfold steps, set_star_player_steps. cbn [fst snd].
  rewrite stars_of_set_same by apply stars_of_clear_same. split.
  - rewrite length_map, filter_same_cell_clear. now apply on_roster_count.
  - intros fr Hin. apply list_elem_of_fmap in Hin as (fr' & -> & Hin).
    apply list_elem_of_In, List.filter_In in Hin as [_ Hc].
    apply same_cell_iff in Hc. now injection Hc.
Qed.

(** In the small league the invariant survives a star change, an accepted
    trade, an addition and another star change, and starring the rostered
    player p_b leaves team 1 with exactly one star. *)
Lemma star_invariant_witness :
  Spec.at_most_one_star
    (fantasy_roster
       (fold_left Spec.run
          [Spec.SetStar 1 "p_b" "swiss"; Spec.ResolveTrade 1 "accepted";
           Spec.Add 2 "p_d" 1 "flex" "swiss" 0; Spec.SetStar 2 "p_d" "swiss"]
          Examples.small_league))
  /\ length (Spec.stars_of 1 "swiss"
               (fantasy_roster (set_star_player Examples.small_league 1 "p_b" "swiss"))) = 1%nat.
Proof.
  assert (HU : Spec.unique_cells (fantasy_roster Examples.small_league))
    by (apply unique_cells_dec; vm_compute; reflexivity).
  assert (HS : Spec.at_most_one_star (fantasy_roster Examples.small_league))
    by (apply at_most_one_star_dec; vm_compute; reflexivity).
  destruct (star_invariant Examples.small_league HU HS) as [Hops Hset].
  split; [apply Hops|].
  destruct (Hset 1%Z "p_b"%string "swiss"%string) as (_ & _ & _ & -> & -> & _).
  reflexivity.
Defined.

(** C8 as stated fails on the code: starring p_x, who has no roster entry
    for team 1, clears the existing star of team 1 and sets none. *)
Lemma set_star_absent_player :
  Spec.unique_cells (fantasy_roster Examples.small_league)
  /\ Spec.at_most_one_star (fantasy_roster Examples.small_league)
  /\ length (Spec.stars_of 1 "swiss" (fantasy_roster Examples.small_league)) = 1%nat
  /\ length (Spec.stars_of 1 "swiss"
               (fantasy_roster (set_star_player Examples.small_league 1 "p_x" "swiss"))) = 0%nat.
Proof.
  split; [apply unique_cells_dec; vm_compute; reflexivity|].
  split; [apply at_most_one_star_dec; vm_compute; reflexivity|].
  split; reflexivity.
Qed.

End RosterClaims.

(* ===================================================================== *)
(** * Trades *)
(* ===================================================================== *)

Module TradeClaims.

Import Scraper Database Invariants PyFacts StandingsFacts RosterFacts.

Lemma swap_missing (s : db) (t : trade) :
  roster_slot (fantasy_roster s) (tr_from_team_id t) (tr_from_player_id t) = None
  \/ roster_slot (fantasy_roster s) (tr_to_team_id t) (tr_to_player_id t) = None ->
  swap_if_present s t = Ok (fantasy_roster s, seq_fantasy_roster s).
Proof.
  unfold swap_if_present. intros [-> | ->]; [reflexivity|].
  now destruct (roster_slot _ _ _).
Qed.

(** C5 on the code.  When a pending trade is accepted and either traded
    player has no roster entry on their side, the roster table is left
    exactly as it was, but the acceptance is not reported as failed:
    [resolve_trade] returns [True] and the trade is stored as accepted. *)
Theorem accept_with_missing_player (s : db) (trade_id : Z) (t : trade) :
  fetchone (fun t => (tr_id t =? trade_id)%Z) (trades s) = Some t ->
  tr_status t = "pending"%string ->
  roster_slot (fantasy_roster s) (tr_from_team_id t) (tr_from_player_id t) = None
  \/ roster_slot (fantasy_roster s) (tr_to_team_id t) (tr_to_player_id t) = None ->
  exists s',
    resolve_trade s trade_id "accepted" = Ok (s', true)
    /\ fantasy_roster s' = fantasy_roster s
    /\ (exists t', fetchone (fun t => (tr_id t =? trade_id)%Z) (trades s') = Some t'
                   /\ tr_status t' = "accepted"%string).
Proof.
  intros Ht Hp Hmiss. unfold resolve_trade. rewrite Ht, Hp. cbn [String.eqb negb].
  change (String.eqb "pending" "pending") with true. cbn [negb].
  change (String.eqb "accepted" "accepted") with true. cbn iota.
  rewrite (swap_missing s t Hmiss). cbn [mbind result_bind mret result_ret].
  eexists. split; [reflexivity|]. split; [reflexivity|].
  cbn [set_trades set_roster trades].
  exists (with_status t "accepted"). split; [|reflexivity].
  unfold fetchone in *. clear Hp Hmiss.
  induction (trades s) as [|x l IH]; [discriminate|]. simpl in *.
  destruct (tr_id x =? trade_id)%Z eqn:E.
  - injection Ht as ->. simpl. now rewrite E.
  - rewrite E. now apply IH.
Qed.

(** Trade 2 of the small league asks for p_x, who is on no roster. *)
Lemma accept_with_missing_player_witness :
  exists s',
    resolve_trade Examples.small_league 2 "accepted" = Ok (s', true)
    /\ fantasy_roster s' = fantasy_roster Examples.small_league
    /\ (exists t', fetchone (fun t => (tr_id t =? 2)%Z) (trades s') = Some t'
                   /\ tr_status t' = "accepted"%string).
Proof.
  refine (accept_with_missing_player Examples.small_league 2 _ eq_refl eq_refl _).
  right. reflexivity.
Defined.

End TradeClaims.

(* ===================================================================== *)
(** * The snake draft *)
(* ===================================================================== *)

Module DraftFacts.

Import Scraper Database Invariants PyFacts StandingsFacts RosterFacts.

Section Snake.

Variable n : nat.
Hypothesis n_pos : (1 <= n)%nat.

Lemma snake_round_length (i : nat) : length (snake_round n i) = n.
Proof.
  unfold snake_round. destruct (Nat.even i); now rewrite ?length_rev, length_seq.
Qed.

Lemma snake_rounds_length (j : nat) : length (snake_rounds n j) = (j * n)%nat.
Proof.
  induction j as [|j IH]; [reflexivity|].
  simpl. rewrite length_app, IH, snake_round_length. lia.
Qed.

Lemma snake_round_lookup (i k : nat) :
  (k < n)%nat ->
  snake_round n i !! k = Some (if Nat.even i then k else (n - 1 - k)%nat).
Proof.
  intros Hk. unfold snake_round. destruct (Nat.even i).
  - now rewrite lookup_seq_lt.
  - replace (rev (seq 0 n)) with (reverse (seq 0 n))
      by (unfold reverse; now rewrite rev_alt).
    rewrite reverse_lookup by (rewrite length_seq; lia).
    rewrite length_seq, lookup_seq_lt by lia. f_equal. lia.
Qed.

Lemma snake_rounds_lookup (j k : nat) :
  (k < j * n)%nat -> snake_rounds n j !! k = Some (Spec.snake_index n k).
Proof.
  induction j as [|j IH]; [lia|]. intros Hk. simpl.
  destruct (decide (k < j * n)%nat) as [Hlt|Hge].
  - rewrite lookup_app_l by (now rewrite snake_rounds_length). now apply IH.
  - rewrite lookup_app_r by (rewrite snake_rounds_length; lia).
    rewrite snake_rounds_length, snake_round_lookup by lia.
    unfold Spec.snake_index.
    assert (Hq : (k / n = j)%nat) by (symmetry; apply (Nat.div_unique k n j (k - j * n)); lia).
    assert (Hr : (k mod n = k - j * n)%nat)
      by (symmetry; apply (Nat.mod_unique k n j (k - j * n)); lia).
    now rewrite Hq, Hr.
Qed.

Lemma even_round_num (j : nat) : (Z.of_nat j mod 2 =? 0)%Z = Nat.even j.
Proof.
  destruct (Nat.even j) eqn:E.
  - apply Nat.even_spec in E as [m ->]. apply Z.eqb_eq.
    rewrite Nat2Z.inj_mul. change (Z.of_nat 2) with 2%Z.
    now rewrite Z.mul_comm, Z.mod_mul.
  - apply Z.eqb_neq. intros H.
    assert (Ho : Nat.odd j = true) by (now rewrite <- Nat.negb_even, E).
    apply Nat.odd_spec in Ho as [m ->].
    rewrite Nat2Z.inj_add, Nat2Z.inj_mul in H. change (Z.of_nat 2) with 2%Z in H.
    change (Z.of_nat 1) with 1%Z in H.
    rewrite Z.add_comm, Z.mul_comm, Z.mod_add in H by lia. discriminate H.
Qed.

Variable target : Z.

(** With enough fuel the loop stops because its condition is false, on a
    whole number of rounds. *)
Lemma snake_loop_rounds (fuel j : nat) :
  (target <= Z.of_nat (length (snake_rounds n j)) + Z.of_nat fuel)%Z ->
  exists j',
    snake_loop fuel (seq 0 n) (rev (seq 0 n)) target (snake_rounds n j) (Z.of_nat j)
    = snake_rounds n j'
    /\ (target <= Z.of_nat (length (snake_rounds n j')))%Z.
Proof.
  revert j. induction fuel as [|fuel IH]; intros j H.
  - exists j. split; [reflexivity | lia].
  - cbn [snake_loop]. destruct (Z.ltb_spec (Z.of_nat (length (snake_rounds n j))) target).
    + rewrite even_round_num.
      replace (Z.of_nat j + 1)%Z with (Z.of_nat (S j)) by lia.
      apply (IH (S j)). cbn [snake_rounds]. rewrite length_app, snake_round_length. lia.
    + exists j. split; [reflexivity | lia].
Qed.

(** More fuel changes nothing. *)
Lemma snake_loop_fuel (fuel extra j : nat) :
  (target <= Z.of_nat (length (snake_rounds n j)) + Z.of_nat fuel)%Z ->
  snake_loop (fuel + extra) (seq 0 n) (rev (seq 0 n)) target (snake_rounds n j)
             (Z.of_nat j)
  = snake_loop fuel (seq 0 n) (rev (seq 0 n)) target (snake_rounds n j) (Z.of_nat j).
Proof.
  revert j. induction fuel as [|fuel IH]; intros j H.
  - cbn [Nat.add snake_loop]. destruct extra; [reflexivity|]. cbn [snake_loop].
    destruct (Z.ltb_spec (Z.of_nat (length (snake_rounds n j))) target); [lia|reflexivity].
  - cbn [Nat.add snake_loop].
    destruct (Z.ltb_spec (Z.of_nat (length (snake_rounds n j))) target); [|reflexivity].
    rewrite even_round_num.
    replace (Z.of_nat j + 1)%Z with (Z.of_nat (S j)) by lia.
    apply (IH (S j)). cbn [snake_rounds]. rewrite length_app, snake_round_length. lia.
Qed.

End Snake.

Lemma snake_indices_spec (n : nat) (total_players : Z) :
  (1 <= n)%nat -> (0 <= total_players)%Z ->
  length (snake_indices n total_players) = Z.to_nat (total_players * Z.of_nat n)
  /\ forall k, (k < Z.to_nat (total_players * Z.of_nat n))%nat ->
               snake_indices n total_players !! k = Some (Spec.snake_index n k).
Proof.
  intros Hn Htp. unfold snake_indices.
  set (target := (total_players * Z.of_nat n)%Z).
  assert (Ht : (0 <= target)%Z) by (unfold target; lia).
  destruct (snake_loop_rounds n Hn target (Z.to_nat target) 0) as (j & E & Hlen).
  { simpl. lia. }
  change (snake_rounds n 0) with (@nil nat) in E. change (Z.of_nat 0) with 0%Z in E.
  rewrite E. unfold py_slice_to.
  destruct (Z.leb_spec 0 target); [|lia]. split.
  - rewrite length_take. lia.
  - intros k Hk. rewrite lookup_take_lt by exact Hk.
    apply snake_rounds_lookup; [exact Hn|].
    rewrite <- (snake_rounds_length n Hn j). lia.
Qed.

Lemma snake_index_lt (n k : nat) : (1 <= n)%nat -> (Spec.snake_index n k < n)%nat.
Proof.
  intros Hn. unfold Spec.snake_index.
  pose proof (Nat.mod_upper_bound k n). destruct (Nat.even _); lia.
Qed.

Lemma py_index_nat {A : Type} (l : list A) (i : nat) (x : A) :
  l !! i = Some x -> py_index l (Z.of_nat i) = Ok x.
Proof.
  intros H. unfold py_index.
  destruct (Z.ltb_spec (Z.of_nat i) 0); [lia|].
  destruct (Z.ltb_spec (Z.of_nat i) 0); [lia|].
  now rewrite Nat2Z.id, H.
Qed.

Lemma snake_team_ids_spec (team_ids : list Z) (snake : list nat) :
  Forall (fun i => (i < length team_ids)%nat) snake ->
  exists order,
    snake_team_ids team_ids snake = Ok order
    /\ length order = length snake
    /\ forall k i, snake !! k = Some i -> order !! k = team_ids !! i.
Proof.
  unfold snake_team_ids. induction 1 as [|i snake Hi _ (order & E & Hlen & Hk)].
  - exists []. split; [reflexivity|]. split; [reflexivity|]. intros k i H.
    now rewrite lookup_nil in H.
  - destruct (lookup_lt_is_Some_2 team_ids i Hi) as (x & Hx).
    cbn [mapM]. rewrite (py_index_nat _ _ _ Hx).
    cbn [mbind result_bind]. rewrite E. cbn [mbind result_bind mret result_ret].
    exists (x :: order). split; [reflexivity|]. split; [simpl; now rewrite Hlen|].
    intros [|k] i' H; simpl in *.
    + injection H as <-. now rewrite Hx.
    + now apply Hk.
Qed.

Lemma get_draft_advance (s : db) (draft_id : Z) (d : draft_session) :
  get_draft s draft_id = Some d ->
  get_draft (advance_draft s draft_id) draft_id = Some (advanced d).
Proof.
  intros H. unfold advance_draft. rewrite H.
  unfold get_draft, fetchone in *. cbn [set_drafts draft_sessions].
  induction (draft_sessions s) as [|x l IH]; [discriminate|]. simpl in *.
  destruct (ds_id x =? draft_id)%Z eqn:E.
  - injection H as ->. simpl. now rewrite E.
  - rewrite E. now apply IH.
Qed.

Lemma get_draft_id (s : db) (draft_id : Z) (d : draft_session) :
  get_draft s draft_id = Some d -> ds_id d = draft_id.
Proof.
  intros H. apply find_some in H as [_ H]. now apply Z.eqb_eq.
Qed.

Lemma create_draft_session_eq (s : db) (league_id : Z) (phase : string) (lg : league) :
  get_teams_in_league s league_id <> [] ->
  get_league s league_id = Some lg ->
  create_draft_session s league_id phase
  = (order ← snake_team_ids (map ft_id (get_teams_in_league s league_id))
               (snake_indices (length (get_teams_in_league s league_id))
                              (ruleset_total_players s league_id));
     let did := (seq_draft_sessions s + 1)%Z in
     mret (set_drafts s
             (draft_sessions s
              ++ [{| ds_id := did; ds_league_id := league_id; ds_phase := phase;
                     ds_status := "active"; ds_current_pick := 1;
                     ds_total_picks :=
                       (ruleset_total_players s league_id
                        * Z.of_nat (length (get_teams_in_league s league_id)))%Z;
                     ds_snake_order := order |}]) did,
           Some did)).
Proof.
  intros Ht Hl. unfold create_draft_session. rewrite Hl.
  destruct (get_teams_in_league s league_id); [congruence | reflexivity].
Qed.

End DraftFacts.

Module DraftClaims.

Import Scraper Database Invariants PyFacts StandingsFacts RosterFacts DraftFacts.

(** C9.  For a league with [n >= 1] teams and a ruleset value
    [total_players >= 0], [create_draft_session] stores a session whose
    snake order has exactly [total_players * n] picks, pick number [k]
    (from 0) belonging to the team at index [k mod n] of the league's
    teams on even rounds [k / n] and at index [n - 1 - k mod n] on odd
    ones: forward, backward, forward, ...; the loop that builds the order
    stops by itself.  For three teams and [total_players = 2] the order is
    [T1, T2, T3, T3, T2, T1].  The current picker of a session is
    [snake_order[current_pick - 1]].  Advancing a session adds one to
    [current_pick] and sets the status to complete when the new pick
    number exceeds [total_picks], leaving the status as it was
    otherwise. *)
Theorem snake_draft (s : db) (league_id : Z) (phase : string) :
  let teams := get_teams_in_league s league_id in
  let n := length teams in
  let total_players := ruleset_total_players s league_id in
  let total_picks := (total_players * Z.of_nat n)%Z in
  teams <> [] ->
  is_Some (get_league s league_id) ->
  (0 <= total_players)%Z ->
  (* the session that is created *)
  (exists s' did session,
     create_draft_session s league_id phase = Ok (s', Some did)
     /\ draft_sessions s' = draft_sessions s ++ [session]
     /\ ds_id session = did
     /\ ds_status session = "active"%string
     /\ ds_current_pick session = 1%Z
     /\ ds_total_picks session = total_picks
     /\ length (ds_snake_order session) = Z.to_nat total_picks
     /\ forall k, (k < Z.to_nat total_picks)%nat ->
                  ds_snake_order session !! k
                  = map ft_id teams !! Spec.snake_index n k)
  (* the loop that builds the order ends by itself *)
  /\ (forall fuel, (Z.to_nat total_picks <= fuel)%nat ->
        snake_loop fuel (seq 0 n) (rev (seq 0 n)) total_picks [] 0
        = snake_loop (Z.to_nat total_picks) (seq 0 n) (rev (seq 0 n)) total_picks [] 0)
  (* three teams, two players each *)
  /\ (forall t1 t2 t3 : Z,
        snake_team_ids [t1; t2; t3] (snake_indices 3 2) = Ok [t1; t2; t3; t3; t2; t1])
  (* the current picker *)
  /\ (forall (st : db) (draft_id : Z) (d : draft_session),
        get_draft st draft_id = Some d ->
        (1 <= ds_current_pick d <= Z.of_nat (length (ds_snake_order d)))%Z ->
        exists team_id,
          ds_snake_order d !! Z.to_nat (ds_current_pick d - 1) = Some team_id
          /\ get_current_drafter st draft_id = Ok (Some team_id))
  (* advancing *)
  /\ (forall (st : db) (draft_id : Z) (d : draft_session),
        get_draft st draft_id = Some d ->
        exists d',
          get_draft (advance_draft st draft_id) draft_id = Some d'
          /\ ds_current_pick d' = (ds_current_pick d + 1)%Z
          /\ ds_total_picks d' = ds_total_picks d
          /\ ds_snake_order d' = ds_snake_order d
          /\ ((ds_total_picks d < ds_current_pick d + 1)%Z ->
              ds_status d' = "complete"%string)
          /\ ((ds_current_pick d + 1 <= ds_total_picks d)%Z ->
              ds_status d' = ds_status d)).
Proof.
  intros teams n total_players total_picks Hteams [lg Hlg] Htp.
  assert (Hn : (1 <= n)%nat).
  { unfold n. destruct teams; [congruence | simpl; lia]. }
  destruct (snake_indices_spec n total_players Hn Htp) as [Hlen Hidx].
  fold total_picks in Hlen, Hidx.
  split; [|split; [|split; [|split]]].
  - destruct (snake_team_ids_spec (map ft_id teams) (snake_indices n total_players))
      as (order & E & Holen & Hord).
    { apply Forall_forall. intros i Hi.
      apply list_elem_of_lookup in Hi as (k & Hk).
      assert (Hklt : (k < Z.to_nat total_picks)%nat).
      { rewrite <- Hlen. now apply lookup_lt_Some in Hk. }
      rewrite (Hidx k Hklt) in Hk. injection Hk as <-.
      rewrite length_map. now apply snake_index_lt. }
    rewrite (create_draft_session_eq s league_id phase lg Hteams Hlg).
    fold teams. fold n. fold total_players. rewrite E.
    cbn [mbind result_bind mret result_ret].
    eexists _, _, _. split; [reflexivity|].
    cbn [set_drafts draft_sessions ds_id ds_status ds_current_pick ds_total_picks
         ds_snake_order].
    repeat (split; [reflexivity|]). cbn [ds_snake_order].
    split; [now rewrite Holen|].
    intros k Hk. apply Hord. now apply Hidx.
  - intros fuel Hfuel.
    replace fuel with (Z.to_nat total_picks + (fuel - Z.to_nat total_picks))%nat by lia.
    apply (snake_loop_fuel n Hn total_picks _ _ 0%nat). simpl.
    unfold total_picks. lia.
  - intros t1 t2 t3. reflexivity.
  - intros st draft_id d Hd [Hlo Hhi].
    destruct (lookup_lt_is_Some_2 (ds_snake_order d) (Z.to_nat (ds_current_pick d - 1)))
      as (team_id & Ht); [lia|].
    exists team_id. split; [exact Ht|].
    unfold get_current_drafter. rewrite Hd.
    destruct (Z.leb_spec (Z.of_nat (length (ds_snake_order d))) (ds_current_pick d - 1));
      [lia|].
    rewrite <- (Z2Nat.id (ds_current_pick d - 1)) by lia.
    now rewrite (py_index_nat _ _ _ Ht).
  - intros st draft_id d Hd. exists (advanced d).
    split; [now apply get_draft_advance|].
    unfold advanced. cbn [ds_current_pick ds_total_picks ds_snake_order ds_status].
    repeat (split; [reflexivity|]). split; intros H.
    + destruct (Z.ltb_spec (ds_total_picks d) (ds_current_pick d + 1)); [reflexivity|lia].
    + destruct (Z.ltb_spec (ds_total_picks d) (ds_current_pick d + 1)); [lia|reflexivity].
Qed.

(** The small league has three teams and [total_players = 2]: six picks,
    in the order 1, 2, 3, 3, 2, 1; team 1 picks first, team 2 after one
    advance. *)
Lemma snake_draft_witness :
  exists s' did session,
    create_draft_session Examples.small_league 1 "swiss" = Ok (s', Some did)
    /\ draft_sessions s' = [session]
    /\ ds_total_picks session = 6%Z
    /\ ds_snake_order session = [1; 2; 3; 3; 2; 1]%Z
    /\ get_current_drafter s' did = Ok (Some 1%Z)
    /\ get_current_drafter (advance_draft s' did) did = Ok (Some 2%Z).
Proof.
  assert (H0 : get_teams_in_league Examples.small_league 1 <> []) by discriminate.
  assert (H1 : is_Some (get_league Examples.small_league 1)) by (eexists; reflexivity).
  assert (H2 : (0 <= ruleset_total_players Examples.small_league 1)%Z) by (vm_compute; discriminate).
  destruct (snake_draft Examples.small_league 1 "swiss" H0 H1 H2)
    as ((s' & did & session & E & Hs & _) & _).
  exists s', did, session. split; [exact E|].
  vm_compute in E. injection E as <- <-.
  vm_compute in Hs. injection Hs as <-.
  repeat split; reflexivity.
Defined.

End DraftClaims.

(* ===================================================================== *)
(** * Roster stubs *)
(* ===================================================================== *)

Module RegistrarClaims.

Import Scraper Database Invariants PyFacts Registrar.

(** [upsert_player] touches the row of its own key only. *)
Lemma upsert_player_other (d : player_dict) (s s' : db) (key : string * Z) :
  upsert_player d s = Ok s' ->
  key <> (pd_player_id d, pd_tournament_id d) ->
  players s' !! key = players s !! key.
Proof.
  unfold upsert_player. destruct (existsb _ _); [|discriminate].
  intros [= <-] Hne. cbn [set_players players]. now rewrite lookup_insert_ne.
Qed.

(** A stub is written only into a key that has no row, and no other key
    changes. *)
Lemma insert_if_absent_frame (tournament_id : Z) (l : player_link) (s : db)
    (key : string * Z) (row : player_row) :
  players s !! key = Some row ->
  players (insert_if_absent tournament_id (stub_of tournament_id l) s).1 !! key
  = Some row.
Proof.
  intros H. unfold insert_if_absent, select_fantasy_points.
  cbn [stub_of _make_player_stub pd_player_id].
  destruct (players s !! (lk_player_id l, tournament_id)) as [r|] eqn:E;
    cbn [fmap option_fmap option_map]; [exact H|].
  destruct (upsert_player _ s) as [s'|] eqn:Eu; cbn [fst]; [|exact H].
  rewrite (upsert_player_other _ _ _ key Eu); [exact H|].
  cbn [stub_of _make_player_stub pd_player_id pd_tournament_id].
  intros ->. congruence.
Qed.

Lemma insert_if_absent_existing (tournament_id : Z) (stub : player_dict) (s : db) :
  is_Some (players s !! (pd_player_id stub, tournament_id)) ->
  insert_if_absent tournament_id stub s = (s, false).
Proof.
  intros [r H]. unfold insert_if_absent, select_fantasy_points. now rewrite H.
Qed.

Lemma register_match_stubs_frame (tournament_id : Z) (links : list player_link)
    (s : db) (stub_count : Z) (key : string * Z) (row : player_row) :
  players s !! key = Some row ->
  players (register_match_stubs tournament_id links s stub_count).1 !! key = Some row.
Proof.
  unfold register_match_stubs. revert s stub_count.
  induction links as [|l links IH]; intros s stub_count H; [exact H|].
  cbn [map fold_left].
  pose proof (insert_if_absent_frame tournament_id l s key row H) as Hs.
  destruct (insert_if_absent tournament_id (stub_of tournament_id l) s) as [s' b].
  now apply IH.
Qed.

Lemma _register_frame (tournament_id : Z) (l : player_link) (st : roster_scrape)
    (key : string * Z) (row : player_row) :
  players (store st) !! key = Some row ->
  players (store (_register tournament_id st (stub_of tournament_id l))) !! key
  = Some row.
Proof.
  intros H. unfold _register. case_bool_decide; [exact H|].
  cbn [store]. now apply insert_if_absent_frame.
Qed.

Lemma register_links_frame (tournament_id : Z) (links : list player_link)
    (st : roster_scrape) (key : string * Z) (row : player_row) :
  players (store st) !! key = Some row ->
  players (store (register_links tournament_id links st)) !! key = Some row.
Proof.
  unfold register_links. revert st.
  induction links as [|l links IH]; intros st H; [exact H|].
  cbn [fold_left]. apply IH. now apply _register_frame.
Qed.

(** C10.  Registering zero-stat stubs never changes an existing
    leaderboard row: whatever players are discovered, every row that
    exists before the stub loop of [scrape_source], or before the
    registrations of [scrape_event_rosters], is still there unchanged
    afterwards; for a player whose [(player_id, tournament_id)] row exists,
    nothing at all is written. *)
Theorem stubs_never_overwrite (tournament_id : Z) (links : list player_link)
    (s : db) (key : string * Z) (row : player_row) :
  players s !! key = Some row ->
  (forall stub_count,
     players (register_match_stubs tournament_id links s stub_count).1 !! key
     = Some row)
  /\ (forall st, store st = s ->
        players (store (register_links tournament_id links st)) !! key = Some row)
  /\ (forall stub, (pd_player_id stub, tournament_id) = key ->
        insert_if_absent tournament_id stub s = (s, false)).
Proof.
  intros H. split; [|split].
  - intros stub_count. now apply register_match_stubs_frame.
  - intros st <-. now apply register_links_frame.
  - intros stub <-. apply insert_if_absent_existing. eauto.
Qed.

(** Two links are found for tournament 1: p_a already has a row worth 100
    points, which is kept; p_z has none and gets a stub. *)
Lemma stubs_never_overwrite_witness :
  players (register_match_stubs 1 Examples.found_links Examples.small_league 0).1 !! ("p_a"%string, 1%Z)
  = Some (Examples.leaderboard_row "p_a" 100 0)
  /\ (register_match_stubs 1 Examples.found_links Examples.small_league 0).2 = 1%Z
  /\ is_Some (players (register_match_stubs 1 Examples.found_links Examples.small_league 0).1
              !! ("p_z"%string, 1%Z)).
Proof.
  split.
  - refine (proj1 (stubs_never_overwrite 1 Examples.found_links Examples.small_league
                     ("p_a"%string, 1%Z) (Examples.leaderboard_row "p_a" 100 0) _) 0%Z).
    vm_compute. reflexivity.
  - split; [vm_compute; reflexivity|]. vm_compute. eexists. reflexivity.
Defined.

End RegistrarClaims.

(* ===================================================================== *)
(** * Further properties of the store *)
(* ===================================================================== *)

Module StoreProperties.

Import Scraper Database Invariants PyFacts StandingsFacts RosterFacts.


(** Storing the same dictionary again leaves the stored row as it is. *)
Lemma upsert_row_idempotent (old : option player_row) (d : player_dict) :
  upsert_row (Some (upsert_row old d)) d = upsert_row old d.
Proof.
  destruct old as [o|]; [reflexivity|]. now destruct d.
Qed.


(** X3.  Duplicate roster entry.  Adding a player who already has an entry for
    that team and phase is refused with [False] and writes nothing. *)
Theorem add_existing_player_rejected (s : db) (team_id tournament_id is_duplicate : Z)
    (player_id role_slot phase : string) :
  Spec.on_roster team_id player_id phase (fantasy_roster s) = true ->
  add_player_to_roster s team_id player_id tournament_id role_slot phase is_duplicate
  = (s, false).
Proof.
  intros H. unfold add_player_to_roster, insert_roster.
  unfold Spec.on_roster in H. now rewrite H.
Qed.



(** p_a is already on team 1's swiss roster. *)
Lemma add_existing_player_rejected_witness :
  add_player_to_roster Examples.small_league 1 "p_a" 1 "flex" "swiss" 0 = (Examples.small_league, false).
Proof.
  apply add_existing_player_rejected. reflexivity.
Defined.

End StoreProperties.

(* ===================================================================== *)
(** * Rounding *)
(* ===================================================================== *)

Module RoundingFacts.

Import Py PyFacts.

Lemma round_half_even_cases (x : Q) :
  let f := Qfloor x in
  (x - inject_Z f < 0.5 /\ round_half_even x = f)
  \/ (0.5 < x - inject_Z f /\ round_half_even x = (f + 1)%Z)
  \/ (x - inject_Z f == 0.5 /\ round_half_even x = if Z.even f then f else (f + 1)%Z).
Proof.
  intros f. unfold round_half_even. fold f.
  destruct (Qcompare (x - inject_Z f) 0.5) eqn:E.
  - right. right. split; [now apply Qeq_alt | reflexivity].
  - left. split; [now apply Qlt_alt | reflexivity].
  - right. left. split; [now apply Qgt_alt | reflexivity].
Qed.

Lemma floor_bounds (x : Q) : inject_Z (Qfloor x) <= x /\ x < inject_Z (Qfloor x) + 1.
Proof.
  split; [apply Qfloor_le|].
  pose proof (Qlt_floor x) as H. rewrite inject_Z_plus in H. exact H.
Qed.

Lemma round_half_even_near (x : Q) :
  x - 0.5 <= inject_Z (round_half_even x) /\ inject_Z (round_half_even x) <= x + 0.5.
Proof.
  destruct (floor_bounds x) as [H1 H2].
  destruct (round_half_even_cases x) as [[H ->]|[[H ->]|[H ->]]].
  - split; lra.
  - rewrite inject_Z_plus. change (inject_Z 1) with 1. split; lra.
  - destruct (Z.even (Qfloor x)).
    + split; lra.
    + rewrite inject_Z_plus. change (inject_Z 1) with 1. split; lra.
Qed.

Lemma round_half_even_mono (x y : Q) :
  x <= y -> (round_half_even x <= round_half_even y)%Z.
Proof.
  intros Hxy.
  pose proof (Qfloor_resp_le _ _ Hxy) as Hf.
  destruct (floor_bounds x) as [Hx1 Hx2]. destruct (floor_bounds y) as [Hy1 Hy2].
  destruct (Z.eq_dec (Qfloor x) (Qfloor y)) as [E|N].
  - destruct (round_half_even_cases x) as [[H ->]|[[H ->]|[H ->]]];
    destruct (round_half_even_cases y) as [[H' ->]|[[H' ->]|[H' ->]]];
    rewrite <- ?E in *; try lia; try (exfalso; lra);
    destruct (Z.even (Qfloor x)); try lia; exfalso; lra.
  - assert (Hlt : (Qfloor x + 1 <= Qfloor y)%Z) by lia.
    assert (Hx : (round_half_even x <= Qfloor x + 1)%Z).
    { destruct (round_half_even_cases x) as [[H ->]|[[H ->]|[H ->]]]; try lia.
      destruct (Z.even _); lia. }
    assert (Hy : (Qfloor y <= round_half_even y)%Z).
    { destruct (round_half_even_cases y) as [[H ->]|[[H ->]|[H ->]]]; try lia.
      destruct (Z.even _); lia. }
    lia.
Qed.

Lemma round_mono (x y : Q) (n : nat) : x <= y -> round x n <= round y n.
Proof.
  intros H. unfold round.
  pose proof (pow10_pos n) as Hp.
  apply Qmult_le_compat_r; [|apply Qlt_le_weak, Qinv_lt_0_compat, Hp].
  rewrite <- Zle_Qle. apply round_half_even_mono.
  apply Qmult_le_compat_r; [exact H | now apply Qlt_le_weak].
Qed.

Lemma round_nonneg (x : Q) (n : nat) : 0 <= x -> 0 <= round x n.
Proof.
  intros H. rewrite <- (round_0 n). now apply round_mono.
Qed.

(** [round(x, n)] is within half a unit of the last place of [x]. *)
Lemma round_near (x : Q) (n : nat) :
  x - 0.5 / pow10 n <= round x n /\ round x n <= x + 0.5 / pow10 n.
Proof.
  unfold round. pose proof (pow10_pos n) as Hp.
  destruct (round_half_even_near (x * pow10 n)) as [H1 H2].
  set (r := inject_Z (round_half_even (x * pow10 n))) in *.
  assert (Hi : 0 < / pow10 n) by now apply Qinv_lt_0_compat.
  split.
  - apply Qle_trans with ((x * pow10 n - 0.5) / pow10 n).
    + apply Qle_lteq. right. field. now apply pow10_nonzero.
    + apply Qmult_le_compat_r; [exact H1 | now apply Qlt_le_weak].
  - apply Qle_trans with ((x * pow10 n + 0.5) / pow10 n).
    + apply Qmult_le_compat_r; [exact H2 | now apply Qlt_le_weak].
    + apply Qle_lteq. right. field. now apply pow10_nonzero.
Qed.

End RoundingFacts.

(* ===================================================================== *)
(** * points.py: the role bonus *)
(* ===================================================================== *)

Module RoleProperties.

Import Py Points PyFacts PointsFacts PointsViews RoundingFacts Notions.

Lemma clamped_deaths_pos (p : stats) : 0 <= deaths p -> 0 < Spec.clamped_deaths p.
Proof.
  intros H. unfold Spec.clamped_deaths.
  destruct (Qeq_bool (deaths p) 0) eqn:E; [reflexivity|].
  apply Qeq_bool_false in E. apply Qle_lteq in H. destruct H as [H|H]; [exact H|].
  exfalso. apply E. now symmetry.
Qed.

Lemma Qdiv_nonneg (a b : Q) : 0 <= a -> 0 < b -> 0 <= a / b.
Proof.
  intros Ha Hb. apply Qle_shift_div_l; [exact Hb|]. now rewrite Qmult_0_l.
Qed.

Lemma kad_safe_pos (p : stats) (d : Q) : 0 < Spec.kad_safe p d.
Proof.
  unfold Spec.kad_safe. destruct (Qle_bool (Spec.kad p d) 0) eqn:E; [reflexivity|].
  now apply Qle_bool_false in E.
Qed.

Lemma kastFraction_safe_pos (p : stats) : 0 < Spec.kastFraction_safe p.
Proof.
  unfold Spec.kastFraction_safe.
  destruct (Qle_bool (Spec.kastFraction p) 0) eqn:E; [reflexivity|].
  now apply Qle_bool_false in E.
Qed.

Lemma fixed_bonuses_nonneg (p : stats) :
  nonneg_stats p ->
  let d := Spec.clamped_deaths p in
  0 <= Spec.duelistBonus p /\ 0 <= Spec.initiatorBonus p d
  /\ 0 <= Spec.controllerBonus p d /\ 0 <= Spec.sentinelBonus p.
Proof.
  intros (Hk & Hd & Ha & Hacs & Hkast & Hadr & Hfk & Hfd) d.
  pose proof (clamped_deaths_pos p Hd) as Hdp. fold d in Hdp.
  assert (Hkad : 0 <= Spec.kad p d).
  { unfold Spec.kad. apply Qdiv_nonneg; [|exact Hdp].
    apply Qle_trans with (0 + 0); [apply Qle_refl|]. now apply Qplus_le_compat. }
  repeat split.
  - unfold Spec.duelistBonus.
    assert (0 <= acs p / 10) by (apply Qdiv_nonneg; [exact Hacs | reflexivity]).
    lra.
  - unfold Spec.initiatorBonus.
    assert (0 <= assists p / Spec.kad_safe p d / Spec.kastFraction_safe p).
    { apply Qdiv_nonneg; [|apply kastFraction_safe_pos].
      apply Qdiv_nonneg; [exact Ha | apply kad_safe_pos]. }
    lra.
  - unfold Spec.controllerBonus.
    assert (0 <= kast p / 10 * Spec.kad p d).
    { apply Qmult_le_0_compat; [|exact Hkad].
      apply Qdiv_nonneg; [exact Hkast | reflexivity]. }
    lra.
  - unfold Spec.sentinelBonus.
    assert (0 <= acs p / 10) by (apply Qdiv_nonneg; [exact Hacs | reflexivity]).
    assert (0 <= adr p / 100 / 1.5).
    { apply Qdiv_nonneg; [|reflexivity]. apply Qdiv_nonneg; [exact Hadr | reflexivity]. }
    lra.
Qed.

(** X4.  Bonus of the four fixed roles.  For a record whose kills,
    deaths, assists, ACS, KAST, ADR, first kills and first deaths are
    all non-negative, calculate_player_points with the role duelist,
    initiator, controller or sentinel returns normally, the role bonus
    it returns is not negative, and the total is at least the base
    rounded to 2 decimals. *)
Theorem fixed_role_bonus_nonneg (p : stats) (r : string) :
  nonneg_stats p ->
  r ∈ ["duelist"; "initiator"; "controller"; "sentinel"]%string ->
  exists base bonus total,
    calculate_player_points p (Some r) = Ok (base, bonus, total)
    /\ 0 <= bonus
    /\ round base 2 <= total.
Proof.
  intros Hp Hr.
  destruct (calculate_player_points_eq p (Some r)) as ([[base bonus] total] & E & Hb & Hrb & Ht).
  exists base, bonus, total. split; [exact E|].
  cbn [fst snd] in Hb, Hrb, Ht.
  destruct (fixed_bonuses_nonneg p Hp) as (Hd & Hi & Hc & Hs).
  assert (Er : Spec.scored_role p (Some r) = r).
  { repeat (apply elem_of_cons in Hr; destruct Hr as [->|Hr]; [reflexivity|]).
    now apply elem_of_nil in Hr. }
  rewrite Er in Hb, Hrb, Ht.
  set (b := round (Spec.base p (Spec.clamped_deaths p)) 4) in *.
  assert (Hmono : forall x, 0 <= x -> round b 2 <= round (b + x) 2).
  { intros x Hx. apply round_mono. lra. }
  repeat (apply elem_of_cons in Hr; destruct Hr as [->|Hr];
          [unfold Spec.score in Hb, Hrb, Ht; cbn [String.eqb Ascii.eqb Bool.eqb fst snd] in Hb, Hrb, Ht;
           fold b in Hb, Ht;
           split; [rewrite Hrb; now apply round_nonneg
                  | rewrite Ht, Hb; now apply Hmono]|]).
  now apply elem_of_nil in Hr.
Qed.

Lemma flex_bonus_negative :
  nonneg_stats Cases.rating_heavy
  /\ exists base bonus total,
       calculate_player_points Cases.rating_heavy (Some "flex"%string) = Ok (base, bonus, total)
       /\ bonus < 0 /\ total < round base 2.
Proof.
  split; [unfold nonneg_stats; cbn; repeat split; discriminate|].
  eexists _, _, _. split; [reflexivity|]. split; reflexivity.
Qed.

Lemma total_of_role (p : stats) (r : string) :
  r <> ""%string ->
  exists base bonus total,
    calculate_player_points p (Some r) = Ok (base, bonus, total)
    /\ total == (Spec.score p (Spec.clamped_deaths p) r).2.
Proof.
  intros Hr.
  destruct (calculate_player_points_eq p (Some r)) as ([[base bonus] total] & E & Hb & Hrb & Ht).
  exists base, bonus, total. split; [exact E|].
  cbn [fst snd] in Ht. rewrite Ht.
  destruct r; [congruence | reflexivity].
Qed.

Lemma round2_near (x : Q) : x - 0.005 <= round x 2 /\ round x 2 <= x + 0.005.
Proof.
  destruct (round_near x 2) as [H1 H2].
  assert (E : 0.5 / pow10 2 == 0.005) by reflexivity.
  rewrite E in H1, H2. now split.
Qed.

(** X5.  Flex against the four roles.  all_role_points returns normally
    for every record, with the totals of duelist, initiator, controller,
    sentinel and flex in this order; the flex total lies within 0.01 of
    the mean of the four other totals plus rating * 10 * (kast_dec -
    0.7), where kast_dec is kast / 100 for a positive kast and 0
    otherwise. *)
Theorem flex_near_role_mean (p : stats) :
  exists d i c s f,
    all_role_points p
    = Ok [("duelist", d); ("initiator", i); ("controller", c); ("sentinel", s);
          ("flex", f)]%string
    /\ let mean := (d + i + c + s) / 4 + rating p * 10 * (kast_dec p - 0.7) in
       mean - 0.01 <= f /\ f <= mean + 0.01.
Proof.
  destruct (total_of_role p "duelist") as (b1 & r1 & d & E1 & Hd); [discriminate|].
  destruct (total_of_role p "initiator") as (b2 & r2 & i & E2 & Hi); [discriminate|].
  destruct (total_of_role p "controller") as (b3 & r3 & c & E3 & Hc); [discriminate|].
  destruct (total_of_role p "sentinel") as (b4 & r4 & s & E4 & Hs); [discriminate|].
  destruct (total_of_role p "flex") as (b5 & r5 & f & E5 & Hf); [discriminate|].
  exists d, i, c, s, f. split.
  - unfold all_role_points, role_names. cbn [mapM].
    rewrite E1, E2, E3, E4, E5. reflexivity.
  - cbv zeta. rewrite kast_dec_fraction.
    unfold Spec.score in Hd, Hi, Hc, Hs, Hf.
    cbn [String.eqb Ascii.eqb Bool.eqb fst snd] in Hd, Hi, Hc, Hs, Hf.
    set (b := round (Spec.base p (Spec.clamped_deaths p)) 4) in *.
    set (D := Spec.duelistBonus p) in *.
    set (I := Spec.initiatorBonus p (Spec.clamped_deaths p)) in *.
    set (C := Spec.controllerBonus p (Spec.clamped_deaths p)) in *.
    set (S := Spec.sentinelBonus p) in *.
    set (R := rating p * 10 * (Spec.kastFraction p - 0.7)) in *.
    destruct (round2_near (b + D)) as [Hd1 Hd2].
    destruct (round2_near (b + I)) as [Hi1 Hi2].
    destruct (round2_near (b + C)) as [Hc1 Hc2].
    destruct (round2_near (b + S)) as [Hs1 Hs2].
    destruct (round2_near (b + (D + I + C + S) / 4 + R)) as [Hf1 Hf2].
    rewrite <- Hd in Hd1, Hd2. rewrite <- Hi in Hi1, Hi2.
    rewrite <- Hc in Hc1, Hc2. rewrite <- Hs in Hs1, Hs2.
    rewrite <- Hf in Hf1, Hf2.
    clearbody b D I C S R. clear - Hd1 Hd2 Hi1 Hi2 Hc1 Hc2 Hs1 Hs2 Hf1 Hf2.
    assert (E4 : forall x, x / 4 == 0.25 * x) by (intros x; field).
    rewrite E4 in Hf1, Hf2. rewrite E4. split; lra.
Qed.

(** The ordinary duelist match, scored as a duelist: the bonus is
    28.628 and the total 183.76. *)
Lemma fixed_role_bonus_nonneg_witness :
  exists base bonus total,
    calculate_player_points Examples.duelist_match (Some "duelist"%string)
    = Ok (base, bonus, total)
    /\ 0 <= bonus
    /\ round base 2 <= total.
Proof.
  apply (fixed_role_bonus_nonneg Examples.duelist_match "duelist").
  - unfold nonneg_stats. cbn. repeat split; discriminate.
  - apply list_elem_of_here.
Defined.

End RoleProperties.

(* ===================================================================== *)
(** * database.py: the draft session *)
(* ===================================================================== *)

Module DraftProperties.

Import Py Scraper Database Invariants PyFacts StandingsFacts RosterFacts DraftFacts Tables Notions.

Lemma count_occ_seq (n i : nat) :
  (i < n)%nat -> count_occ Nat.eq_dec (seq 0 n) i = 1%nat.
Proof.
  intros H.
  assert (Hn : List.NoDup (seq 0 n)) by apply List.seq_NoDup.
  assert (Hi : In i (seq 0 n)) by (apply in_seq; lia).
  pose proof (proj1 (List.NoDup_count_occ Nat.eq_dec (seq 0 n)) Hn i) as Hle.
  pose proof (proj1 (count_occ_In Nat.eq_dec (seq 0 n) i) Hi) as Hge.
  lia.
Qed.

Lemma count_occ_snake_round (n j i : nat) :
  (i < n)%nat -> count_occ Nat.eq_dec (snake_round n j) i = 1%nat.
Proof.
  intros H. unfold snake_round. destruct (Nat.even j).
  - now apply count_occ_seq.
  - rewrite count_occ_rev. now apply count_occ_seq.
Qed.

Lemma count_occ_snake_rounds (n j i : nat) :
  (i < n)%nat -> count_occ Nat.eq_dec (snake_rounds n j) i = j.
Proof.
  intros H. induction j as [|j IH]; [reflexivity|].
  simpl. rewrite count_occ_app, IH, count_occ_snake_round by exact H. lia.
Qed.

Lemma snake_indices_rounds (n : nat) (total_players : Z) :
  (1 <= n)%nat -> (0 <= total_players)%Z ->
  snake_indices n total_players = snake_rounds n (Z.to_nat total_players).
Proof.
  intros Hn Ht.
  destruct (snake_indices_spec n total_players Hn Ht) as [Hl Hk].
  assert (E : Z.to_nat (total_players * Z.of_nat n) = (Z.to_nat total_players * n)%nat) by lia.
  apply list_eq. intros k.
  destruct (Nat.lt_ge_cases k (Z.to_nat total_players * n)) as [Hlt|Hge].
  - rewrite Hk by lia. symmetry. now apply snake_rounds_lookup.
  - rewrite !lookup_ge_None_2; [reflexivity| |].
    + rewrite snake_rounds_length by exact Hn. lia.
    + lia.
Qed.

Lemma count_occ_map_inj {A B : Type} (eqA : forall x y : A, {x = y} + {x <> y})
    (eqB : forall x y : B, {x = y} + {x <> y}) (f : A -> B) (l : list A) (a : A) :
  (forall x, In x l -> f x = f a -> x = a) ->
  count_occ eqB (map f l) (f a) = count_occ eqA l a.
Proof.
  induction l as [|x l IH]; intros H; [reflexivity|].
  simpl. destruct (eqB (f x) (f a)) as [E|N], (eqA x a) as [E'|N'].
  - f_equal. apply IH. intros y Hy. apply H. now right.
  - exfalso. apply N'. apply H; [now left | exact E].
  - exfalso. apply N. now rewrite E'.
  - apply IH. intros y Hy. apply H. now right.
Qed.

Lemma lookup_nth (l : list Z) (i : nat) :
  (i < length l)%nat -> l !! i = Some (nth i l 0%Z).
Proof.
  intros H. apply lookup_lt_is_Some in H. destruct H as [x Hx]. rewrite Hx.
  f_equal. symmetry. now apply nth_lookup_Some.
Qed.

Lemma snake_team_ids_map (team_ids : list Z) (snake : list nat) (order : list Z) :
  Forall (fun i => (i < length team_ids)%nat) snake ->
  snake_team_ids team_ids snake = Ok order ->
  order = map (fun i => nth i team_ids 0%Z) snake.
Proof.
  intros Hs E.
  destruct (snake_team_ids_spec team_ids snake Hs) as (order' & E' & Hl & Hk).
  rewrite E in E'. injection E' as <-.
  apply list_eq. intros k. rewrite list_lookup_fmap.
  destruct (snake !! k) as [i|] eqn:Ei.
  - rewrite (Hk k i Ei). simpl.
    assert (Hi : (i < length team_ids)%nat).
    { rewrite Forall_forall in Hs. apply Hs. eapply list_elem_of_lookup_2, Ei. }
    apply lookup_lt_is_Some in Hi. destruct Hi as [x Hx]. rewrite Hx.
    f_equal. symmetry. apply nth_lookup_Some with (d := 0%Z) in Hx. exact Hx.
  - simpl. apply lookup_ge_None_2. rewrite Hl. now apply lookup_ge_None_1.
Qed.

Lemma snake_rounds_lt (n j : nat) : Forall (fun i => (i < n)%nat) (snake_rounds n j).
Proof.
  induction j as [|j IH]; [constructor|].
  simpl. apply Forall_app. split; [exact IH|].
  unfold snake_round. destruct (Nat.even j).
  - apply Forall_forall. intros i Hi. apply list_elem_of_In, in_seq in Hi. lia.
  - apply Forall_forall. intros i Hi. apply list_elem_of_In, in_rev, in_seq in Hi. lia.
Qed.

(** X6.  Equal number of picks.  When the league exists and has at least
    one team, its total_players is not negative and the ids of the
    fantasy teams are distinct, create_draft_session appends one session
    to the table, and in the snake order of that session every team of
    the league occurs exactly total_players times and nothing but the
    ids of these teams occurs. *)
Theorem every_team_picks_equally (s : db) (league_id : Z) (phase : string) :
  let teams := get_teams_in_league s league_id in
  let total_players := ruleset_total_players s league_id in
  teams <> [] ->
  is_Some (get_league s league_id) ->
  (0 <= total_players)%Z ->
  NoDup (map ft_id (fantasy_teams s)) ->
  exists s' did session,
    create_draft_session s league_id phase = Ok (s', Some did)
    /\ draft_sessions s' = draft_sessions s ++ [session]
    /\ (forall t, t ∈ teams ->
          count_occ Z.eq_dec (ds_snake_order session) (ft_id t)
          = Z.to_nat total_players)
    /\ (forall x, x ∈ ds_snake_order session -> x ∈ map ft_id teams).
Proof.
  intros teams total_players Hne [lg Hlg] Htp Hnd.
  assert (Hn : (1 <= length teams)%nat).
  { destruct teams; [congruence | simpl; lia]. }
  rewrite (create_draft_session_eq s league_id phase lg Hne Hlg).
  fold teams total_players.
  rewrite (snake_indices_rounds _ _ Hn Htp).
  pose proof (snake_rounds_lt (length teams) (Z.to_nat total_players)) as Hlt.
  assert (Hlt' : Forall (fun i => (i < length (map ft_id teams))%nat)
                        (snake_rounds (length teams) (Z.to_nat total_players)))
    by now rewrite length_map.
  destruct (snake_team_ids_spec _ _ Hlt') as (order & E & _ & _).
  rewrite E. unfold mbind, result_bind, mret, result_ret. cbv zeta.
  eexists _, _, _. split; [reflexivity|]. split; [reflexivity|].
  cbn [ds_snake_order].
  pose proof (snake_team_ids_map _ _ _ Hlt' E) as ->.
  pose proof (teams_in_league_nodup s league_id Hnd) as Hnd'. fold teams in Hnd'.
  split.
  - intros t Ht.
    apply list_elem_of_lookup in Ht. destruct Ht as [i Hi].
    assert (Hil : (i < length teams)%nat) by (eapply lookup_lt_Some, Hi).
    assert (Ei : nth i (map ft_id teams) 0%Z = ft_id t).
    { apply nth_lookup_Some with (d := 0%Z). now rewrite list_lookup_fmap, Hi. }
    rewrite <- Ei.
    rewrite (count_occ_map_inj Nat.eq_dec Z.eq_dec (fun i => nth i (map ft_id teams) 0%Z)).
    + now apply count_occ_snake_rounds.
    + intros x Hx Hfx.
      rewrite Forall_forall in Hlt. specialize (Hlt x (proj2 (list_elem_of_In _ _) Hx)).
      apply (NoDup_lookup (map ft_id teams) x i (nth i (map ft_id teams) 0%Z)); [exact Hnd'| |].
      * rewrite <- Hfx. apply lookup_nth. now rewrite length_map.
      * apply lookup_nth. now rewrite length_map.
  - intros x Hx. apply list_elem_of_fmap in Hx. destruct Hx as (i & -> & Hi).
    rewrite Forall_forall in Hlt. specialize (Hlt i Hi).
    apply list_elem_of_lookup. exists i. apply lookup_nth. now rewrite length_map.
Qed.

(** The three teams of the small league pick twice each. *)
Lemma every_team_picks_equally_witness :
  exists s' did session,
    create_draft_session Examples.small_league 1 "swiss" = Ok (s', Some did)
    /\ draft_sessions s' = draft_sessions Examples.small_league ++ [session]
    /\ (forall t, t ∈ get_teams_in_league Examples.small_league 1 ->
          count_occ Z.eq_dec (ds_snake_order session) (ft_id t) = 2%nat)
    /\ (forall x, x ∈ ds_snake_order session ->
          x ∈ map ft_id (get_teams_in_league Examples.small_league 1)).
Proof.
  apply (every_team_picks_equally Examples.small_league 1 "swiss").
  - discriminate.
  - eexists. reflexivity.
  - vm_compute. discriminate.
  - refine (bool_decide_unpack _ _). vm_compute. exact I.
Defined.

End DraftProperties.

(* ===================================================================== *)
(** * database.py: draft progress, trades and the league page *)
(* ===================================================================== *)

Module LeagueProperties.

Import Py Scraper Database Invariants PyFacts StandingsFacts RosterFacts DraftFacts Tables Notions.

(** ** Draft progression *)

Lemma get_draft_advance_times (k : nat) (s : db) (draft_id : Z) (d : draft_session) :
  get_draft s draft_id = Some d ->
  get_draft (advance_times k s draft_id) draft_id = Some (Nat.iter k advanced d).
Proof.
  intros H. induction k as [|k IH]; [exact H|].
  simpl. now apply get_draft_advance.
Qed.

Lemma advanced_times (k : nat) (d : draft_session) :
  ds_current_pick (Nat.iter k advanced d) = (ds_current_pick d + Z.of_nat k)%Z
  /\ ds_total_picks (Nat.iter k advanced d) = ds_total_picks d
  /\ ds_snake_order (Nat.iter k advanced d) = ds_snake_order d
  /\ ((ds_current_pick d + Z.of_nat k <= ds_total_picks d)%Z ->
      ds_status (Nat.iter k advanced d) = ds_status d)
  /\ ((1 <= k)%nat -> (ds_total_picks d < ds_current_pick d + Z.of_nat k)%Z ->
      ds_status (Nat.iter k advanced d) = "complete"%string).
Proof.
  induction k as [|k (Hp & Ht & Ho & Hs & Hc)].
  - simpl. repeat split; intros; first [lia | reflexivity].
  - simpl Nat.iter. unfold advanced at 1 3 5 7 9. cbn [ds_current_pick ds_total_picks ds_snake_order ds_status].
    rewrite Hp, Ht, Ho. repeat split; try lia.
    + intros H. destruct (Z.ltb_spec (ds_total_picks d) (ds_current_pick d + Z.of_nat k + 1)); [lia|].
      apply Hs. lia.
    + intros _ H.
      destruct (Z.ltb_spec (ds_total_picks d) (ds_current_pick d + Z.of_nat k + 1)); [reflexivity|].
      lia.
Qed.

(** X7.  The draft runs through its order.  For an active session at
    pick 1 whose total_picks is the length of its snake order, after k
    calls of advance_draft (k at most total_picks) get_current_drafter
    returns the entry at index k of the snake order, and None when k is
    total_picks; the snake order is unchanged; the session is still
    active while k is below total_picks and is complete once k has
    reached a total_picks of at least 1. *)
Theorem draft_runs_through_order (s : db) (draft_id : Z) (d : draft_session) (k : nat) :
  get_draft s draft_id = Some d ->
  ds_status d = "active"%string ->
  ds_current_pick d = 1%Z ->
  ds_total_picks d = Z.of_nat (length (ds_snake_order d)) ->
  (k <= length (ds_snake_order d))%nat ->
  let s' := advance_times k s draft_id in
  get_current_drafter s' draft_id = Ok (ds_snake_order d !! k)
  /\ exists d',
       get_draft s' draft_id = Some d'
       /\ ds_snake_order d' = ds_snake_order d
       /\ ((k < length (ds_snake_order d))%nat -> ds_status d' = "active"%string)
       /\ ((1 <= k)%nat -> k = length (ds_snake_order d) ->
           ds_status d' = "complete"%string).
Proof.
  intros Hd Hs Hp Ht Hk s'.
  pose proof (get_draft_advance_times k s draft_id d Hd) as Hg. fold s' in Hg.
  destruct (advanced_times k d) as (Hp' & Ht' & Ho' & Hs' & Hc').
  split.
  - unfold get_current_drafter. rewrite Hg, Ho', Hp', Hp.
    replace (1 + Z.of_nat k - 1)%Z with (Z.of_nat k) by lia.
    destruct (Z.leb_spec (Z.of_nat (length (ds_snake_order d))) (Z.of_nat k)) as [H|H].
    + unfold mret, result_ret. f_equal. symmetry. apply lookup_ge_None_2. lia.
    + assert (Hlt : (k < length (ds_snake_order d))%nat) by lia.
      apply lookup_lt_is_Some in Hlt. destruct Hlt as [x Hx].
      rewrite (py_index_nat _ _ _ Hx), Hx. reflexivity.
  - exists (Nat.iter k advanced d). split; [exact Hg|]. split; [exact Ho'|]. split.
    + intros Hlt. rewrite Hs' by lia. exact Hs.
    + intros H1 ->. apply Hc'; lia.
Qed.

(** ** Trades *)

Lemma find_map_id {A : Type} (f : A -> bool) (g : A -> A) (l : list A) :
  (forall x, f (g x) = f x) ->
  List.find f (map g l) = g <$> List.find f l.
Proof.
  intros H. induction l as [|x l IH]; [reflexivity|].
  simpl. rewrite H. destruct (f x); [reflexivity | exact IH].
Qed.

Lemma fetch_after_status (trade_id : Z) (status : string) (l : list trade) :
  fetchone (fun t => (tr_id t =? trade_id)%Z)
           (map (fun t => if (tr_id t =? trade_id)%Z then with_status t status else t) l)
  = (fun t => with_status t status) <$> fetchone (fun t => (tr_id t =? trade_id)%Z) l.
Proof.
  unfold fetchone. induction l as [|x l IH]; [reflexivity|].
  simpl. destruct (tr_id x =? trade_id)%Z eqn:E.
  - simpl. now rewrite E.
  - rewrite E. exact IH.
Qed.

Lemma resolved_once (s s' : db) (trade_id : Z) (action again : string) :
  resolve_trade s trade_id action = Ok (s', true) ->
  action <> "pending"%string ->
  resolve_trade s' trade_id again = Ok (s', false).
Proof.
  unfold resolve_trade at 1.
  destruct (fetchone _ (trades s)) as [t|] eqn:Ht; [|intros [= _ ?]; discriminate].
  destruct (negb (String.eqb (tr_status t) "pending")) eqn:Hp; [intros [= _ ?]; discriminate|].
  destruct (if String.eqb action "accepted" then _ else _) as [[roster' seq']|e] eqn:Hs;
    [|discriminate].
  unfold mbind, result_bind, mret, result_ret. intros [= <-] Ha.
  unfold resolve_trade. cbn [set_trades set_roster trades].
  rewrite fetch_after_status, Ht. cbn [fmap option_fmap option_map with_status tr_status].
  destruct (String.eqb_spec action "pending") as [E|_]; [contradiction|].
  reflexivity.
Qed.

Lemma cancelled_stays (s : db) (trade_id : Z) (action : string) :
  resolve_trade (cancel_trade s trade_id) trade_id action
  = Ok (cancel_trade s trade_id, false).
Proof.
  unfold resolve_trade. unfold cancel_trade at 1. cbn [set_trades trades].
  rewrite fetch_after_status.
  destruct (fetchone _ (trades s)) as [t|]; reflexivity.
Qed.

(** X8.  A trade is settled once.  After resolve_trade has returned True
    for an action other than the word pending, every further
    resolve_trade of that trade, whatever the action, returns False and
    changes nothing.  After cancel_trade, resolve_trade of that trade
    returns False and changes nothing, and cancel_trade itself leaves
    every roster entry as it is. *)
Theorem settled_trade_stays_settled (s : db) (trade_id : Z) (again : string) :
  (forall s' action,
     resolve_trade s trade_id action = Ok (s', true) ->
     action <> "pending"%string ->
     resolve_trade s' trade_id again = Ok (s', false))
  /\ resolve_trade (cancel_trade s trade_id) trade_id again
     = Ok (cancel_trade s trade_id, false)
  /\ fantasy_roster (cancel_trade s trade_id) = fantasy_roster s.
Proof.
  split; [|split].
  - intros s' action. apply resolved_once.
  - apply cancelled_stays.
  - reflexivity.
Qed.

(** ** Standings of the current phase *)

Lemma insert_by_map {A B : Type} (f : A -> B) (leA : A -> A -> bool)
    (leB : B -> B -> bool) (x : A) (l : list A) :
  (forall a b, leB (f a) (f b) = leA a b) ->
  insert_by leB (f x) (map f l) = map f (insert_by leA x l).
Proof.
  intros H. induction l as [|y l IH]; [reflexivity|].
  simpl. rewrite H. destruct (leA x y); [reflexivity|].
  simpl. now rewrite IH.
Qed.

Lemma sort_by_map {A B : Type} (f : A -> B) (leA : A -> A -> bool)
    (leB : B -> B -> bool) (l : list A) :
  (forall a b, leB (f a) (f b) = leA a b) ->
  sort_by leB (map f l) = map f (sort_by leA l).
Proof.
  intros H. induction l as [|y l IH]; [reflexivity|].
  simpl. unfold sort_by in *. rewrite IH. now apply insert_by_map.
Qed.

Lemma league_team_standing_eq (s : db) (lg : league) (t : fantasy_team) :
  league_team_standing s lg t = without_phase (team_standing s lg (l_phase lg) t).
Proof.
  unfold league_team_standing, team_standing.
  destruct (fold_left roster_step _ _) as [player_pts star_bonus]. reflexivity.
Qed.

(** X9.  The league page shows the current phase.  get_league_standings
    returns, in the same order, the rows that get_phase_standings
    returns for the phase stored in the league, each without its phase
    field; for a league that does not exist it returns the empty list. *)
Theorem league_standings_current_phase (s : db) (league_id : Z) :
  get_league_standings s league_id
  = match get_league s league_id with
    | Some lg => map without_phase (get_phase_standings s league_id (l_phase lg))
    | None => []
    end.
Proof.
  unfold get_league_standings, get_phase_standings.
  destruct (get_league s league_id) as [lg|]; [|reflexivity].
  rewrite <- (sort_by_map without_phase (descending st_total_points)
                (descending ls_total_points)) by reflexivity.
  rewrite map_map. f_equal. apply map_ext. intros t. apply league_team_standing_eq.
Qed.

(** The opened draft of the small league after four advances: the fifth
    pick is team 2's and the session is still active; after six advances
    nobody is left to pick and the session is complete. *)
Lemma draft_runs_through_order_witness :
  get_current_drafter (advance_times 4 Cases.drafting 1) 1 = Ok (Some 2%Z)
  /\ get_current_drafter (advance_times 6 Cases.drafting 1) 1 = Ok None
  /\ exists d', get_draft (advance_times 6 Cases.drafting 1) 1 = Some d'
                /\ ds_status d' = "complete"%string.
Proof.
  assert (Hd : exists d, get_draft Cases.drafting 1 = Some d
                         /\ ds_snake_order d = [1; 2; 3; 3; 2; 1]%Z
                         /\ ds_status d = "active"%string
                         /\ ds_current_pick d = 1%Z
                         /\ ds_total_picks d = 6%Z).
  { eexists. split; [reflexivity|]. repeat split; reflexivity. }
  destruct Hd as (d & Hg & Ho & Hs & Hc & Ht).
  assert (Hl : ds_total_picks d = Z.of_nat (length (ds_snake_order d))).
  { rewrite Ht, Ho. reflexivity. }
  split; [|split].
  - pose proof (draft_runs_through_order Cases.drafting 1 d 4 Hg Hs Hc Hl) as H.
    rewrite Ho in H. exact (proj1 (H ltac:(simpl; lia))).
  - pose proof (draft_runs_through_order Cases.drafting 1 d 6 Hg Hs Hc Hl) as H.
    rewrite Ho in H. exact (proj1 (H ltac:(simpl; lia))).
  - pose proof (draft_runs_through_order Cases.drafting 1 d 6 Hg Hs Hc Hl) as H.
    rewrite Ho in H. destruct (H ltac:(simpl; lia)) as (_ & d' & Hg' & _ & _ & Hdone).
    exists d'. split; [exact Hg'|]. apply Hdone; simpl; lia.
Defined.

(** Trade 1 of the small league, accepted and then rejected: the second
    call changes nothing. *)
Lemma settled_trade_stays_settled_witness :
  exists s',
    resolve_trade Examples.small_league 1 "accepted" = Ok (s', true)
    /\ resolve_trade s' 1 "rejected" = Ok (s', false).
Proof.
  destruct (resolve_trade Examples.small_league 1 "accepted") as [[s' b]|] eqn:E;
    [|vm_compute in E; discriminate E].
  assert (Hb : b = true) by (vm_compute in E; now injection E as _ <-).
  subst b. exists s'. split; [reflexivity|].
  apply (proj1 (settled_trade_stays_settled Examples.small_league 1 "rejected") s' "accepted" E).
  discriminate.
Defined.

End LeagueProperties.

(* ===================================================================== *)
(** * database.py: the transition to the playoffs *)
(* ===================================================================== *)

Module PlayoffProperties.

Import Py Scraper Database Invariants PyFacts StandingsFacts RosterFacts DraftFacts Tables Notions.

Lemma filter_ext_in' {A : Type} (f g : A -> bool) (l : list A) :
  (forall x, In x l -> f x = g x) -> List.filter f l = List.filter g l.
Proof.
  induction l as [|x l IH]; intros H; [reflexivity|].
  simpl. rewrite (H x (or_introl eq_refl)), IH; [reflexivity|].
  intros y Hy. apply H. now right.
Qed.

Lemma existsb_fmap {A B : Type} (p : B -> bool) (f : A -> B) (l : list A) :
  existsb p (map f l) = existsb (fun x => p (f x)) l.
Proof.
  induction l as [|x l IH]; [reflexivity|]. simpl. now rewrite IH.
Qed.

Lemma inner_loop (kept : list (Z * string)) (tid : Z) (pids : list string)
    (roster : list roster_entry) :
  fold_left (fun roster pid => if is_kept kept tid pid then roster
                               else delete_swiss_entry tid pid roster) pids roster
  = List.filter
      (fun fr => negb ((fr_fantasy_team_id fr =? tid)%Z
                       && String.eqb (fr_phase fr) "swiss"
                       && existsb (fun pid => String.eqb (fr_player_id fr) pid
                                              && negb (is_kept kept tid pid)) pids))
      roster.
Proof.
  revert roster. induction pids as [|pid pids IH]; intros roster.
  - simpl. symmetry. rewrite <- (filter_ext_in' (fun _ => true)).
    + induction roster; simpl; congruence.
    + intros fr _. now rewrite andb_false_r.
  - cbn [fold_left]. rewrite IH. destruct (is_kept kept tid pid) eqn:K.
    + apply filter_ext_in'. intros fr _. cbn [existsb]. rewrite K.
      cbn [negb]. now rewrite andb_false_r.
    + unfold delete_swiss_entry. rewrite filter_filter.
      apply filter_ext_in'. intros fr _. cbn [existsb]. rewrite K. cbn [negb].
      rewrite andb_true_r. unfold same_cell.
      destruct (fr_fantasy_team_id fr =? tid)%Z, (String.eqb (fr_phase fr) "swiss"),
        (String.eqb (fr_player_id fr) pid); reflexivity.
Qed.

Lemma team_step (kept : list (Z * string)) (tid : Z) (roster : list roster_entry) :
  (let swiss := map fr_player_id
                    (List.filter (fun fr => (fr_fantasy_team_id fr =? tid)%Z
                                            && String.eqb (fr_phase fr) "swiss") roster) in
   fold_left (fun roster pid =>
                if existsb (fun k => (fst k =? tid)%Z && String.eqb (snd k) pid) kept
                then roster else delete_swiss_entry tid pid roster) swiss roster)
  = List.filter
      (fun fr => negb ((fr_fantasy_team_id fr =? tid)%Z
                       && String.eqb (fr_phase fr) "swiss"
                       && negb (is_kept kept tid (fr_player_id fr))))
      roster.
Proof.
  cbv zeta. fold (is_kept kept tid).
  change (fun roster0 pid => if existsb (fun k => (fst k =? tid)%Z && String.eqb (snd k) pid) kept
                             then roster0 else delete_swiss_entry tid pid roster0)
    with (fun roster0 pid => if is_kept kept tid pid then roster0
                             else delete_swiss_entry tid pid roster0).
  rewrite inner_loop. apply filter_ext_in'. intros fr Hfr. f_equal.
  destruct ((fr_fantasy_team_id fr =? tid)%Z && String.eqb (fr_phase fr) "swiss") eqn:E;
    [|reflexivity].
  cbn [andb]. destruct (is_kept kept tid (fr_player_id fr)) eqn:K; cbn [negb].
  - apply not_true_is_false. intros H. apply existsb_exists in H.
    destruct H as (pid & _ & H). apply andb_true_iff in H. destruct H as [H1 H2].
    apply String.eqb_eq in H1. subst pid. rewrite K in H2. discriminate.
  - apply existsb_exists. exists (fr_player_id fr). split.
    + apply in_map. apply filter_In. split; [exact Hfr | exact E].
    + now rewrite String.eqb_refl, K.
Qed.

Lemma outer_loop (kept : list (Z * string)) (tids : list Z) (roster : list roster_entry) :
  fold_left
    (fun roster tid =>
       let swiss := map fr_player_id
                        (List.filter (fun fr => (fr_fantasy_team_id fr =? tid)%Z
                                                && String.eqb (fr_phase fr) "swiss")
                                     roster) in
       fold_left
         (fun roster pid =>
            if existsb (fun k => (fst k =? tid)%Z && String.eqb (snd k) pid) kept
            then roster else delete_swiss_entry tid pid roster)
         swiss roster)
    tids roster
  = List.filter
      (fun fr => negb (existsb (fun tid => (tid =? fr_fantasy_team_id fr)%Z) tids
                       && String.eqb (fr_phase fr) "swiss"
                       && negb (is_kept kept (fr_fantasy_team_id fr) (fr_player_id fr))))
      roster.
Proof.
  revert roster. induction tids as [|tid tids IH]; intros roster.
  - simpl. induction roster; simpl; congruence.
  - cbn [fold_left]. rewrite IH, team_step, filter_filter.
    apply filter_ext_in'. intros fr _. cbn [existsb].
    destruct (Z.eqb_spec tid (fr_fantasy_team_id fr)) as [->|N].
    + rewrite Z.eqb_refl. cbn [orb andb].
      destruct (String.eqb (fr_phase fr) "swiss"),
        (is_kept kept (fr_fantasy_team_id fr) (fr_player_id fr)); cbn;
        rewrite ?andb_false_r, ?andb_true_r; reflexivity.
    + assert (E : (fr_fantasy_team_id fr =? tid)%Z = false) by (apply Z.eqb_neq; congruence).
      rewrite E. reflexivity.
Qed.

(** X10.  Transition to the playoffs.  transition_to_playoffs deletes
    from the roster table exactly the swiss entries of the league's
    teams whose (team, player) pair is not in kept_players; every other
    entry (playoff entries, entries of other leagues, kept swiss
    entries) stays, in its place.  The league's phase becomes playoffs,
    the other leagues are untouched, and no league is added or removed. *)
Theorem transition_keeps_exactly (s : db) (league_id : Z) (kept : list (Z * string)) :
  let s' := transition_to_playoffs s league_id kept in
  fantasy_roster s'
  = List.filter (fun fr => negb (eliminated s league_id kept fr)) (fantasy_roster s)
  /\ map l_id (leagues s') = map l_id (leagues s)
  /\ (forall l, l ∈ leagues s' -> l_id l = league_id -> l_phase l = "playoffs"%string)
  /\ (forall l, l ∈ leagues s -> l_id l <> league_id -> l ∈ leagues s').
Proof.
  cbv zeta. unfold transition_to_playoffs.
  cbn [set_leagues set_roster fantasy_roster leagues].
  split; [|split; [|split]].
  - rewrite outer_loop. apply filter_ext_in'. intros fr _. unfold eliminated.
    do 3 f_equal. now rewrite existsb_fmap.
  - rewrite map_map. apply map_ext. intros l. now destruct (l_id l =? league_id)%Z.
  - intros l Hl E. apply list_elem_of_fmap in Hl. destruct Hl as (l0 & -> & _).
    destruct (Z.eqb_spec (l_id l0) league_id) as [_|N]; [reflexivity|].
    contradiction.
  - intros l Hl N. apply list_elem_of_fmap. exists l. split; [|exact Hl].
    destruct (Z.eqb_spec (l_id l) league_id) as [E|_]; [contradiction | reflexivity].
Qed.

End PlayoffProperties.

(* ===================================================================== *)
(** * database.py: recalculation, the two loops *)
(* ===================================================================== *)

Module RecalculationFacts.

Import Py Scraper Database Invariants PyFacts PointsFacts AggregatorFacts StandingsFacts RosterFacts Tables Notions.

Lemma score_rows_spec (role : string) (rows : list match_row) (acc : Q * Q * Q) :
  exists res,
    score_rows role rows acc = Ok res
    /\ res.1.1 == acc.1.1 + Spec.Qsum (map (fun r => (Spec.match_points role r).1.1) rows)
    /\ res.1.2 == acc.1.2 + Spec.Qsum (map (fun r => (Spec.match_points role r).1.2) rows)
    /\ res.2 == acc.2 + Spec.Qsum (map (fun r => (Spec.match_points role r).2) rows).
Proof.
  revert acc. induction rows as [|r rows IH]; intros [[tb tr] tp]; simpl.
  - eexists; split; [reflexivity|]. simpl. repeat split; ring.
  - rewrite match_points_ok. unfold_result.
    destruct (Spec.match_points role r) as [[bp rp] tp'] eqn:E.
    destruct (IH (tb + bp, tr + rp, tp + tp')) as (res & -> & H1 & H2 & H3).
    eexists; split; [reflexivity|]. simpl in *.
    rewrite H1, H2, H3. repeat split; ring.
Qed.

Lemma score_rows_totals (role : string) (rows : list match_row) :
  score_rows role rows (0, 0, 0) = Ok (all_match_totals role rows).
Proof.
  unfold all_match_totals.
  destruct (score_rows_spec role rows (0, 0, 0)) as (res & -> & _). reflexivity.
Qed.

Lemma all_match_totals_spec (role : string) (rows : list match_row) :
  (all_match_totals role rows).1.1
  == Spec.Qsum (map (fun r => (Spec.match_points role r).1.1) rows)
  /\ (all_match_totals role rows).1.2
     == Spec.Qsum (map (fun r => (Spec.match_points role r).1.2) rows)
  /\ (all_match_totals role rows).2
     == Spec.Qsum (map (fun r => (Spec.match_points role r).2) rows).
Proof.
  unfold all_match_totals.
  destruct (score_rows_spec role rows (0, 0, 0)) as (res & -> & H1 & H2 & H3).
  cbn [fst snd] in *. rewrite H1, H2, H3. repeat split; ring.
Qed.

Lemma recalculate_buckets_fold (roles : gmap (string * Z) player_row) (tournament_id : Z)
    (buckets : list (string * list match_row)) (m : gmap (string * Z) player_row) :
  recalculate_buckets roles tournament_id buckets m
  = Ok (fold_left (rescore_bucket roles tournament_id) buckets m).
Proof.
  revert m. induction buckets as [|[pid rows] buckets IH]; intros m; [reflexivity|].
  cbn [recalculate_buckets fold_left]. rewrite score_rows_totals.
  unfold mbind, result_bind. unfold rescore_bucket at 2. cbn [fst snd].
  destruct (all_match_totals _ rows) as [[tb tr] tp]. apply IH.
Qed.

Lemma rescore_untouched (roles : gmap (string * Z) player_row) (tournament_id : Z)
    (buckets : list (string * list match_row)) (m : gmap (string * Z) player_row)
    (k : string * Z) :
  (forall b, b ∈ buckets -> (b.1, tournament_id) <> k) ->
  fold_left (rescore_bucket roles tournament_id) buckets m !! k = m !! k.
Proof.
  revert m. induction buckets as [|b buckets IH]; intros m H; [reflexivity|].
  cbn [fold_left]. rewrite IH.
  - unfold rescore_bucket. apply lookup_alter_ne. apply H. now left.
  - intros b' Hb'. apply H. now right.
Qed.

Lemma rescore_touched (roles : gmap (string * Z) player_row) (tournament_id : Z)
    (buckets : list (string * list match_row)) (m : gmap (string * Z) player_row)
    (pid : string) (rows : list match_row) :
  NoDup (map fst buckets) ->
  (pid, rows) ∈ buckets ->
  fold_left (rescore_bucket roles tournament_id) buckets m !! (pid, tournament_id)
  = (fun row => rescored row (all_match_totals (player_role roles pid tournament_id) rows))
      <$> m !! (pid, tournament_id).
Proof.
  revert m. induction buckets as [|b buckets IH]; intros m Hn Hin.
  - now apply elem_of_nil in Hin.
  - cbn [map] in Hn. apply NoDup_cons in Hn. destruct Hn as [Hb Hn].
    cbn [fold_left]. apply elem_of_cons in Hin. destruct Hin as [<-|Hin].
    + rewrite rescore_untouched.
      * unfold rescore_bucket. cbn [fst snd]. now rewrite lookup_alter_eq.
      * intros b' Hb' E. injection E as E. apply Hb. cbn [fst]. rewrite <- E.
        apply list_elem_of_fmap. now exists b'.
    + rewrite (IH _ Hn Hin). unfold rescore_bucket.
      rewrite lookup_alter_ne; [reflexivity|].
      intros E. injection E as E. apply Hb. rewrite E.
      apply list_elem_of_fmap. now exists (pid, rows).
Qed.

Lemma group_rows_bucket (rows : list match_row) (pid : string) :
  Spec.rows_of pid rows <> [] ->
  (pid, Spec.rows_of pid rows) ∈ group_rows rows.
Proof.
  intros Hne.
  destruct (group_rows_grouped rows) as (Hn & Hb & Hall).
  destruct (Spec.rows_of pid rows) as [|r mine] eqn:E; [congruence|].
  assert (Hr : r ∈ rows /\ mr_player_id r = pid).
  { assert (Hin : In r (Spec.rows_of pid rows)) by (rewrite E; now left).
    unfold Spec.rows_of in Hin. apply filter_In in Hin. destruct Hin as [H1 H2].
    split; [now apply list_elem_of_In | now apply String.eqb_eq]. }
  destruct Hr as [Hr Hp].
  rewrite Forall_forall in Hall. specialize (Hall r Hr). rewrite Hp in Hall.
  apply list_elem_of_fmap in Hall. destruct Hall as ([k rs] & Hk & Hin).
  cbn [fst] in Hk. subst k.
  rewrite Forall_forall in Hb. destruct (Hb _ Hin) as [Hrs _]. cbn [fst snd] in Hrs.
  rewrite <- E, <- Hrs. exact Hin.
Qed.

Lemma group_rows_no_bucket (rows : list match_row) (pid : string) :
  Spec.rows_of pid rows = [] ->
  forall b, b ∈ group_rows rows -> b.1 <> pid.
Proof.
  intros E b Hb Hp.
  destruct (group_rows_grouped rows) as (Hn & Hf & Hall).
  rewrite Forall_forall in Hf. destruct (Hf b Hb) as [H1 H2].
  apply H2. rewrite H1, Hp. exact E.
Qed.

(** What [recalculate_tournament_points] leaves in the [players] table
    when the tournament has per-match rows. *)
Lemma recalculate_raw (a : site) (tournament_id : Z) :
  raw_rows a tournament_id <> [] ->
  exists m,
    recalculate_tournament_points a tournament_id
    = Ok (with_core a (set_players (core a) m))
    /\ forall pid t,
         m !! (pid, t)
         = if (t =? tournament_id)%Z
           then match Spec.rows_of pid (raw_rows a tournament_id) with
                | [] => players (core a) !! (pid, t)
                | mine =>
                    (fun row => rescored row
                       (all_match_totals (player_role (players (core a)) pid tournament_id)
                                         mine))
                      <$> players (core a) !! (pid, t)
                end
           else players (core a) !! (pid, t).
Proof.
  intros Hne. unfold recalculate_tournament_points.
  destruct (raw_rows a tournament_id) as [|r0 raw] eqn:Eraw; [congruence|].
  rewrite <- Eraw. rewrite recalculate_buckets_fold.
  eexists. split; [reflexivity|].
  intros pid t. destruct (Z.eqb_spec t tournament_id) as [->|Nt].
  - destruct (Spec.rows_of pid (raw_rows a tournament_id)) as [|r mine] eqn:E.
    + apply rescore_untouched. intros b Hb Hk. injection Hk as Hk.
      exact (group_rows_no_bucket _ _ E b Hb Hk).
    + rewrite <- E. apply rescore_touched.
      * apply (group_rows_grouped (raw_rows a tournament_id)).
      * apply group_rows_bucket. rewrite E. discriminate.
  - apply rescore_untouched. intros b _ Hk. injection Hk as _ Hk. congruence.
Qed.

End RecalculationFacts.

(* ===================================================================== *)
(** * database.py: recalculation *)
(* ===================================================================== *)

Module RecalculationProperties.

Import Py Scraper Database Invariants PyFacts PointsFacts AggregatorFacts StandingsFacts RosterFacts Tables Notions RecalculationFacts.

Lemma recalculate_raw_row (a : site) (tournament_id : Z) (pid : string)
    (row : player_row) :
  let mine := Spec.rows_of pid (raw_rows a tournament_id) in
  let role := pd_role (pr_data row) in
  players (core a) !! (pid, tournament_id) = Some row ->
  mine <> [] ->
  exists m row',
    recalculate_tournament_points a tournament_id
    = Ok (with_core a (set_players (core a) m))
    /\ m !! (pid, tournament_id) = Some row'
    /\ pd_base_points (pr_data row')
       == round (Spec.Qsum (map (fun r => (Spec.match_points role r).1.1) mine)) 4
    /\ pd_role_points (pr_data row')
       == round (Spec.Qsum (map (fun r => (Spec.match_points role r).1.2) mine)) 4
    /\ pd_fantasy_points (pr_data row')
       == round (Spec.Qsum (map (fun r => (Spec.match_points role r).2) mine)) 2.
Proof.
  intros mine role Hrow Hmine.
  assert (Hne : raw_rows a tournament_id <> []).
  { intros E. apply Hmine. unfold mine. now rewrite E. }
  destruct (recalculate_raw a tournament_id Hne) as (m & E & Hm).
  specialize (Hm pid tournament_id). rewrite Z.eqb_refl in Hm. fold mine in Hm.
  destruct mine as [|r0 mine'] eqn:Emine; [contradiction|].
  rewrite Hrow in Hm. cbn [fmap option_fmap option_map] in Hm.
  eexists m, _. split; [exact E|]. split; [exact Hm|].
  unfold player_role. rewrite Hrow. cbn [from_option]. fold role.
  destruct (all_match_totals_spec role (r0 :: mine')) as (H1 & H2 & H3).
  unfold rescored. cbn [pr_data with_points pd_base_points pd_role_points pd_fantasy_points].
  split; [now rewrite H1|]. split; [now rewrite H2 | now rewrite H3].
Qed.


Lemma rescored_twice (row : player_row) (v : Q * Q * Q) :
  rescored (rescored row v) v = rescored row v.
Proof. reflexivity. Qed.

Lemma player_role_rescored (m m' : gmap (string * Z) player_row) (pid : string) (t : Z) :
  (exists v, m' !! (pid, t) = (fun row => rescored row v) <$> m !! (pid, t))
  \/ m' !! (pid, t) = m !! (pid, t) ->
  player_role m' pid t = player_role m pid t.
Proof.
  unfold player_role. intros [[v ->]| ->]; [|reflexivity].
  now destruct (m !! (pid, t)).
Qed.

(** ** The fallback *)

Lemma sum_then_score_ok (d : player_dict) :
  Points.calculate_player_points (row_stats d) None = Ok (aggregate_totals d).
Proof.
  unfold aggregate_totals.
  destruct (calculate_player_points_eq (row_stats d) None) as (res & -> & _).
  reflexivity.
Qed.

Lemma recalculate_aggregates_fold (tournament_id : Z)
    (rows : list (string * Z * player_row)) (m : gmap (string * Z) player_row) :
  recalculate_aggregates tournament_id rows m
  = Ok (fold_left (rescore_aggregate tournament_id) rows m).
Proof.
  revert m. induction rows as [|[key row] rows IH]; intros m; [reflexivity|].
  cbn [recalculate_aggregates fold_left]. rewrite sum_then_score_ok.
  unfold mbind, result_bind. unfold rescore_aggregate at 2. cbn [fst snd].
  destruct (aggregate_totals (pr_data row)) as [[b r] t]. apply IH.
Qed.

Lemma rescore_aggregate_untouched (tournament_id : Z)
    (rows : list (string * Z * player_row)) (m : gmap (string * Z) player_row)
    (k : string * Z) :
  (forall kr, kr ∈ rows -> (kr.1.1, tournament_id) <> k) ->
  fold_left (rescore_aggregate tournament_id) rows m !! k = m !! k.
Proof.
  revert m. induction rows as [|kr rows IH]; intros m H; [reflexivity|].
  cbn [fold_left]. rewrite IH.
  - unfold rescore_aggregate, update_points. apply lookup_alter_ne. apply H. now left.
  - intros kr' Hkr'. apply H. now right.
Qed.

Lemma rescore_aggregate_touched (tournament_id : Z)
    (rows : list (string * Z * player_row)) (m : gmap (string * Z) player_row)
    (pid : string) (row : player_row) :
  NoDup (map fst rows) ->
  Forall (fun kr => kr.1.2 = tournament_id) rows ->
  ((pid, tournament_id), row) ∈ rows ->
  m !! (pid, tournament_id) = Some row ->
  fold_left (rescore_aggregate tournament_id) rows m !! (pid, tournament_id)
  = Some (rescored_once row).
Proof.
  revert m. induction rows as [|kr rows IH]; intros m Hn Ht Hin Hm.
  - now apply elem_of_nil in Hin.
  - cbn [map] in Hn. apply NoDup_cons in Hn. destruct Hn as [Hk Hn].
    apply Forall_cons in Ht. destruct Ht as [Hkt Ht].
    cbn [fold_left]. apply elem_of_cons in Hin. destruct Hin as [<-|Hin].
    + rewrite rescore_aggregate_untouched.
      * unfold rescore_aggregate, update_points. cbn [fst snd].
        rewrite lookup_alter_eq, Hm. reflexivity.
      * intros kr' Hkr' E. apply Hk. cbn [fst].
        rewrite Forall_forall in Ht. specialize (Ht kr' Hkr').
        apply list_elem_of_fmap. exists kr'. split; [|exact Hkr'].
        rewrite <- E. destruct kr' as [[p t] r]. cbn [fst snd] in *. now subst t.
    + apply (IH _ Hn Ht Hin).
      unfold rescore_aggregate, update_points. rewrite lookup_alter_ne; [exact Hm|].
      intros E. apply Hk. apply list_elem_of_fmap. exists ((pid, tournament_id), row).
      split; [|exact Hin]. cbn [fst]. rewrite <- E.
      destruct kr as [[p t] r]. cbn [fst snd] in *. now subst t.
Qed.

Lemma recalculate_fallback (a : site) (tournament_id : Z) :
  raw_rows a tournament_id = [] ->
  exists m,
    recalculate_tournament_points a tournament_id
    = Ok (with_core a (set_players (core a) m))
    /\ forall pid t,
         m !! (pid, t)
         = if (t =? tournament_id)%Z then rescored_once <$> players (core a) !! (pid, t)
           else players (core a) !! (pid, t).
Proof.
  intros Eraw. unfold recalculate_tournament_points. rewrite Eraw.
  rewrite recalculate_aggregates_fold. eexists. split; [reflexivity|].
  set (rows := map_to_list (filter (fun kv => kv.1.2 = tournament_id) (players (core a)))).
  assert (Hrows : forall k row, (k, row) ∈ rows
                                <-> players (core a) !! k = Some row /\ k.2 = tournament_id).
  { intros k row. unfold rows. rewrite elem_of_map_to_list.
    rewrite (map_lookup_filter_Some (fun kv => kv.1.2 = tournament_id)). reflexivity. }
  intros pid t. destruct (Z.eqb_spec t tournament_id) as [->|Nt].
  - destruct (players (core a) !! (pid, tournament_id)) as [row|] eqn:E.
    + cbn [fmap option_fmap option_map].
      apply rescore_aggregate_touched.
      * apply NoDup_fst_map_to_list.
      * apply Forall_forall. intros [k r] Hkr. now apply Hrows in Hkr.
      * apply Hrows. now split.
      * exact E.
    + cbn [fmap option_fmap option_map].
      rewrite rescore_aggregate_untouched; [exact E|].
      intros [k r] Hkr Ek. apply Hrows in Hkr. destruct Hkr as [Hk1 Hk2].
      destruct k as [p t']. cbn [fst snd] in *. subst t'. injection Ek as ->. congruence.
  - apply rescore_aggregate_untouched. intros kr _ E. injection E as _ E. congruence.
Qed.

Lemma rescored_once_twice (row : player_row) :
  rescored_once (rescored_once row) = rescored_once row.
Proof. reflexivity. Qed.

Lemma raw_rows_with_core (a : site) (s : db) (t : Z) :
  raw_rows (with_core a s) t = raw_rows a t.
Proof. reflexivity. Qed.

Lemma with_core_players_twice (a : site) (m m' : gmap (string * Z) player_row) :
  with_core (with_core a (set_players (core a) m))
            (set_players (core (with_core a (set_players (core a) m))) m')
  = with_core a (set_players (core a) m').
Proof. reflexivity. Qed.

(** X12.  Recalculation is idempotent.  When
    recalculate_tournament_points returns normally, running it again on
    the resulting database returns normally and leaves that database
    exactly as it is. *)
Theorem recalculation_idempotent (a a' : site) (tournament_id : Z) :
  recalculate_tournament_points a tournament_id = Ok a' ->
  recalculate_tournament_points a' tournament_id = Ok a'.
Proof.
  intros E.
  destruct (raw_rows a tournament_id) as [|r0 raw] eqn:Eraw.
  - destruct (recalculate_fallback a tournament_id Eraw) as (m & E1 & Hm).
    rewrite E1 in E. injection E as <-.
    destruct (recalculate_fallback (with_core a (set_players (core a) m)) tournament_id)
      as (m' & E2 & Hm'); [exact Eraw|].
    rewrite E2, with_core_players_twice. do 3 f_equal.
    apply map_eq. intros [pid t]. rewrite Hm'. cbn [with_core core set_players players].
    rewrite Hm. destruct (t =? tournament_id)%Z; [|reflexivity].
    now destruct (players (core a) !! (pid, t)).
  - assert (Hne : raw_rows a tournament_id <> []) by (rewrite Eraw; discriminate).
    destruct (recalculate_raw a tournament_id Hne) as (m & E1 & Hm).
    rewrite E1 in E. injection E as <-.
    destruct (recalculate_raw (with_core a (set_players (core a) m)) tournament_id)
      as (m' & E2 & Hm'); [exact Hne|].
    rewrite E2, with_core_players_twice. do 3 f_equal.
    apply map_eq. intros [pid t]. rewrite Hm'. cbn [with_core core set_players players].
    rewrite raw_rows_with_core.
    assert (Hrole : player_role m pid tournament_id
                    = player_role (players (core a)) pid tournament_id).
    { apply player_role_rescored. rewrite Hm, Z.eqb_refl.
      destruct (Spec.rows_of pid (raw_rows a tournament_id)); [now right|].
      left. eexists. reflexivity. }
    rewrite Hrole. rewrite Hm.
    destruct (t =? tournament_id)%Z; [|reflexivity].
    destruct (Spec.rows_of pid (raw_rows a tournament_id)); [reflexivity|].
    now destruct (players (core a) !! (pid, t)).
Qed.

Lemma Qsum_split {A : Type} (f : A -> Q) (p : A -> bool) (l : list A) :
  Spec.Qsum (map f l)
  == Spec.Qsum (map f (List.filter p l))
     + Spec.Qsum (map f (List.filter (fun x => negb (p x)) l)).
Proof.
  induction l as [|x l IH]; simpl; [ring|].
  destruct (p x); simpl; rewrite IH; ring.
Qed.

Lemma complete_all (rows : list match_row) :
  Forall (fun r => mr_stats_incomplete r = 0%Z) rows -> Spec.complete rows = rows.
Proof.
  induction 1 as [|r rows Hr _ IH]; [reflexivity|].
  unfold Spec.complete in *. simpl. rewrite Hr, IH. reflexivity.
Qed.


(** X14.  Recalculation without per-match rows.  When the tournament has
    no per-match row, recalculate_tournament_points returns normally,
    leaves the rows of other tournaments alone, adds no row, and gives
    every leaderboard row of the tournament the three results of
    calculate_player_points applied once to the row's own summed and
    averaged columns, under the row's role; the other columns and the
    manual points stay. *)
Theorem recalculation_without_matches (a : site) (tournament_id : Z) :
  raw_rows a tournament_id = [] ->
  exists m,
    recalculate_tournament_points a tournament_id
    = Ok (with_core a (set_players (core a) m))
    /\ (forall pid t, t <> tournament_id -> m !! (pid, t) = players (core a) !! (pid, t))
    /\ (forall pid, players (core a) !! (pid, tournament_id) = None ->
                    m !! (pid, tournament_id) = None)
    /\ (forall pid row,
          players (core a) !! (pid, tournament_id) = Some row ->
          exists row' base role_pts total,
            m !! (pid, tournament_id) = Some row'
            /\ Spec.sum_then_score (pr_data row) = Ok (base, role_pts, total)
            /\ pd_base_points (pr_data row') = base
            /\ pd_role_points (pr_data row') = role_pts
            /\ pd_fantasy_points (pr_data row') = total
            /\ same_but_points (pr_data row) (pr_data row')
            /\ pr_manual_pts row' = pr_manual_pts row).
Proof.
  intros Eraw. destruct (recalculate_fallback a tournament_id Eraw) as (m & E & Hm).
  exists m. split; [exact E|]. split; [|split].
  - intros pid t Ht. rewrite Hm.
    destruct (Z.eqb_spec t tournament_id); [contradiction | reflexivity].
  - intros pid H. now rewrite Hm, Z.eqb_refl, H.
  - intros pid row H. rewrite Hm, Z.eqb_refl, H. cbn [fmap option_fmap option_map].
    destruct (aggregate_totals (pr_data row)) as [[b r] t] eqn:Et.
    exists (rescored_once row), b, r, t. split; [reflexivity|].
    split.
    { change (Spec.sum_then_score (pr_data row))
        with (Points.calculate_player_points (row_stats (pr_data row)) None).
      now rewrite sum_then_score_ok, Et. }
    unfold rescored_once. rewrite Et. cbn. repeat split; reflexivity.
Qed.


(** Recalculating the scraped league a second time. *)
Lemma recalculation_idempotent_witness :
  exists a',
    recalculate_tournament_points Cases.scraped 1 = Ok a'
    /\ recalculate_tournament_points a' 1 = Ok a'.
Proof.
  destruct (recalculate_tournament_points Cases.scraped 1) as [a'|] eqn:E;
    [|vm_compute in E; discriminate E].
  exists a'. split; [reflexivity|].
  exact (recalculation_idempotent Cases.scraped a' 1 E).
Defined.


(** Before any scrape the row of p_a, stored with 100 points, is
    rescored on its own columns and gets 58.19. *)
Lemma recalculation_without_matches_witness :
  exists a' row',
    recalculate_tournament_points Cases.unscraped 1 = Ok a'
    /\ players (core a') !! ("p_a"%string, 1%Z) = Some row'
    /\ pd_fantasy_points (pr_data row') == 58.19.
Proof.
  destruct (recalculation_without_matches Cases.unscraped 1 eq_refl)
    as (m & E & _ & _ & Hrow).
  destruct (Hrow "p_a"%string (Examples.leaderboard_row "p_a" 100 0) eq_refl)
    as (row' & base & role_pts & total & Hm & Hs & _ & _ & Hf & _).
  exists (with_core Cases.unscraped (set_players (core Cases.unscraped) m)), row'.
  split; [exact E|]. split; [exact Hm|].
  rewrite Hf. vm_compute in Hs. injection Hs as _ _ <-. reflexivity.
Defined.

End RecalculationProperties.

(* ===================================================================== *)
(** * scraper.py: the row parser *)
(* ===================================================================== *)

Module ParserProperties.

Import Py Scraper Database Invariants PyFacts PointsFacts AggregatorFacts StandingsFacts RosterFacts Tables Notions.

Lemma parse_row_some (row : row_cells) (match_id match_url : string) (tournament_id : Z)
    (r : match_row) :
  _parse_row_by_class row match_id match_url tournament_id = Some r ->
  str_truthy (c_ign row) = true
  /\ mr_ign r = c_ign row
  /\ mr_deaths r = Z.max (default 1%Z (c_deaths row)) 1
  /\ mr_role r = "flex"%string
  /\ mr_match_team r = ""%string
  /\ mr_adr r = c_adr row
  /\ mr_kast r = normalise_kast (from_option snd 0 (c_kast row))
  /\ mr_missing_fields r
     = join_comma ((if negb (kast_given row) || Qeq_bool (mr_kast r) 0
                    then ["kast"%string] else [])
                   ++ (if Qeq_bool (mr_adr r) 0 then ["adr"%string] else []))
  /\ mr_stats_incomplete r
     = (if negb (kast_given row) || Qeq_bool (mr_kast r) 0 || Qeq_bool (mr_adr r) 0
        then 1 else 0)%Z.
Proof.
  unfold _parse_row_by_class.
  destruct (str_truthy (c_ign row)) eqn:Hign; [|discriminate]. cbn [negb].
  destruct (_ && _ && _ && _); [discriminate|].
  intros [= <-]. cbn.
  assert (Ek : match c_kast row with
               | Some (txt, _) => String.eqb txt "" || String.eqb txt "-" || String.eqb txt "—"
               | None => true
               end = negb (kast_given row)).
  { unfold kast_given. destruct (c_kast row) as [[txt q]|]; [|reflexivity].
    now rewrite negb_involutive. }
  rewrite Ek.
  repeat split.
  destruct (negb (kast_given row) || Qeq_bool _ 0), (Qeq_bool (c_adr row) 0); reflexivity.
Qed.

(** X15.  Rows kept by the parser.  Every row that _parse_row_by_class
    returns has a non-empty ign, deaths of at least 1, the role flex,
    and a stats_incomplete flag of 0 or 1.  The flag is 0 exactly when
    missing_fields is empty, and exactly when the KAST cell is present
    with a text other than the empty string, - and the long dash, and
    neither the stored kast nor the stored adr is 0.  The zero-deaths
    guard of calculate_player_points therefore never applies to such a
    row. *)
Theorem parsed_row_invariants (row : row_cells) (match_id match_url : string)
    (tournament_id : Z) (r : match_row) :
  _parse_row_by_class row match_id match_url tournament_id = Some r ->
  mr_ign r <> ""%string
  /\ (1 <= mr_deaths r)%Z
  /\ mr_role r = "flex"%string
  /\ (mr_stats_incomplete r = 0%Z \/ mr_stats_incomplete r = 1%Z)
  /\ (mr_stats_incomplete r = 0%Z <-> mr_missing_fields r = ""%string)
  /\ (mr_stats_incomplete r = 0%Z
      <-> kast_given row = true /\ ~ mr_kast r == 0 /\ ~ mr_adr r == 0)
  /\ (forall role, Points.deaths_or_1 (pdata role r) = inject_Z (mr_deaths r)).
Proof.
  intros H. destruct (parse_row_some _ _ _ _ _ H)
    as (Hign & Eign & Ed & Er & _ & Eadr & Ekast & Em & Es).
  split. { rewrite Eign. intros E. rewrite E in Hign. discriminate. }
  split. { rewrite Ed. lia. }
  split; [exact Er|].
  rewrite Es, Em. clear Es Em.
  assert (Hd : forall role, Points.deaths_or_1 (pdata role r) = inject_Z (mr_deaths r)).
  { intros role. unfold Points.deaths_or_1. cbn [pdata Points.deaths].
    destruct (Qeq_bool (inject_Z (mr_deaths r)) 0) eqn:E0; [|reflexivity].
    apply Qeq_bool_iff in E0. change 0 with (inject_Z 0) in E0.
    pose proof (proj1 (inject_Z_injective _ _) E0) as E1. rewrite Ed in E1. exfalso. lia. }
  destruct (kast_given row); cbn [negb orb];
    (destruct (Qeq_bool (mr_kast r) 0) eqn:Ek;
       [apply Qeq_bool_iff in Ek | apply Qeq_bool_false in Ek]);
    cbn [orb];
    (destruct (Qeq_bool (mr_adr r) 0) eqn:Ea;
       [apply Qeq_bool_iff in Ea | apply Qeq_bool_false in Ea]);
    cbn [app join_comma String.concat];
    (split; [auto|]);
    (split; [split; intros; first [discriminate | reflexivity]|]);
    (split; [|exact Hd]);
    (split; [intros; first [discriminate | auto]
            | intros (? & ? & ?); first [discriminate | contradiction | reflexivity]]).
Qed.

(** When the parser discards a row. *)
Lemma row_dropped_iff (row : row_cells) (match_id match_url : string)
    (tournament_id : Z) :
  _parse_row_by_class row match_id match_url tournament_id = None
  <-> c_ign row = ""%string
      \/ (c_kills row = 0%Z /\ c_deaths row = Some 0%Z
          /\ c_acs row == 0 /\ c_rating row == 0).
Proof.
  unfold _parse_row_by_class.
  destruct (c_ign row) as [|c ign] eqn:Ei; cbn [str_truthy negb].
  { split; [now left | reflexivity]. }
  destruct (Z.eqb_spec (c_kills row) 0) as [Ek|Nk]; cbn [andb].
  2: { split; [intros HN; discriminate HN|].
       intros [H|(H1 & H2 & H3 & H4)]; [discriminate H | contradiction]. }
  destruct (c_deaths row) as [d|] eqn:Ed; cbn [default from_option]; unfold id.
  2: { change (1 =? 0)%Z with false. cbn [andb]. split; [intros HN; discriminate HN|].
       intros [H|(H1 & H2 & H3 & H4)]; [discriminate H | discriminate H2]. }
  destruct (Z.eqb_spec d 0) as [->|Nd]; cbn [andb].
  2: { split; [intros HN; discriminate HN|].
       intros [H|(H1 & H2 & H3 & H4)]; [discriminate H | congruence]. }
  destruct (Qeq_bool (c_acs row) 0) eqn:Ea; cbn [andb].
  2: { apply Qeq_bool_false in Ea. split; [intros HN; discriminate HN|].
       intros [H|(H1 & H2 & H3 & H4)]; [discriminate H | contradiction]. }
  destruct (Qeq_bool (c_rating row) 0) eqn:Er.
  - apply Qeq_bool_iff in Ea, Er. split; [|reflexivity]. intros _. right. auto.
  - apply Qeq_bool_false in Er. split; [intros HN; discriminate HN|].
    intros [H|(H1 & H2 & H3 & H4)]; [discriminate H | contradiction].
Qed.

(** A row with no deaths and an empty KAST cell is kept with one death
    and flagged incomplete. *)
Lemma parsed_row_invariants_witness :
  exists r,
    _parse_row_by_class Cases.no_kast_cells "104" "https://www.vlr.gg/104" 1 = Some r
    /\ (1 <= mr_deaths r)%Z
    /\ mr_role r = "flex"%string
    /\ mr_stats_incomplete r = 1%Z
    /\ mr_missing_fields r <> ""%string.
Proof.
  destruct (_parse_row_by_class Cases.no_kast_cells "104" "https://www.vlr.gg/104" 1)
    as [r|] eqn:E; [|vm_compute in E; discriminate E].
  destruct (parsed_row_invariants _ _ _ _ r E) as (_ & Hd & Hr & H01 & Hm & Hk & _).
  exists r. split; [reflexivity|]. split; [exact Hd|]. split; [exact Hr|].
  assert (H1 : mr_stats_incomplete r <> 0%Z).
  { intros H0. apply Hk in H0 as [Hg _]. discriminate Hg. }
  split.
  - destruct H01 as [H0|H]; [contradiction | exact H].
  - intros Hnone. apply H1, Hm, Hnone.
Defined.

End ParserProperties.

(* ===================================================================== *)
(** * scraper.py: the aggregator *)
(* ===================================================================== *)

Module AggregatorProperties.

Import Py Scraper Database Invariants PyFacts PointsFacts AggregatorFacts StandingsFacts RosterFacts Tables Notions PlayoffProperties.

Lemma note_all (ids seen : list string) :
  fold_left note ids seen
  = seen ++ List.filter (fun y => negb (bool_decide (y ∈ seen))) (distinct ids).
Proof.
  revert seen. induction ids as [|x rest IH]; intros seen.
  - simpl. now rewrite app_nil_r.
  - cbn [fold_left distinct List.filter]. rewrite IH. unfold note.
    destruct (bool_decide (x ∈ seen)) eqn:Ex; cbn [negb].
    + apply bool_decide_eq_true in Ex. f_equal. rewrite filter_filter.
      apply filter_ext_in'. intros y _.
      destruct (bool_decide (y ∈ seen)) eqn:Ey; cbn [negb]; [now rewrite andb_false_r|].
      apply bool_decide_eq_false in Ey. rewrite andb_true_r.
      destruct (String.eqb_spec y x) as [->|_]; [contradiction | reflexivity].
    + apply bool_decide_eq_false in Ex. rewrite <- app_assoc. cbn [app]. do 2 f_equal.
      rewrite filter_filter. apply filter_ext_in'. intros y _.
      destruct (String.eqb_spec y x) as [->|N]; cbn [negb andb].
      * rewrite bool_decide_eq_true_2; [reflexivity|].
        apply elem_of_app. right. apply list_elem_of_here.
      * f_equal. apply bool_decide_ext. rewrite elem_of_app, list_elem_of_singleton.
        tauto.
Qed.

Lemma filter_true {A : Type} (l : list A) : List.filter (fun _ => true) l = l.
Proof. induction l; simpl; congruence. Qed.

Lemma group_rows_keys_from (rows : list match_row)
    (buckets : list (string * list match_row)) :
  map fst (fold_left (fun buckets row => bucket_append (mr_player_id row) row buckets)
                     rows buckets)
  = fold_left note (map mr_player_id rows) (map fst buckets).
Proof.
  revert buckets. induction rows as [|r rows IH]; intros buckets; [reflexivity|].
  cbn [fold_left map]. rewrite IH, bucket_append_keys. reflexivity.
Qed.

Lemma group_rows_keys (rows : list match_row) :
  map fst (group_rows rows) = distinct (map mr_player_id rows).
Proof.
  unfold group_rows. rewrite group_rows_keys_from, note_all. cbn [map app].
  rewrite <- (filter_true (distinct _)) at 2. apply filter_ext_in'.
  intros y _. rewrite bool_decide_eq_false_2; [reflexivity | apply not_elem_of_nil].
Qed.

Lemma aggregate_buckets_each (buckets : list (string * list match_row))
    (out : list aggregate) :
  aggregate_buckets buckets = Ok out ->
  Forall2 (fun b a => aggregate_bucket b.1 b.2 = Ok a) buckets out.
Proof.
  revert out. induction buckets as [|[pid rows] rest IH]; intros out.
  - intros [= <-]. constructor.
  - cbn [aggregate_buckets]. destruct (aggregate_bucket pid rows) as [a|e] eqn:Ea;
      [|discriminate].
    unfold mbind, result_bind. destruct (aggregate_buckets rest) as [others|e] eqn:Er;
      [|discriminate].
    intros [= <-]. constructor; [exact Ea | now apply IH].
Qed.

Lemma aggregate_bucket_identity (pid : string) (base : match_row) (rest : list match_row)
    (a : aggregate) :
  aggregate_bucket pid (base :: rest) = Ok a ->
  pd_player_id (agg_player a) = pid
  /\ pd_tournament_id (agg_player a) = mr_tournament_id base
  /\ pd_ign (agg_player a) = mr_ign base
  /\ pd_team (agg_player a) = mr_team base
  /\ pd_team_abbr (agg_player a) = mr_team_abbr base
  /\ pd_region (agg_player a) = mr_region base
  /\ pd_role (agg_player a) = mr_role base
  /\ pd_vlr_url (agg_player a) = mr_vlr_url base
  /\ pd_agent (agg_player a) = most_common_agent (base :: rest)
  /\ pd_rounds_played (agg_player a) = Z.of_nat (length (base :: rest))
  /\ agg_has_incomplete_matches a
     = existsb (fun r => truthy (mr_stats_incomplete r)) (base :: rest).
Proof.
  unfold aggregate_bucket.
  set (rows := base :: rest).
  repeat (rewrite (div_ok _ (inject_Z (Z.of_nat (length rows))))
            by apply length_nonzero; unfold_result).
  repeat (rewrite (div_ok _ (inject_Z (Z.max _ 1))) by apply max_1_nonzero;
          unfold_result).
  destruct (points_loop_zero (mr_role base) rows) as (tb & tr & tp & -> & _).
  intros [= <-]. repeat split; reflexivity.
Qed.

(** X16.  One leaderboard row per player.  aggregate_player_stats
    returns normally on every list of per-match rows, with exactly one
    row per distinct player_id, in the order in which the players first
    appear.  The row takes ign, team, team_abbr, region, role and
    tournament_id from the player's first per-match row, counts all the
    player's rows in rounds_played, and is flagged
    has_incomplete_matches exactly when one of them is incomplete. *)
Theorem aggregate_rows_first_seen (rows : list match_row) :
  exists out,
    aggregate_player_stats rows = Ok out
    /\ map (fun a => pd_player_id (agg_player a)) out = distinct (map mr_player_id rows)
    /\ forall a, a ∈ out ->
         exists first rest,
           Spec.rows_of (pd_player_id (agg_player a)) rows = first :: rest
           /\ pd_ign (agg_player a) = mr_ign first
           /\ pd_team (agg_player a) = mr_team first
           /\ pd_team_abbr (agg_player a) = mr_team_abbr first
           /\ pd_region (agg_player a) = mr_region first
           /\ pd_role (agg_player a) = mr_role first
           /\ pd_tournament_id (agg_player a) = mr_tournament_id first
           /\ pd_rounds_played (agg_player a) = Z.of_nat (length (first :: rest))
           /\ (agg_has_incomplete_matches a = true
               <-> exists r, r ∈ first :: rest /\ mr_stats_incomplete r <> 0%Z).
Proof.
  destruct (aggregate_player_stats_spec rows) as (out & E & _ & _ & _).
  exists out. split; [exact E|].
  unfold aggregate_player_stats in E. apply aggregate_buckets_each in E.
  destruct (group_rows_grouped rows) as (_ & HF & _).
  split.
  - rewrite <- group_rows_keys.
    clear HF. induction E as [|[pid rs] a bs out' Ha _ IH]; [reflexivity|].
    cbn [map fst]. rewrite IH. f_equal. cbn [fst snd] in Ha.
    destruct rs as [|base rest]; [discriminate Ha|].
    apply (aggregate_bucket_identity _ _ _ _ Ha).
  - intros a Ha. apply list_elem_of_lookup in Ha. destruct Ha as [i Hi].
    destruct (Forall2_lookup_r _ _ _ _ _ E Hi) as ([pid rs] & Hb & Hagg).
    apply list_elem_of_lookup_2 in Hb.
    destruct (proj1 (Forall_forall _ _) HF _ Hb) as [Ers _]. cbn [fst snd] in Ers, Hagg.
    destruct rs as [|base rest]; [discriminate Hagg|].
    destruct (aggregate_bucket_identity _ _ _ _ Hagg)
      as (Hp & Ht & Hign & Htm & Hab & Hrg & Hro & _ & _ & Hrp & Hinc).
    exists base, rest. split; [now rewrite Hp|].
    repeat (split; [assumption|]).
    rewrite Hinc. split.
    + intros H. apply existsb_exists in H. destruct H as (r & Hr & Ht').
      exists r. split; [now apply list_elem_of_In|].
      unfold truthy in Ht'. apply negb_true_iff, Z.eqb_neq in Ht'. exact Ht'.
    + intros (r & Hr & Hn). apply existsb_exists. exists r.
      split; [now apply list_elem_of_In|].
      unfold truthy. now apply negb_true_iff, Z.eqb_neq.
Qed.

(** ** The order of the rows *)

Lemma Zsum_perm (l l' : list Z) : Permutation l l' -> Spec.Zsum l = Spec.Zsum l'.
Proof.
  induction 1; simpl; lia.
Qed.

Lemma average_perm (l l' : list Q) :
  Permutation l l' -> Spec.average l == Spec.average l'.
Proof.
  intros H. unfold Spec.average.
  rewrite (Qsum_perm _ _ H), (Permutation_length H). reflexivity.
Qed.

Lemma role_of_uniform (role : string) (rows : list match_row) :
  Forall (fun r => mr_role r = role) rows -> rows <> [] -> Spec.role_of rows = role.
Proof.
  intros H Hne. destruct rows as [|r rows]; [congruence|].
  now apply Forall_cons in H.
Qed.



End AggregatorProperties.

(* ===================================================================== *)
(** * scraper.py: regions *)
(* ===================================================================== *)

Module RegionProperties.

Import Py Regions.

Lemma table_checked :
  forallb (fun kv => String.eqb (fst kv) "rex regum qeon"
                     || String.eqb (infer_region (fst kv) "") (snd kv))
          TEAM_REGION_MAP = true.
Proof. vm_compute. reflexivity. Qed.

Lemma table_regions :
  forallb (fun kv => existsb (String.eqb (snd kv)) ["EMEA"; "AMER"; "APAC"; "CN"]%string)
          TEAM_REGION_MAP = true.
Proof. vm_compute. reflexivity. Qed.

(** X18.  Regions from the table.  infer_region returns a non-empty
    source_region unchanged.  Without one it returns EMEA, AMER, APAC,
    CN or the empty string.  Applied to a key of TEAM_REGION_MAP as the
    lower-cased team name it returns the region listed for that key, for
    every key but one: rex regum qeon, listed as APAC, is given AMER,
    because the earlier key eg occurs in it. *)
Theorem infer_region_table (low source_region : string) :
  (source_region <> ""%string -> infer_region low source_region = source_region)
  /\ infer_region low "" ∈ ["EMEA"; "AMER"; "APAC"; "CN"; ""]%string
  /\ (forall k v, (k, v) ∈ TEAM_REGION_MAP -> k <> "rex regum qeon"%string ->
                  infer_region k "" = v)
  /\ infer_region "rex regum qeon" "" = "AMER"%string
  /\ ("rex regum qeon", "APAC")%string ∈ TEAM_REGION_MAP.
Proof.
  split; [|split; [|split; [|split]]].
  - intros H. unfold infer_region. destruct source_region; [congruence | reflexivity].
  - unfold infer_region. cbn [str_truthy].
    destruct (List.find _ TEAM_REGION_MAP) as [[k v]|] eqn:E.
    + apply find_some in E. destruct E as [Hin _].
      pose proof (proj1 (forallb_forall _ _) table_regions _ Hin) as H.
      cbn [snd existsb] in H. cbn [from_option snd].
      repeat (apply orb_true_iff in H; destruct H as [H|H];
              [apply String.eqb_eq in H; subst v;
               (repeat (try apply list_elem_of_here; apply list_elem_of_further))|]).
      discriminate H.
    + cbn [from_option]. do 4 apply list_elem_of_further. apply list_elem_of_here.
  - intros k v Hin Hk. apply list_elem_of_In in Hin.
    pose proof (proj1 (forallb_forall _ _) table_checked _ Hin) as H.
    cbn [fst snd] in H. apply orb_true_iff in H. destruct H as [H|H].
    + apply String.eqb_eq in H. contradiction.
    + now apply String.eqb_eq in H.
  - vm_compute. reflexivity.
  - apply list_elem_of_In. vm_compute. tauto.
Qed.

End RegionProperties.

(* ===================================================================== *)
(** * database.py: followed teams, results and team adjustments *)
(* ===================================================================== *)

Module FollowProperties.

Import Py Scraper Database Invariants PyFacts PointsFacts AggregatorFacts StandingsFacts RosterFacts Tables Notions PlayoffProperties.

Lemma filter_fresh_id {A : Type} (id : A -> Z) (l : list A) (seq : Z) :
  Forall (fun x => (id x <= seq)%Z) l ->
  List.filter (fun x => negb (id x =? seq + 1)%Z) l = l.
Proof.
  induction 1 as [|x l Hx _ IH]; [reflexivity|].
  simpl. destruct (Z.eqb_spec (id x) (seq + 1)) as [E|_]; [lia|].
  simpl. now rewrite IH.
Qed.

(** ** Followed teams *)

Lemma find_app_l {A : Type} (f : A -> bool) (l l' : list A) (x : A) :
  List.find f l = Some x -> List.find f (l ++ l') = Some x.
Proof.
  induction l as [|y l IH]; [discriminate|].
  simpl. destruct (f y); [trivial | exact IH].
Qed.

Lemma find_app_r {A : Type} (f : A -> bool) (l l' : list A) :
  existsb f l = false -> List.find f (l ++ l') = List.find f l'.
Proof.
  induction l as [|y l IH]; [reflexivity|].
  simpl. destruct (f y); [discriminate | exact IH].
Qed.

Lemma find_none_existsb {A : Type} (f : A -> bool) (l : list A) :
  existsb f l = false -> List.find f l = None.
Proof.
  induction l as [|y l IH]; [reflexivity|].
  simpl. destruct (f y); [discriminate | exact IH].
Qed.

Lemma find_replace {A : Type} (hit f : A -> bool) (row : A) (l : list A) :
  (forall x, hit x = true -> f x = f row) ->
  List.find f (map (fun x => if hit x then row else x) l)
  = (fun x => if hit x then row else x) <$> List.find f l.
Proof.
  intros H. induction l as [|y l IH]; [reflexivity|].
  simpl. destruct (hit y) eqn:Ey.
  - rewrite <- (H y Ey). destruct (f y); [simpl; now rewrite Ey | exact IH].
  - destruct (f y); [simpl; now rewrite Ey | exact IH].
Qed.

Lemma follow_points_of (s : db) (team_id tournament_id : Z) (f : followed_team) :
  get_followed_team s team_id = Some f ->
  fo_team_name f <> ""%string ->
  calculate_team_follow_points s team_id tournament_id
  == Spec.Qsum (map Spec.result_points (team_results s tournament_id (fo_team_name f))).
Proof.
  intros Hf Hn. unfold calculate_team_follow_points. rewrite Hf.
  unfold get_match_results. rewrite (str_truthy_nonempty _ Hn).
  rewrite follow_loop_spec, Qplus_0_l.
  rewrite filter_filter. unfold team_results.
  apply Qsum_perm. apply Permutation_map. symmetry. apply Permutation_rev.
Qed.

(** X21.  One followed team per fantasy team.  When set_followed_team
    returns normally on a table with one row per fantasy team at most,
    get_followed_team returns the new name and region, the table still
    has one row per fantasy team at most, and the followed teams of the
    other fantasy teams are unchanged.  For a non-empty name the follow
    points of the team are then the points of the recorded results of
    the newly followed team.  After remove_followed_team the team
    follows nobody. *)
Theorem followed_team_is_replaced (s s' : db) (team_id : Z) (team_name team_region : string) :
  set_followed_team s team_id team_name team_region = Ok s' ->
  NoDup (map fo_fantasy_team_id (followed_teams s)) ->
  get_followed_team s' team_id
  = Some {| fo_fantasy_team_id := team_id; fo_team_name := team_name;
            fo_team_region := team_region |}
  /\ NoDup (map fo_fantasy_team_id (followed_teams s'))
  /\ (forall other, other <> team_id ->
        get_followed_team s' other = get_followed_team s other)
  /\ (team_name <> ""%string ->
      forall tournament_id,
        calculate_team_follow_points s' team_id tournament_id
        == Spec.Qsum (map Spec.result_points (team_results s tournament_id team_name)))
  /\ get_followed_team (remove_followed_team s' team_id) team_id = None.
Proof.
  unfold set_followed_team.
  set (row := {| fo_fantasy_team_id := team_id; fo_team_name := team_name;
                 fo_team_region := team_region |}).
  set (hit := fun f => (fo_fantasy_team_id f =? team_id)%Z).
  intros H Hn.
  assert (Hget : get_followed_team s' team_id = Some row
                 /\ map fo_fantasy_team_id (followed_teams s')
                    = map fo_fantasy_team_id (followed_teams s)
                      ++ (if existsb hit (followed_teams s) then [] else [team_id])
                 /\ (forall other, other <> team_id ->
                       get_followed_team s' other = get_followed_team s other)
                 /\ match_results s' = match_results s).
  { destruct (existsb hit (followed_teams s)) eqn:Eh.
    - injection H as <-. unfold get_followed_team, fetchone. cbn [set_followed followed_teams].
      split; [|split; [|split; [|reflexivity]]].
      + rewrite (find_replace hit hit row).
        * apply existsb_exists in Eh. destruct Eh as (x & Hx & Hhx).
          destruct (List.find hit (followed_teams s)) as [y|] eqn:Ef.
          -- apply find_some in Ef. destruct Ef as [_ Ey]. simpl. now rewrite Ey.
          -- exfalso. pose proof (find_none _ _ Ef x Hx) as Hc. congruence.
        * intros x Hx. rewrite Hx. unfold hit, row. cbn. now rewrite Z.eqb_refl.
      + rewrite app_nil_r, map_map. apply map_ext. intros f. unfold hit.
        destruct (Z.eqb_spec (fo_fantasy_team_id f) team_id) as [->|_]; reflexivity.
      + intros other Ho.
        rewrite (find_replace hit (fun f => (fo_fantasy_team_id f =? other)%Z) row).
        * destruct (List.find _ (followed_teams s)) as [y|] eqn:Ef; [|reflexivity].
          apply find_some in Ef. destruct Ef as [_ Ey]. simpl. unfold hit.
          destruct (Z.eqb_spec (fo_fantasy_team_id y) team_id) as [E|_]; [|reflexivity].
          apply Z.eqb_eq in Ey. congruence.
        * intros x Hx. cbn. unfold hit in Hx. apply Z.eqb_eq in Hx. rewrite Hx.
          reflexivity.
    - destruct (existsb _ (fantasy_teams s)); [|discriminate].
      injection H as <-. unfold get_followed_team, fetchone. cbn [set_followed followed_teams].
      split; [|split; [|split; [|reflexivity]]].
      + rewrite find_app_r by exact Eh. cbn. now rewrite Z.eqb_refl.
      + now rewrite map_app.
      + intros other Ho.
        destruct (List.find (fun f => (fo_fantasy_team_id f =? other)%Z) (followed_teams s))
          as [y|] eqn:Ef.
        * now apply find_app_l.
        * rewrite find_app_r.
          -- cbn. destruct (Z.eqb_spec team_id other) as [E|_]; [congruence | reflexivity].
          -- apply not_true_is_false. intros Hc. apply existsb_exists in Hc.
             destruct Hc as (x & Hx & Hhx).
             pose proof (find_none _ _ Ef x Hx) as Hc. cbn in Hc. congruence. }
  destruct Hget as (Hg & Hids & Hother & Hres).
  split; [exact Hg|]. split; [|split; [exact Hother|split]].
  - rewrite Hids. destruct (existsb hit (followed_teams s)) eqn:Eh.
    + now rewrite app_nil_r.
    + apply NoDup_app. split; [exact Hn|]. split; [|apply NoDup_singleton].
      intros x Hx Hx'. apply list_elem_of_singleton in Hx'. subst x.
      apply list_elem_of_fmap in Hx. destruct Hx as (f & Hf & Hin).
      assert (Hc : existsb hit (followed_teams s) = true).
      { apply existsb_exists. exists f. split; [now apply list_elem_of_In|].
        unfold hit. apply Z.eqb_eq. congruence. }
      congruence.
  - intros Hname tournament_id.
    rewrite (follow_points_of s' team_id tournament_id row Hg Hname).
    unfold team_results. now rewrite Hres.
  - unfold get_followed_team, fetchone, remove_followed_team. cbn [set_followed followed_teams].
    apply find_none_existsb. apply not_true_is_false. intros Hc.
    apply existsb_exists in Hc. destruct Hc as (x & Hx & Hhx).
    apply filter_In in Hx. destruct Hx as [_ Hx]. rewrite Hhx in Hx. discriminate.
Qed.

(** ** Match results *)

Lemma follow_points_counts (s : db) (team_id tournament_id : Z) :
  calculate_team_follow_points s team_id tournament_id
  == match get_followed_team s team_id with
     | Some f => Spec.Qsum (map Spec.result_points
                                (List.filter (counts_for f tournament_id) (match_results s)))
     | None => 0
     end.
Proof.
  unfold calculate_team_follow_points.
  destruct (get_followed_team s team_id) as [f|]; [|reflexivity].
  rewrite follow_loop_spec, Qplus_0_l. unfold get_match_results, counts_for.
  destruct (str_truthy (fo_team_name f)); cbn [negb orb].
  - rewrite filter_filter. apply Qsum_perm, Permutation_map. symmetry. apply Permutation_rev.
  - rewrite <- (Qsum_perm _ _ (Permutation_map _ (Permutation_rev _))).
    f_equiv. f_equal. apply filter_ext_in'. intros r _. now rewrite andb_true_r.
Qed.

(** X22.  A recorded result and the follow points.  When
    add_match_result returns normally it appends one result row, and the
    follow points of any fantasy team in any tournament grow by the
    points of that result (+100 or -75 for a best of 3, +75 or -50
    otherwise) if the result is of that tournament and of the team it
    follows (or it follows a team with an empty name), and stay the same
    otherwise.  With result ids no larger than the counter,
    delete_match_result of the new id restores the tables. *)
Theorem result_moves_follow_points (a a' : site) (tournament_id : Z)
    (team_name opponent result fmt : string) (team_id scored : Z) :
  add_match_result a tournament_id team_name opponent result fmt = Ok a' ->
  let r := {| res_id := seq_match_results a + 1; res_tournament_id := tournament_id;
              res_team_name := team_name; res_opponent := opponent;
              res_result := result; res_format := fmt |} in
  match_results (core a') = match_results (core a) ++ [r]
  /\ calculate_team_follow_points (core a') team_id scored
     == calculate_team_follow_points (core a) team_id scored
        + match get_followed_team (core a) team_id with
          | Some f => if counts_for f scored r then Spec.result_points r else 0
          | None => 0
          end
  /\ (Forall (fun x => (res_id x <= seq_match_results a)%Z) (match_results (core a)) ->
      delete_match_result (core a') (res_id r) = core a).
Proof.
  intros H r. unfold add_match_result in H.
  destruct (tournament_exists (core a) tournament_id); [|discriminate].
  injection H as <-. fold r. cbn [core set_results match_results]. split; [reflexivity|]. split.
  - rewrite !follow_points_counts.
    change (get_followed_team (set_results (core a) (match_results (core a) ++ [r])) team_id)
      with (get_followed_team (core a) team_id).
    destruct (get_followed_team (core a) team_id) as [f|]; [|ring].
    cbn [match_results set_results]. rewrite List.filter_app, map_app.
    cbn [List.filter].
    assert (Happ : forall l l', Spec.Qsum (l ++ l') == Spec.Qsum l + Spec.Qsum l').
    { intros l l'. induction l as [|x l IH]; simpl; [ring | rewrite IH; ring]. }
    rewrite Happ. destruct (counts_for f scored r); cbn; ring.
  - intros Hseq. unfold delete_match_result. cbn [set_results match_results res_id r].
    rewrite List.filter_app. cbn [List.filter res_id]. rewrite Z.eqb_refl. cbn [negb].
    rewrite app_nil_r, (filter_fresh_id res_id) by exact Hseq.
    now destruct (core a).
Qed.

(** ** Team adjustments *)

(** X23.  Team adjustment, added and deleted.  When add_point_adjustment
    returns normally, get_total_adjustments of that fantasy team grows
    by the amount and that of every other team is unchanged; with
    adjustment ids no larger than the counter, delete_adjustment of the
    id just given restores the tables. *)
Theorem team_adjustment_round_trip (a a' : site) (team_id : Z) (amount : Q) :
  add_point_adjustment a team_id amount = Ok a' ->
  (forall other,
     get_total_adjustments (core a') other
     == get_total_adjustments (core a) other
        + (if (other =? team_id)%Z then amount else 0))
  /\ (Forall (fun x => (adj_id x <= seq_point_adjustments a)%Z) (point_adjustments (core a)) ->
      delete_adjustment (core a') (seq_point_adjustments a') = core a).
Proof.
  unfold add_point_adjustment. destruct (existsb _ (fantasy_teams (core a))); [|discriminate].
  intros [= <-]. cbn [core set_adjustments point_adjustments seq_point_adjustments]. split.
  - intros other. unfold get_total_adjustments. cbn [point_adjustments set_adjustments].
    rewrite !sum_Qsum, List.filter_app, map_app. cbn [List.filter adj_fantasy_team_id].
    assert (Happ : forall l l', Spec.Qsum (l ++ l') == Spec.Qsum l + Spec.Qsum l').
    { intros l l'. induction l as [|x l IH]; simpl; [ring | rewrite IH; ring]. }
    rewrite Happ. rewrite (Z.eqb_sym team_id other).
    destruct (other =? team_id)%Z; cbn; ring.
  - intros Hseq. unfold delete_adjustment. cbn [set_adjustments point_adjustments].
    rewrite List.filter_app. cbn [List.filter adj_id]. rewrite Z.eqb_refl. cbn [negb].
    rewrite app_nil_r, (filter_fresh_id adj_id) by exact Hseq.
    now destruct (core a).
Qed.

(** Team Bravo, which follows MIBR, is set to follow LOUD: it is left
    with the -75 of LOUD's one recorded loss in a best-of-3. *)
Lemma followed_team_is_replaced_witness :
  exists s',
    set_followed_team Examples.small_league 2 "LOUD" "AMER" = Ok s'
    /\ get_followed_team s' 2
       = Some {| fo_fantasy_team_id := 2; fo_team_name := "LOUD";
                 fo_team_region := "AMER" |}
    /\ NoDup (map fo_fantasy_team_id (followed_teams s'))
    /\ calculate_team_follow_points s' 2 1 == -75.
Proof.
  destruct (set_followed_team Examples.small_league 2 "LOUD" "AMER") as [s'|] eqn:E;
    [|vm_compute in E; discriminate E].
  assert (Hn : NoDup (map fo_fantasy_team_id (followed_teams Examples.small_league))).
  { refine (bool_decide_unpack _ _). vm_compute. exact I. }
  destruct (followed_team_is_replaced _ s' 2 "LOUD" "AMER" E Hn) as (Hg & Hd & _ & Hp & _).
  exists s'. split; [reflexivity|]. split; [exact Hg|]. split; [exact Hd|].
  rewrite (Hp ltac:(discriminate) 1%Z). vm_compute. reflexivity.
Defined.

(** A best-of-3 win of MIBR is recorded: team Bravo, its follower, gets
    the 100 points of the result on top of its 50. *)
Lemma result_moves_follow_points_witness :
  exists a',
    add_match_result Cases.unscraped 1 "MIBR" "NRG" "win" "bo3" = Ok a'
    /\ calculate_team_follow_points (core Cases.unscraped) 2 1 == 50
    /\ calculate_team_follow_points (core a') 2 1 == 150
    /\ delete_match_result (core a') 4 = core Cases.unscraped.
Proof.
  destruct (add_match_result Cases.unscraped 1 "MIBR" "NRG" "win" "bo3") as [a'|] eqn:E;
    [|vm_compute in E; discriminate E].
  destruct (result_moves_follow_points _ a' 1 "MIBR" "NRG" "win" "bo3" 2 1 E)
    as (_ & Hp & Hdel).
  exists a'. split; [reflexivity|]. split; [vm_compute; reflexivity|].
  split; [rewrite Hp; vm_compute; reflexivity|].
  apply Hdel. repeat constructor; discriminate.
Defined.

(** Team Charlie loses 50 points by hand and the entry is deleted
    again. *)
Lemma team_adjustment_round_trip_witness :
  exists a',
    add_point_adjustment Cases.unscraped 3 (-50) = Ok a'
    /\ get_total_adjustments (core a') 3 == 150
    /\ get_total_adjustments (core a') 2 == 0
    /\ delete_adjustment (core a') 2 = core Cases.unscraped.
Proof.
  destruct (add_point_adjustment Cases.unscraped 3 (-50)) as [a'|] eqn:E;
    [|vm_compute in E; discriminate E].
  destruct (team_adjustment_round_trip _ a' 3 (-50) E) as (Hsum & Hdel).
  exists a'. split; [reflexivity|].
  split; [rewrite (Hsum 3%Z); vm_compute; reflexivity|].
  split; [rewrite (Hsum 2%Z); vm_compute; reflexivity|].
  assert (Es : seq_point_adjustments a' = 2%Z).
  { vm_compute in E. now injection E as <-. }
  rewrite <- Es. apply Hdel. repeat constructor; discriminate.
Defined.

End FollowProperties.

(* ===================================================================== *)
(** * database.py: the match tables *)
(* ===================================================================== *)

Module MatchTableProperties.

Import Py Scraper Database Invariants PyFacts PointsFacts AggregatorFacts StandingsFacts RosterFacts Tables Routes Notions PlayoffProperties RecalculationFacts RecalculationProperties FollowProperties.

(** X24.  The scraped score is not stored.  When upsert_match returns
    normally the table has a row with the match_id, tournament_id,
    match_url, team_a and team_b of the dictionary; if the match was not
    in the table, that row has score_a 0, score_b 0, map_count 0, an
    empty match_format and the status completed, whatever the dictionary
    says.  If every row had these defaults before, every row has them
    afterwards. *)
Theorem scraped_scores_are_not_stored (data : match_info) (a a' : site) :
  upsert_match data a = Ok a' ->
  (exists m, m ∈ matches a'
             /\ m_match_id m = mi_match_id data
             /\ m_tournament_id m = mi_tournament_id data
             /\ m_match_url m = mi_match_url data
             /\ m_team_a m = mi_team_a data /\ m_team_b m = mi_team_b data
             /\ (existsb (same_match data) (matches a) = false -> unscored m))
  /\ (Forall unscored (matches a) -> Forall unscored (matches a')).
Proof.
  unfold upsert_match. destruct (existsb (same_match data) (matches a)) eqn:Eh.
  - intros [= <-]. cbn [matches]. split.
    + apply existsb_exists in Eh. destruct Eh as (m & Hm & Hs).
      exists (refreshed_match m data). split.
      * apply list_elem_of_fmap. exists m. rewrite Hs. split; [reflexivity|].
        now apply list_elem_of_In.
      * unfold same_match in Hs. apply andb_true_iff in Hs. destruct Hs as [H1 H2].
        apply String.eqb_eq in H1. apply Z.eqb_eq in H2.
        cbn. repeat split; first [assumption | reflexivity | discriminate].
    + intros H. apply Forall_fmap. apply (Forall_impl _ _ _ H).
      intros m Hm. cbn. destruct (same_match data m); [|exact Hm]. exact Hm.
  - destruct (tournament_exists (core a) (mi_tournament_id data)); [|discriminate].
    intros [= <-]. cbn [matches]. split.
    + exists (inserted_match (seq_matches a + 1) data). split.
      * apply elem_of_app. right. apply list_elem_of_here.
      * cbn. repeat split; reflexivity.
    + intros H. apply Forall_app. split; [exact H|].
      constructor; [|constructor]. cbn. repeat split; reflexivity.
Qed.

(** ** Storing the same rows again *)

Lemma map_id_on {A : Type} (f : A -> A) (l : list A) :
  (forall x, In x l -> f x = x) -> map f l = l.
Proof.
  induction l as [|x l IH]; intros H; [reflexivity|].
  simpl. rewrite (H x (or_introl eq_refl)), IH; [reflexivity|].
  intros y Hy. apply H. now right.
Qed.

Lemma existsb_false_each {A : Type} (f : A -> bool) (l : list A) (x : A) :
  existsb f l = false -> In x l -> f x = false.
Proof.
  intros H Hx. apply not_true_is_false. intros Hf.
  assert (existsb f l = true) by (apply existsb_exists; eauto). congruence.
Qed.

Lemma existsb_upd {A : Type} (hit : A -> bool) (upd : A -> A) (l : list A) :
  (forall x, hit (upd x) = hit x) -> existsb hit (map upd l) = existsb hit l.
Proof.
  intros H. induction l as [|x l IH]; [reflexivity|]. simpl. now rewrite H, IH.
Qed.

Lemma refreshed_stats_same (d : match_row) : refreshed_stats d d = d.
Proof. now destruct d. Qed.

(** X25.  Storing a match twice.  When upsert_match returns normally,
    running it again with the same dictionary returns normally and
    leaves every row of every table as the first run left it, in every
    column other than scraped_at, which each conflicting call sets to
    the current time and which is not held here; the only other change
    is that the AUTOINCREMENT counter of matches has advanced by one,
    because the statement draws an id before it finds the conflict.  The
    same holds for upsert_match_player_stats and the counter of
    match_player_stats. *)
Theorem match_upserts_repeat (a a' : site) :
  (forall data, upsert_match data a = Ok a' ->
                upsert_match data a' = Ok (matches_id_drawn a'))
  /\ (forall row, upsert_match_player_stats row a = Ok a' ->
                  upsert_match_player_stats row a' = Ok (stats_id_drawn a')).
Proof.
  split.
  - intros data. unfold upsert_match at 1.
    destruct (existsb (same_match data) (matches a)) eqn:Eh.
    + intros [= <-]. unfold upsert_match, matches_id_drawn.
      cbn [matches core seq_matches seq_match_results
        seq_point_adjustments seq_trades match_player_stats seq_match_player_stats
        player_adjustments seq_player_adjustments].
      assert (E : existsb (same_match data)
                    (map (fun m => if same_match data m then refreshed_match m data else m)
                         (matches a)) = true).
      { rewrite existsb_upd; [exact Eh|]. intros m.
        destruct (same_match data m) eqn:Em; [|exact Em]. exact Em. }
      rewrite E. do 2 f_equal. rewrite map_map. apply map_ext. intros m.
      destruct (same_match data m) eqn:Em; [|now rewrite Em].
      change (same_match data (refreshed_match m data)) with (same_match data m).
      now rewrite Em.
    + destruct (tournament_exists (core a) (mi_tournament_id data)); [|discriminate].
      intros [= <-]. unfold upsert_match, matches_id_drawn.
      cbn [matches core seq_matches seq_match_results
        seq_point_adjustments seq_trades match_player_stats seq_match_player_stats
        player_adjustments seq_player_adjustments].
      rewrite existsb_app. cbn [existsb]. rewrite Eh. unfold same_match at 1.
      cbn [inserted_match m_match_id m_tournament_id]. rewrite String.eqb_refl, Z.eqb_refl.
      cbn [andb orb]. do 2 f_equal. rewrite map_app. f_equal.
      * apply map_id_on. intros m Hm. now rewrite (existsb_false_each _ _ _ Eh Hm).
      * cbn [map]. unfold same_match. cbn [inserted_match m_match_id m_tournament_id].
        rewrite String.eqb_refl, Z.eqb_refl. reflexivity.
  - intros row. unfold upsert_match_player_stats at 1.
    set (hit := same_stat (mr_player_id row) (mr_match_id row)).
    destruct (existsb hit (match_player_stats a)) eqn:Eh.
    + intros [= <-]. unfold upsert_match_player_stats, stats_id_drawn. fold hit.
      cbn [matches core seq_matches seq_match_results
        seq_point_adjustments seq_trades match_player_stats seq_match_player_stats
        player_adjustments seq_player_adjustments].
      set (upd := fun r => if hit r then {| sr_id := sr_id r;
                                             sr_data := refreshed_stats (sr_data r) row |}
                           else r).
      assert (Hh : forall r, hit (upd r) = hit r).
      { intros r. unfold upd. destruct (hit r) eqn:Er; [|exact Er]. exact Er. }
      assert (E : existsb hit (map upd (match_player_stats a)) = true).
      { now rewrite existsb_upd. }
      rewrite E. do 2 f_equal. rewrite map_map. apply map_ext. intros r.
      fold (upd (upd r)). unfold upd at 1. rewrite Hh. unfold upd.
      destruct (hit r); reflexivity.
    + destruct (tournament_exists (core a) (mr_tournament_id row)); [|discriminate].
      intros [= <-]. unfold upsert_match_player_stats, stats_id_drawn. fold hit.
      cbn [matches core seq_matches seq_match_results
        seq_point_adjustments seq_trades match_player_stats seq_match_player_stats
        player_adjustments seq_player_adjustments].
      assert (Hrow : hit {| sr_id := seq_match_player_stats a + 1; sr_data := row |} = true).
      { unfold hit, same_stat. cbn [sr_data]. now rewrite !String.eqb_refl. }
      rewrite existsb_app. cbn [existsb]. rewrite Eh, Hrow. cbn [orb].
      do 2 f_equal. rewrite map_app. f_equal.
      * apply map_id_on. intros r Hr. now rewrite (existsb_false_each _ _ _ Eh Hr).
      * cbn [map]. rewrite Hrow. cbn [sr_id sr_data]. now rewrite refreshed_stats_same.
Qed.

Lemma match_tournaments_team_rows (l : list Z) (s : db) :
  match_tournaments (fold_left delete_team_rows l s) = match_tournaments s.
Proof.
  revert s. induction l as [|x l IH]; intros s; [reflexivity|].
  cbn [fold_left]. now rewrite IH.
Qed.

Lemma match_tournaments_cascade (l : list Z) (s : db) :
  match_tournaments (fold_left _delete_league_cascade l s) = match_tournaments s.
Proof.
  revert s. induction l as [|x l IH]; intros s; [reflexivity|].
  cbn [fold_left]. rewrite IH. unfold _delete_league_cascade.
  cbn [match_tournaments]. apply match_tournaments_team_rows.
Qed.

Lemma delete_tournament_check (s : db) (t : Z) :
  match delete_tournament s t with
  | Ok _ => existsb (Z.eqb t) (match_tournaments s) = false
  | Raise e => e = IntegrityError /\ existsb (Z.eqb t) (match_tournaments s) = true
  end.
Proof.
  unfold delete_tournament. rewrite match_tournaments_cascade.
  cbn [set_players match_tournaments].
  destruct (existsb (Z.eqb t) (match_tournaments s)); [now split | reflexivity].
Qed.

Lemma joined_lookup (s : db) (l : list roster_entry) (p : player_row * roster_entry) :
  p ∈ join_players s l ->
  players s !! (fr_player_id p.2, fr_tournament_id p.2) = Some p.1.
Proof.
  unfold join_players. intros H. apply list_elem_of_omap in H.
  destruct H as (fr & _ & Hfr).
  destruct (players s !! (fr_player_id fr, fr_tournament_id fr)) as [q|] eqn:E;
    [|discriminate].
  cbn in Hfr. injection Hfr as <-. exact E.
Qed.

Lemma get_roster_joined (s : db) (team_id : Z) (phase : option string) :
  exists l, get_roster s team_id phase = join_players s l.
Proof.
  unfold get_roster. destruct phase as [ph|]; [destruct (str_truthy ph)|]; eauto.
Qed.

(** X26.  Clearing the match data of a tournament.  delete_match_data
    removes every row of the tournament from matches and from
    match_player_stats and every leaderboard row of the tournament, but
    no roster entry, so that get_roster no longer shows the roster
    entries of that tournament; after it delete_tournament returns
    normally. *)
Theorem delete_match_data_clears_tournament (a : site) (t : Z) :
  let a' := delete_match_data a t in
  get_matches a' t = [] /\ raw_rows a' t = []
  /\ (forall pid, players (core a') !! (pid, t) = None)
  /\ fantasy_roster (core a') = fantasy_roster (core a)
  /\ (forall team_id phase p, p ∈ get_roster (core a') team_id phase ->
                              fr_tournament_id p.2 <> t)
  /\ exists s', delete_tournament (core a') t = Ok s'.
Proof.
  cbv zeta. split; [|split; [|split; [|split; [|split]]]].
  + unfold get_matches, delete_match_data. cbn [matches]. rewrite filter_filter.
    rewrite (filter_none _ (matches a)); [reflexivity|].
    intros m _. now destruct (m_tournament_id m =? t)%Z.
  + unfold raw_rows, delete_match_data. cbn [match_player_stats].
    rewrite filter_map, filter_filter.
    rewrite (filter_none _ (match_player_stats a)); [reflexivity|].
    intros r _. now destruct (mr_tournament_id (sr_data r) =? t)%Z.
  + intros pid. unfold delete_match_data.
    cbn [core set_match_tournaments set_players players].
    apply map_lookup_filter_None. right. intros row _. cbn. congruence.
  + reflexivity.
  + intros team_id phase p Hp E.
    destruct (get_roster_joined (core (delete_match_data a t)) team_id phase) as [l Hl].
    rewrite Hl in Hp. apply joined_lookup in Hp.
    unfold delete_match_data in Hp. cbn [core set_match_tournaments set_players players] in Hp.
    apply map_lookup_filter_Some in Hp. destruct Hp as [_ Hp]. cbn in Hp. congruence.
  + pose proof (delete_tournament_check (core (delete_match_data a t)) t) as Hc.
    destruct (delete_tournament (core (delete_match_data a t)) t) as [s'|e]; [eauto|].
    destruct Hc as [_ Hc]. exfalso.
    unfold delete_match_data in Hc. cbn [core set_match_tournaments match_tournaments] in Hc.
    apply existsb_exists in Hc. destruct Hc as (x & Hx & Ex).
    apply Z.eqb_eq in Ex. subst x. apply filter_In in Hx. destruct Hx as [_ Hx].
    rewrite Z.eqb_refl in Hx. discriminate.
Qed.

(** A best-of-3 that MIBR won 2:1 is stored as 0:0 with no format. *)
Lemma scraped_scores_are_not_stored_witness :
  exists a' m,
    upsert_match Cases.won_match Cases.scraped = Ok a'
    /\ m ∈ matches a'
    /\ m_match_id m = "104"%string
    /\ m_score_a m = 0%Z /\ m_score_b m = 0%Z /\ m_map_count m = 0%Z
    /\ m_match_format m = ""%string.
Proof.
  destruct (upsert_match Cases.won_match Cases.scraped) as [a'|] eqn:E;
    [|vm_compute in E; discriminate E].
  destruct (scraped_scores_are_not_stored _ _ a' E) as ((m & Hin & Hid & _ & _ & _ & _ & Hu) & _).
  destruct (Hu eq_refl) as (Ha & Hb & Hc & Hf & _).
  exists a', m. repeat split; assumption.
Defined.

End MatchTableProperties.

(* ===================================================================== *)
(** * scraper.py and app.py: storing a scrape, the roster form *)
(* ===================================================================== *)

Module AdminProperties.

Import Py Scraper Database Invariants PyFacts PointsFacts AggregatorFacts StandingsFacts RosterFacts Tables Routes MatchPage ScrapeSource Notions PlayoffProperties RecalculationFacts RecalculationProperties FollowProperties.

(** X27.  A scrape keeps roles and manual points.  After the loop of
    scrape_source that stores the aggregated rows with upsert_player,
    whether it ends normally or with an exception, every leaderboard row
    that was there is still there with its role and its manual points, a
    row that the scrape does not name is unchanged, and the roster table
    is unchanged. *)
Theorem rescrape_keeps_role_and_manual_points (aggregated : list player_dict) (s : db)
    (k : string * Z) (row : player_row) :
  players s !! k = Some row ->
  let s' := (store_players aggregated s).1 in
  (exists row', players s' !! k = Some row'
                /\ pd_role (pr_data row') = pd_role (pr_data row)
                /\ pr_manual_pts row' = pr_manual_pts row)
  /\ fantasy_roster s' = fantasy_roster s
  /\ ((forall p, p ∈ aggregated -> (pd_player_id p, pd_tournament_id p) <> k) ->
      players s' !! k = Some row).
Proof.
  intros Hrow s'. subst s'. revert s row Hrow.
  induction aggregated as [|p rest IH]; intros s row Hrow.
  - cbn. split; [eauto|]. split; [reflexivity|]. intros _. exact Hrow.
  - cbn [store_players]. unfold upsert_player.
    destruct (existsb _ (tournaments s)).
    2: { cbn. split; [eauto|]. split; [reflexivity|]. intros _. exact Hrow. }
    set (key := (pd_player_id p, pd_tournament_id p)).
    set (s1 := set_players s _).
    destruct (decide (key = k)) as [E|N].
    + assert (H1 : players s1 !! k = Some (upsert_row (Some row) p)).
      { unfold s1. cbn [players set_players]. rewrite E, lookup_insert_eq, Hrow. reflexivity. }
      destruct (IH s1 _ H1) as ((row' & Hr' & Hro & Hma) & Hfr & _).
      split; [|split].
      * exists row'. split; [exact Hr'|]. split; [rewrite Hro | rewrite Hma]; reflexivity.
      * rewrite Hfr. reflexivity.
      * intros H. exfalso. apply (H p); [apply list_elem_of_here | exact E].
    + assert (H1 : players s1 !! k = Some row).
      { unfold s1. cbn [players set_players]. now rewrite lookup_insert_ne. }
      destruct (IH s1 _ H1) as (Hex & Hfr & Hun).
      split; [exact Hex|]. split; [rewrite Hfr; reflexivity|].
      intros H. apply Hun. intros q Hq. apply H. now apply list_elem_of_further.
Qed.

(** ** The roster cap *)

Lemma join_players_length (s : db) (l : list roster_entry) :
  (length (join_players s l) <= length l)%nat
  /\ (Forall (fun fr => is_Some (players s !! (fr_player_id fr, fr_tournament_id fr))) l ->
      length (join_players s l) = length l).
Proof.
  unfold join_players. induction l as [|fr l [IH1 IH2]]; [now split|].
  cbn [omap list_omap].
  destruct (players s !! (fr_player_id fr, fr_tournament_id fr)) as [p|] eqn:E;
    cbn [mbind option_bind length].
  - split; [lia|]. intros H. apply Forall_cons in H. destruct H as [_ H]. now rewrite IH2.
  - split; [lia|]. intros H. apply Forall_cons in H. destruct H as [[x Hx] _]. cbn in Hx. congruence.
Qed.

Lemma sort_by_length {A : Type} (le : A -> A -> bool) (l : list A) :
  length (sort_by le l) = length l.
Proof. symmetry. apply Permutation_length, sort_by_perm. Qed.

Lemma get_roster_count (s : db) (team_id : Z) (phase : string) :
  phase <> ""%string ->
  let entries := List.filter (team_phase team_id phase) (fantasy_roster s) in
  (length (get_roster s team_id (Some phase)) <= length entries)%nat
  /\ (Forall (fun fr => is_Some (players s !! (fr_player_id fr, fr_tournament_id fr)))
             entries ->
      length (get_roster s team_id (Some phase)) = length entries).
Proof.
  intros Hph entries. unfold get_roster. rewrite (str_truthy_nonempty _ Hph).
  rewrite filter_filter. fold (team_phase team_id phase). fold entries.
  destruct (join_players_length s (sort_by role_slot_le entries)) as [H1 H2].
  rewrite sort_by_length in H1, H2. split; [exact H1|].
  intros H. apply H2. apply Forall_forall. intros fr Hfr.
  rewrite Forall_forall in H. apply H.
  apply list_elem_of_In. apply (Permutation_in fr (Permutation_sym (sort_by_perm role_slot_le entries))).
  now apply list_elem_of_In.
Qed.

(** X28.  The roster cap of the add-player form.  For an existing team
    and league, with the phase of the form or else of the league: if the
    roster that get_roster shows for the phase has at least
    total_players rows, add_player adds nothing; if it adds a row, that
    roster was below the cap and the new row is the last of the table,
    for this team, player, phase and role slot, without a star.  When
    the phase is not empty and every entry of the team in it has a
    leaderboard row, a roster within the cap stays within the cap. *)
Theorem roster_cap_enforced (s : db) (team_id is_duplicate : Z) (player_id role_slot : string)
    (form_phase : option string) (team : fantasy_team) (team_league league : league) :
  get_fantasy_team s team_id = Some (team, team_league) ->
  get_league s (ft_league_id team) = Some league ->
  let phase := default (l_phase league) form_phase in
  let cap := ruleset_total_players s (ft_league_id team) in
  let shown := Z.of_nat (length (get_roster s team_id (Some phase))) in
  let entries := fun s => List.filter (team_phase team_id phase) (fantasy_roster s) in
  let after := add_player s team_id player_id role_slot form_phase is_duplicate in
  ((cap <= shown)%Z -> after = (s, false))
  /\ (after.2 = true ->
      (shown < cap)%Z
      /\ exists fr, fantasy_roster after.1 = fantasy_roster s ++ [fr]
                    /\ Spec.cell fr = (team_id, player_id, phase)
                    /\ fr_role_slot fr = role_slot /\ fr_is_star fr = 0%Z)
  /\ (phase <> ""%string ->
      Forall (fun fr => is_Some (players s !! (fr_player_id fr, fr_tournament_id fr)))
             (entries s) ->
      (Z.of_nat (length (entries s)) <= cap)%Z ->
      (Z.of_nat (length (entries after.1)) <= cap)%Z).
Proof.
  intros Ht Hl phase cap shown entries after.
  assert (Hafter : after = if (cap <=? shown)%Z then (s, false)
                           else add_player_to_roster s team_id player_id
                                  (l_tournament_id team_league) role_slot phase is_duplicate).
  { unfold after, add_player. rewrite Ht, Hl. reflexivity. }
  assert (Hadd : forall r, add_player_to_roster s team_id player_id
                             (l_tournament_id team_league) role_slot phase is_duplicate = r ->
                           (r = (s, false))
                           \/ (r.2 = true
                               /\ exists fr, fantasy_roster r.1 = fantasy_roster s ++ [fr]
                                    /\ Spec.cell fr = (team_id, player_id, phase)
                                    /\ fr_role_slot fr = role_slot /\ fr_is_star fr = 0%Z)).
  { intros r <-. unfold add_player_to_roster, insert_roster.
    destruct (existsb _ (fantasy_roster s)); [now left|].
    destruct (negb _); [now left|]. right. split; [reflexivity|].
    eexists. split; [reflexivity|]. repeat split. }
  split; [|split].
  - intros H. rewrite Hafter. destruct (Z.leb_spec cap shown); [reflexivity | lia].
  - intros H. rewrite Hafter in H |- *.
    destruct (Z.leb_spec cap shown) as [Hle|Hlt]; [discriminate H|].
    split; [exact Hlt|].
    destruct (Hadd _ eq_refl) as [E|[_ E]]; [rewrite E in H; discriminate H | exact E].
  - intros Hph Hall Hcap. rewrite Hafter.
    destruct (Z.leb_spec cap shown) as [Hle|Hlt]; [exact Hcap|].
    destruct (Hadd _ eq_refl) as [E|[_ (fr & E & _)]].
    + rewrite E. exact Hcap.
    + unfold entries. rewrite E, List.filter_app, length_app.
      destruct (get_roster_count s team_id phase Hph) as [_ Heq].
      fold (entries s) in Heq. specialize (Heq Hall).
      assert (Hs : shown = Z.of_nat (length (entries s))) by (unfold shown; now rewrite Heq).
      pose proof (filter_length_le (team_phase team_id phase) [fr]) as Hone.
      cbn [length] in Hone. fold (entries s). lia.
Qed.

(** p_c, scored 75 with 5 points by hand, is scraped again with 90. *)
Lemma rescrape_keeps_role_and_manual_points_witness :
  exists row',
    players (store_players [pr_data (Examples.leaderboard_row "p_c" 90 0)]
                           Examples.small_league).1 !! ("p_c"%string, 1%Z) = Some row'
    /\ pd_role (pr_data row') = "flex"%string
    /\ pr_manual_pts row' = 5.
Proof.
  destruct (rescrape_keeps_role_and_manual_points
              [pr_data (Examples.leaderboard_row "p_c" 90 0)] Examples.small_league
              ("p_c"%string, 1%Z) (Examples.leaderboard_row "p_c" 75 5) eq_refl)
    as ((row' & H & Hr & Hm) & _).
  exists row'. split; [exact H|]. split; [exact Hr | exact Hm].
Defined.

(** Team Alpha has its two swiss players: a third is refused. *)
Lemma roster_cap_enforced_witness :
  add_player Examples.small_league 1 "p_c" "flex" None 0 = (Examples.small_league, false).
Proof.
  refine (proj1 (roster_cap_enforced Examples.small_league 1 0 "p_c" "flex" None
                   (Examples.team 1 "Alpha") Examples.the_league Examples.the_league
                   eq_refl eq_refl) _).
  vm_compute. discriminate.
Defined.

End AdminProperties.

(* ===================================================================== *)
(** * app.py: the role form; scraper.py: the fallback table *)
(* ===================================================================== *)

Module RoleChangeProperties.

Import Py Scraper Database Invariants PyFacts PointsFacts AggregatorFacts StandingsFacts RosterFacts Tables Routes MatchPage Notions PlayoffProperties RecalculationFacts RecalculationProperties FollowProperties.

(** X29.  A role set by the administrator.  For an existing player,
    set_player_role returns normally; the row gets the new role and the
    three results of calculate_player_points applied once to the row's
    aggregated columns under that role, keeps its manual points, and no
    other row changes.  If the player has per-match rows, the next
    recalculate_tournament_points returns normally, keeps the new role
    and the manual points, and stores as fantasy_points the rounded sum
    of the match totals under the new role. *)
Theorem role_change_then_recalculation (a : site) (tournament_id : Z) (pid role : string)
    (row : player_row) :
  players (core a) !! (pid, tournament_id) = Some row ->
  exists s1 row1 base role_pts total,
    set_player_role (core a) tournament_id pid role = Ok s1
    /\ players s1 !! (pid, tournament_id) = Some row1
    /\ Points.calculate_player_points (row_stats (with_role (pr_data row) role)) (Some role)
       = Ok (base, role_pts, total)
    /\ pr_data row1 = with_points (with_role (pr_data row) role) base role_pts total
    /\ pr_manual_pts row1 = pr_manual_pts row
    /\ (forall k, k <> (pid, tournament_id) -> players s1 !! k = players (core a) !! k)
    /\ let mine := Spec.rows_of pid (raw_rows a tournament_id) in
       mine <> [] ->
       exists a2 row2,
         recalculate_tournament_points (with_core a s1) tournament_id = Ok a2
         /\ players (core a2) !! (pid, tournament_id) = Some row2
         /\ pd_role (pr_data row2) = role
         /\ pr_manual_pts row2 = pr_manual_pts row
         /\ pd_fantasy_points (pr_data row2)
            == round (Spec.Qsum (map (fun r => (Spec.match_points role r).2) mine)) 2.
Proof.
  intros Hrow. unfold set_player_role, get_player, update_player_role.
  cbn [players set_players]. rewrite lookup_alter_eq, Hrow.
  cbn [fmap option_fmap option_map pr_data].
  destruct (calculate_player_points_eq (row_stats (with_role (pr_data row) role)) (Some role))
    as ([[b r] t] & E & _).
  rewrite E. unfold mbind, result_bind, mret, result_ret. cbn beta iota.
  eexists _, _, b, r, t. split; [reflexivity|].
  cbn [players set_players]. rewrite !lookup_alter_eq, Hrow.
  cbn [fmap option_fmap option_map pr_data pr_manual_pts].
  split; [reflexivity|]. split; [reflexivity|]. split; [reflexivity|].
  split; [reflexivity|]. split.
  { intros k Hk. now rewrite !lookup_alter_ne by congruence. }
  cbv zeta. intros Hmine.
  set (mine := Spec.rows_of pid (raw_rows a tournament_id)) in *.
  set (s1 := set_players _ _).
  assert (Hraw : raw_rows (with_core a s1) tournament_id <> []).
  { change (raw_rows (with_core a s1) tournament_id) with (raw_rows a tournament_id).
    intros Er. apply Hmine. unfold mine. now rewrite Er. }
  destruct (recalculate_raw (with_core a s1) tournament_id Hraw) as (m & Em & Hm).
  exists (with_core (with_core a s1) (set_players (core (with_core a s1)) m)).
  specialize (Hm pid tournament_id). rewrite Z.eqb_refl in Hm.
  change (raw_rows (with_core a s1) tournament_id) with (raw_rows a tournament_id) in Hm.
  fold mine in Hm. destruct mine as [|r0 rest] eqn:Emine; [contradiction|].
  assert (H1 : players (core (with_core a s1)) !! (pid, tournament_id)
               = Some {| pr_data := with_points (with_role (pr_data row) role) b r t;
                         pr_manual_pts := pr_manual_pts row |}).
  { unfold s1. cbn [core with_core players set_players].
    now rewrite !lookup_alter_eq, Hrow. }
  rewrite H1 in Hm. cbn [fmap option_fmap option_map] in Hm.
  eexists. split; [exact Em|]. split; [exact Hm|].
  unfold player_role. rewrite H1. cbn [from_option pr_data with_points pd_role with_role].
  split; [reflexivity|]. split; [reflexivity|].
  destruct (all_match_totals_spec role (r0 :: rest)) as (_ & _ & H3).
  unfold rescored. cbn [pr_data with_points pd_fantasy_points]. now rewrite H3.
Qed.

(** ** Teams of the players of a match page *)

Lemma imap_all {A B : Type} (h : nat -> A -> B) (g : A -> B) (l : list A) :
  (forall i x, h i x = g x) -> imap h l = map g l.
Proof.
  revert h. induction l as [|x l IH]; intros h H; [reflexivity|].
  cbn [imap map]. rewrite H. f_equal. apply IH. intros i y. apply H.
Qed.

Lemma imap_take_drop {A B : Type} (f g : A -> B) (k : nat) (l : list A) :
  imap (fun i x => if (Z.of_nat i <? Z.of_nat k)%Z then f x else g x) l
  = map f (take k l) ++ map g (drop k l).
Proof.
  revert k. induction l as [|x l IH]; intros k.
  - now rewrite take_nil, drop_nil.
  - cbn [imap]. destruct k as [|k].
    + cbn [take drop map app].
      destruct (Z.ltb_spec (Z.of_nat 0) (Z.of_nat 0)); [lia|]. f_equal.
      apply imap_all. intros i y. unfold compose.
      destruct (Z.ltb_spec (Z.of_nat (S i)) (Z.of_nat 0)); [lia | reflexivity].
    + cbn [take drop map app].
      destruct (Z.ltb_spec (Z.of_nat 0) (Z.of_nat (S k))); [|lia]. f_equal.
      rewrite <- IH. apply imap_ext. intros i y _. unfold compose.
      destruct (Z.ltb_spec (Z.of_nat (S i)) (Z.of_nat (S k)));
        destruct (Z.ltb_spec (Z.of_nat i) (Z.of_nat k)); try lia; reflexivity.
Qed.

(** X30.  Teams in the fallback table.  When the all-maps section of a
    match page yields no player, scrape_match_page takes the rows of the
    fallback selector that the parser keeps and gives the first len // 2
    of them to team A and all the others, the middle one of an odd
    number included, to team B; when the section yields players, these
    are returned as they are. *)
Theorem fallback_team_assignment (active_section : option (list (list row_cells)))
    (fallback_rows : list row_cells) (team_a team_b match_id match_url : string)
    (tournament_id : Z) :
  let primary :=
    match active_section with
    | Some tbodies => primary_players tbodies team_a team_b match_id match_url tournament_id
    | None => []
    end in
  let parsed := _parse_power_query_style fallback_rows match_id match_url tournament_id in
  let half := (length parsed / 2)%nat in
  match_players active_section fallback_rows team_a team_b match_id match_url tournament_id
  = match primary with
    | [] => map (fun p => with_match_team p team_a) (take half parsed)
            ++ map (fun p => with_match_team p team_b) (drop half parsed)
    | _ => primary
    end.
Proof.
  intros primary parsed half. unfold match_players. fold primary.
  destruct primary; [|reflexivity]. fold parsed. unfold assign_by_position.
  rewrite <- (imap_take_drop _ _ half parsed). apply imap_ext. intros i p _.
  assert (E : (Z.of_nat (length parsed) / 2)%Z = Z.of_nat half).
  { unfold half. now rewrite Nat2Z.inj_div. }
  rewrite E. now destruct (Z.of_nat i <? Z.of_nat half)%Z.
Qed.

(** aspas is made a duelist: his three matches are then worth 173.1,
    -27.1 and 9.2, and the recalculation stores 155.2. *)
Lemma role_change_then_recalculation_witness :
  exists s1 a2 row2,
    set_player_role (core Cases.scraped) 1 "t1_8480_aspas" "duelist" = Ok s1
    /\ recalculate_tournament_points (with_core Cases.scraped s1) 1 = Ok a2
    /\ players (core a2) !! ("t1_8480_aspas"%string, 1%Z) = Some row2
    /\ pd_role (pr_data row2) = "duelist"%string
    /\ pd_fantasy_points (pr_data row2) == 155.2.
Proof.
  destruct (role_change_then_recalculation Cases.scraped 1 "t1_8480_aspas" "duelist"
              (Examples.leaderboard_row "t1_8480_aspas" 0 0) eq_refl)
    as (s1 & row1 & base & role_pts & total & Es & _ & _ & _ & _ & _ & Hre).
  destruct (Hre ltac:(discriminate)) as (a2 & row2 & Ea & Hrow & Hrole & _ & Hf).
  exists s1, a2, row2. split; [exact Es|]. split; [exact Ea|]. split; [exact Hrow|].
  split; [exact Hrole|]. rewrite Hf. vm_compute. reflexivity.
Defined.

End RoleChangeProperties.
